(** * A product submission client: AddProduct over encoding/json and net/http

    The repository has one operation, [productService.AddProduct]
    (product/service_impl.go): it serialises a [Product] with
    [json.Marshal], builds a POST request with [http.NewRequest], sends it
    with the configured client, checks the status code and decodes the
    response body with [json.NewDecoder(...).Decode].

    The operation itself is embedded from the source.  The Go standard
    library it calls is not part of the repository; the parts that decide
    the behaviour of AddProduct (unicode/utf8, strconv, encoding/json for
    the [Product] type, the request constructor of net/http) are modelled
    below after the library's documented behaviour, and the HTTP client is
    a capability held by the service.

    Go strings and byte slices are sequences of 8-bit bytes: [list ascii].
    Go's [int] is taken to be 64 bits wide and is a [Z]; runes are [Z]. *)

From Stdlib Require Import String Ascii List ZArith Lia Bool.
Import ListNotations.
Set Warnings "-register-all".
Local Open Scope char_scope.
Local Open Scope Z_scope.

(** ** Bytes and strings *)

Definition byte := ascii.
Definition bytes := list byte.

(** The numeric value of a byte and the conversion [byte(x)], which keeps
    the low eight bits. *)
Definition b2z (c : byte) : Z := Z.of_N (N_of_ascii c).
Definition z2b (z : Z) : byte := ascii_of_N (Z.to_N (z mod 256)).

(** A string literal of the source. *)
Definition lit (s : string) : bytes := list_ascii_of_string s.

(** The double quote character (0x22). *)
Definition dq : byte := "034".

Definition byte_eqb (a b : byte) : bool := Ascii.eqb a b.

Fixpoint bytes_eqb (a b : bytes) : bool :=
  match a, b with
  | [], [] => true
  | x :: a', y :: b' => byte_eqb x y && bytes_eqb a' b'
  | _, _ => false
  end.

(** [between lo c hi] is the test [lo <= c && c <= hi] on bytes. *)
Definition between (lo c hi : byte) : bool :=
  (b2z lo <=? b2z c) && (b2z c <=? b2z hi).

(** [strings.HasPrefix] and [strings.Contains]. *)
Fixpoint HasPrefix (s prefix : bytes) {struct prefix} : bool :=
  match prefix, s with
  | [], _ => true
  | x :: p', y :: s' => byte_eqb x y && HasPrefix s' p'
  | _ :: _, [] => false
  end.

Fixpoint Contains (s sub : bytes) : bool :=
  HasPrefix s sub ||
  match s with
  | [] => false
  | _ :: s' => Contains s' sub
  end.

(** ** Package unicode/utf8 *)

Module utf8.

Definition RuneError : Z := 0xFFFD.
Definition MaxRune : Z := 0x10FFFF.
Definition RuneSelf : Z := 0x80.

(** A continuation byte, [locb <= b <= hicb]. *)
Definition contb (b : byte) : bool := (0x80 <=? b2z b) && (b2z b <=? 0xBF).

(** The payload of a continuation byte, [b & maskx]. *)
Definition payload (b : byte) : Z := b2z b mod 64.

(** [DecodeRune p] unpacks the first UTF-8 encoding in [p] and returns the
    rune and its width in bytes.  An invalid encoding gives
    [(RuneError, 1)], the empty input [(RuneError, 0)].  The [first] and
    [acceptRanges] tables of the library are written out as comparisons:
    lead bytes 0xC2..0xDF start a two byte form, 0xE0..0xEF a three byte
    form, 0xF0..0xF4 a four byte form; the second byte is restricted for
    the leads 0xE0, 0xED, 0xF0 and 0xF4.  Masks and shifts are written as
    remainders and multiplications by powers of two. *)
Definition DecodeRune (p : bytes) : Z * nat :=
  match p with
  | [] => (RuneError, 0%nat)
  | p0 :: t =>
    let x := b2z p0 in
    if x <? RuneSelf then (x, 1%nat)
    else if (x <? 0xC2) || (0xF4 <? x) then (RuneError, 1%nat)
    else
      let sz := if x <? 0xE0 then 2%nat else if x <? 0xF0 then 3%nat else 4%nat in
      let lo := if x =? 0xE0 then 0xA0 else if x =? 0xF0 then 0x90 else 0x80 in
      let hi := if x =? 0xED then 0x9F else if x =? 0xF4 then 0x8F else 0xBF in
      if (length p <? sz)%nat then (RuneError, 1%nat)
      else
        match t with
        | b1 :: t1 =>
          if (b2z b1 <? lo) || (hi <? b2z b1) then (RuneError, 1%nat)
          else if (sz <=? 2)%nat then ((x mod 32) * 64 + payload b1, 2%nat)
          else
            match t1 with
            | b2 :: t2 =>
              if negb (contb b2) then (RuneError, 1%nat)
              else if (sz <=? 3)%nat
              then ((x mod 16) * 4096 + payload b1 * 64 + payload b2, 3%nat)
              else
                match t2 with
                | b3 :: _ =>
                  if negb (contb b3) then (RuneError, 1%nat)
                  else ((x mod 8) * 262144 + payload b1 * 4096
                        + payload b2 * 64 + payload b3, 4%nat)
                | [] => (RuneError, 1%nat)
                end
            | [] => (RuneError, 1%nat)
            end
        | [] => (RuneError, 1%nat)
        end
  end.

(** [EncodeRune r] is the UTF-8 encoding of [r]; a rune out of range or a
    surrogate half is encoded as [RuneError]. *)
Definition EncodeRune (r : Z) : bytes :=
  if (0 <=? r) && (r <=? 0x7F) then [z2b r]
  else if (0 <=? r) && (r <=? 0x7FF) then
    [z2b (0xC0 + r / 64); z2b (0x80 + r mod 64)]
  else if (r <? 0) || (MaxRune <? r) || ((0xD800 <=? r) && (r <=? 0xDFFF)) then
    [z2b 0xEF; z2b 0xBF; z2b 0xBD]
  else if r <=? 0xFFFF then
    [z2b (0xE0 + r / 4096); z2b (0x80 + (r / 64) mod 64); z2b (0x80 + r mod 64)]
  else
    [z2b (0xF0 + r / 262144); z2b (0x80 + (r / 4096) mod 64);
     z2b (0x80 + (r / 64) mod 64); z2b (0x80 + r mod 64)].

(** [ValidString s]: [s] consists entirely of valid UTF-8 encodings.  The
    index of the library's loop advances by the width of each rune: at the
    lead byte the rune is checked, and [skip] counts the bytes of it that
    are still to be stepped over. *)
Fixpoint validFrom (skip : nat) (s : bytes) : bool :=
  match s with
  | [] => true
  | _ :: t =>
    match skip with
    | S k => validFrom k t
    | O =>
      let '(r, size) := DecodeRune s in
      if (r =? RuneError) && (size =? 1)%nat then false
      else validFrom (size - 1) t
    end
  end.

Definition ValidString (s : bytes) : bool := validFrom 0 s.

End utf8.

(** ** Package strconv *)

Module strconv.

Definition digit (d : Z) : byte := z2b (48 + d).

Definition isDigit (c : byte) : bool := between "0" c "9".

(** The digit loop of [FormatInt] in base 10: digits are produced from the
    least significant one; [fuel] bounds the number of digits. *)
Fixpoint formatBits (fuel : nat) (u : Z) (acc : bytes) : bytes :=
  match fuel with
  | O => acc
  | S f =>
    if u <? 10 then digit u :: acc
    else formatBits f (u / 10) (digit (u mod 10) :: acc)
  end.

Definition formatUint (u : Z) : bytes :=
  formatBits (S (Z.to_nat (Z.log2 u))) u [].

(** [FormatInt i 10], also what the verb [%d] prints. *)
Definition FormatInt (i : Z) : bytes :=
  if i <? 0 then "-" :: formatUint (- i) else formatUint i.

(** The digit loop of [ParseUint] in base 10. *)
Fixpoint parseDigits (s : bytes) (acc : Z) : option Z :=
  match s with
  | [] => Some acc
  | c :: t =>
    if isDigit c then parseDigits t (10 * acc + (b2z c - 48)) else None
  end.

(** [ParseUint s 10 64]: [None] stands for a syntax or a range error. *)
Definition ParseUint (s : bytes) : option Z :=
  match s with
  | [] => None
  | _ =>
    match parseDigits s 0 with
    | Some n => if n <? 2 ^ 64 then Some n else None
    | None => None
    end
  end.

(** [ParseInt s 10 64]: an optional sign, then [ParseUint], then the range
    check against the cutoff [2^63]. *)
Definition ParseInt (s : bytes) : option Z :=
  match s with
  | [] => None
  | c :: t =>
    let neg := byte_eqb c "-" in
    let s' := if byte_eqb c "+" || neg then t else s in
    match ParseUint s' with
    | None => None
    | Some un =>
      if negb neg && (2 ^ 63 <=? un) then None
      else if neg && (2 ^ 63 <? un) then None
      else Some (if neg then - un else un)
    end
  end.

End strconv.

(** ** Error values

    Go's [error] is an interface with the method [Error() string].  The
    concrete errors that can reach the caller of AddProduct are listed
    here.  The offsets that json's errors also carry are not part of their
    message and are left out. *)

Inductive error : Type :=
| errorString (s : bytes)
    (* errors.New, and fmt.Errorf without a %w verb *)
| wrapError (msg : bytes) (err : error)
    (* fmt.Errorf with a %w verb: the formatted message and the wrapped error *)
| SyntaxError (c : byte) (context : bytes)
    (* json: an invalid character [c] met by the scanner *)
| UnmarshalTypeError (Value Type_ Struct Field : bytes)
    (* json: a JSON value that does not fit the Go type *)
| urlError (Op URL : bytes) (Err : error).
    (* url.Error *)

(** [io.EOF] and [io.ErrUnexpectedEOF]. *)
Definition io_EOF : error := errorString (lit "EOF").
Definition io_ErrUnexpectedEOF : error := errorString (lit "unexpected EOF").

Section ErrorText.

(** [strconv.Quote] decides with the Unicode tables which runes are
    printable; it only contributes to the text of library errors and is a
    parameter of the development. *)
Variable Quote : bytes -> bytes.

(** [quoteChar] of encoding/json, used in the text of a [SyntaxError]. *)
Definition quoteChar (c : byte) : bytes :=
  if byte_eqb c "'" then lit "'\''"
  else if byte_eqb c dq then ["'"; dq; "'"]
  else
    let s := Quote (utf8.EncodeRune (b2z c)) in
    "'" :: firstn (length s - 2) (skipn 1 s) ++ ["'"].

(** The method [Error()]. *)
Fixpoint Error (e : error) : bytes :=
  match e with
  | errorString s => s
  | wrapError msg _ => msg
  | SyntaxError c context =>
    lit "invalid character " ++ quoteChar c ++ " " :: context
  | UnmarshalTypeError Value Type_ Struct Field =>
    match Struct, Field with
    | [], [] =>
      lit "json: cannot unmarshal " ++ Value
        ++ lit " into Go value of type " ++ Type_
    | _, _ =>
      lit "json: cannot unmarshal " ++ Value
        ++ lit " into Go struct field " ++ Struct ++ "." :: Field
        ++ lit " of type " ++ Type_
    end
  | urlError Op URL Err =>
    Op ++ " " :: Quote URL ++ lit ": " ++ Error Err
  end.

(** [fmt.Errorf(prefix + "%w", err)]. *)
Definition Errorf_w (prefix : bytes) (err : error) : error :=
  wrapError (prefix ++ Error err) err.

(** [fmt.Errorf(prefix + "%d", n)]. *)
Definition Errorf_d (prefix : bytes) (n : Z) : error :=
  errorString (prefix ++ strconv.FormatInt n).

(** [errors.Unwrap]. *)
Definition Unwrap (e : error) : option error :=
  match e with
  | wrapError _ err => Some err
  | _ => None
  end.

End ErrorText.

(** ** The data model: the struct [Product] *)

Record Product : Type := mkProduct {
  Title : bytes;
  Description : bytes;
  Price : Z;
  Brand : bytes;
  Category : bytes
}.

(** The composite literal [Product{}]. *)
Definition zeroProduct : Product := mkProduct [] [] 0 [] [].

(** The values an [int] can hold. *)
Definition isInt (z : Z) : Prop := - 2 ^ 63 <= z < 2 ^ 63.

(** The fields in declaration order, with the key of their [json] tag and
    the name of their Go type. *)
Inductive field : Type := fTitle | fDescription | fPrice | fBrand | fCategory.

Definition fields : list field :=
  [fTitle; fDescription; fPrice; fBrand; fCategory].

Definition fieldName (f : field) : bytes :=
  match f with
  | fTitle => lit "title"
  | fDescription => lit "description"
  | fPrice => lit "price"
  | fBrand => lit "brand"
  | fCategory => lit "category"
  end.

Definition fieldType (f : field) : bytes :=
  match f with
  | fPrice => lit "int"
  | _ => lit "string"
  end.

(** ** Package encoding/json, for the type [Product] *)

Module json.

(** *** Encoding *)

Definition hex : bytes := lit "0123456789abcdef".
Definition hexDigit (n : Z) : byte := nth (Z.to_nat n) hex "0".

(** [htmlSafeSet]: the ASCII bytes that [Marshal] writes unescaped.  All of
    0x20..0x7F except the double quote, the backslash and, as [Marshal]
    escapes for HTML, the characters [&], [<] and [>]. *)
Definition htmlSafeSet (b : byte) : bool :=
  (0x20 <=? b2z b) && (b2z b <? 0x80)
  && negb (byte_eqb b dq) && negb (byte_eqb b "\")
  && negb (byte_eqb b "&") && negb (byte_eqb b "<") && negb (byte_eqb b ">").

(** The escape written for an ASCII byte outside [htmlSafeSet]. *)
Definition escapeByte (b : byte) : bytes :=
  if byte_eqb b "\" || byte_eqb b dq then ["\"; b]
  else if b2z b =? 8 then lit "\b"
  else if b2z b =? 12 then lit "\f"
  else if b2z b =? 10 then lit "\n"
  else if b2z b =? 13 then lit "\r"
  else if b2z b =? 9 then lit "\t"
  else lit "\u00" ++ [hexDigit (b2z b / 16); hexDigit (b2z b mod 16)].

(** The loop of [appendString src] with HTML escaping on.  At index [i] an
    ASCII byte is copied or escaped; otherwise the rune at [i] is decoded
    from at most [UTFMax] bytes: an invalid byte is written as the escape
    of U+FFFD, the runes U+2028 and U+2029 are escaped, any other rune is
    copied, and [i] advances by the width of the rune ([skip] counts the
    bytes still to be stepped over). *)
Fixpoint appendStringFrom (skip : nat) (src : bytes) : bytes :=
  match src with
  | [] => []
  | b :: t =>
    match skip with
    | S k => appendStringFrom k t
    | O =>
      if b2z b <? utf8.RuneSelf then
        (if htmlSafeSet b then [b] else escapeByte b) ++ appendStringFrom 0 t
      else
        let '(c, size) := utf8.DecodeRune (firstn 4 src) in
        if (c =? utf8.RuneError) && (size =? 1)%nat then
          lit "\ufffd" ++ appendStringFrom 0 t
        else if (c =? 0x2028) || (c =? 0x2029) then
          lit "\u202" ++ hexDigit (c mod 16) :: appendStringFrom (size - 1) t
        else
          firstn size src ++ appendStringFrom (size - 1) t
    end
  end.

Definition appendString (dst src : bytes) : bytes :=
  dst ++ dq :: appendStringFrom 0 src ++ [dq].

(** The encoder of a field value: strings by [appendString], the [int] by
    [strconv.AppendInt] in base 10. *)
Definition encodeValue (p : Product) (f : field) : bytes :=
  match f with
  | fTitle => appendString [] (Title p)
  | fDescription => appendString [] (Description p)
  | fPrice => strconv.FormatInt (Price p)
  | fBrand => appendString [] (Brand p)
  | fCategory => appendString [] (Category p)
  end.

(** The struct encoder: [next] is the opening brace before the first field
    and a comma before the others; each field is written as its quoted
    name, a colon and its value (no field of [Product] is [omitempty]). *)
Fixpoint encodeFields (next : byte) (fs : list field) (p : Product) : bytes :=
  match fs with
  | [] => []
  | f :: fs' =>
    next :: dq :: fieldName f ++ dq :: ":" :: encodeValue p f
      ++ encodeFields "," fs' p
  end.

Definition structEncoder (p : Product) : bytes :=
  match fields with
  | [] => lit "{}"
  | _ => encodeFields "{" fields p ++ ["}"]
  end.

(** [json.Marshal] on a [Product].  It reports an error for values of
    unsupported types, cyclic values and failing [Marshaler]s only; none
    can occur in a [Product], so the result is always the encoding. *)
Definition Marshal (p : Product) : bytes + error := inl (structEncoder p).

(** *** The scanner *)

Inductive opcode : Type :=
| scanContinue | scanBeginLiteral | scanBeginObject | scanObjectKey
| scanObjectValue | scanEndObject | scanBeginArray | scanArrayValue
| scanEndArray | scanSkipSpace
| scanEnd | scanError.

Inductive parseKind : Type :=
| parseObjectKey | parseObjectValue | parseArrayValue.

(** The step functions of the scanner, as tags. *)
Inductive stepFn : Type :=
| stBeginValue | stBeginValueOrEmpty | stBeginStringOrEmpty | stBeginString
| stEndValue | stEndTop
| stInString | stInStringEsc
| stInStringEscU | stInStringEscU1 | stInStringEscU12 | stInStringEscU123
| stNeg | st1 | st0 | stDot | stDot0 | stE | stESign | stE0
| stT | stTr | stTru | stF | stFa | stFal | stFals | stN | stNu | stNul
| stError.

(** The scanner.  [parseState] is the stack of open arrays and objects,
    innermost first. *)
Record scanner : Type := mkScanner {
  step : stepFn;
  endTop : bool;
  parseState : list parseKind;
  err : option error
}.

(** [scanner.reset]. *)
Definition reset : scanner := mkScanner stBeginValue false [] None.

Definition maxNestingDepth : Z := 10000.

Definition isSpace (c : byte) : bool :=
  byte_eqb c " " || (b2z c =? 9) || (b2z c =? 13) || (b2z c =? 10).

Definition setStep (s : scanner) (f : stepFn) : scanner :=
  mkScanner f (endTop s) (parseState s) (err s).

Definition setParseState (s : scanner) (ps : list parseKind) : scanner :=
  mkScanner (step s) (endTop s) ps (err s).

(** [scanner.error]: records a syntax error and kills the scanner. *)
Definition scanner_error (s : scanner) (c : byte) (context : string)
  : scanner * opcode :=
  (mkScanner stError (endTop s) (parseState s)
     (Some (SyntaxError c (lit context))), scanError).

Definition pushParseState (s : scanner) (c : byte) (newParseState : parseKind)
           (successState : opcode) : scanner * opcode :=
  let s' := setParseState s (newParseState :: parseState s) in
  if Z.of_nat (length (parseState s')) <=? maxNestingDepth then (s', successState)
  else scanner_error s' c "exceeded max depth".

Definition popParseState (s : scanner) : scanner :=
  match tl (parseState s) with
  | [] => mkScanner stEndTop true [] (err s)
  | ps => mkScanner stEndValue (endTop s) ps (err s)
  end.

Definition stateEndTop (s : scanner) (c : byte) : scanner * opcode :=
  if negb (isSpace c)
  then (fst (scanner_error s c "after top-level value"), scanEnd)
  else (s, scanEnd).

Definition stateEndValue (s : scanner) (c : byte) : scanner * opcode :=
  match parseState s with
  | [] => stateEndTop (mkScanner stEndTop true [] (err s)) c
  | ps :: rest =>
    if isSpace c then (setStep s stEndValue, scanSkipSpace)
    else
      match ps with
      | parseObjectKey =>
        if byte_eqb c ":" then
          (setStep (setParseState s (parseObjectValue :: rest)) stBeginValue,
           scanObjectKey)
        else scanner_error s c "after object key"
      | parseObjectValue =>
        if byte_eqb c "," then
          (setStep (setParseState s (parseObjectKey :: rest)) stBeginString,
           scanObjectValue)
        else if byte_eqb c "}" then (popParseState s, scanEndObject)
        else scanner_error s c "after object key:value pair"
      | parseArrayValue =>
        if byte_eqb c "," then (setStep s stBeginValue, scanArrayValue)
        else if byte_eqb c "]" then (popParseState s, scanEndArray)
        else scanner_error s c "after array element"
      end
  end.

Definition stateBeginValue (s : scanner) (c : byte) : scanner * opcode :=
  if isSpace c then (s, scanSkipSpace)
  else if byte_eqb c "{" then
    pushParseState (setStep s stBeginStringOrEmpty) c parseObjectKey scanBeginObject
  else if byte_eqb c "[" then
    pushParseState (setStep s stBeginValueOrEmpty) c parseArrayValue scanBeginArray
  else if byte_eqb c dq then (setStep s stInString, scanBeginLiteral)
  else if byte_eqb c "-" then (setStep s stNeg, scanBeginLiteral)
  else if byte_eqb c "0" then (setStep s st0, scanBeginLiteral)
  else if byte_eqb c "t" then (setStep s stT, scanBeginLiteral)
  else if byte_eqb c "f" then (setStep s stF, scanBeginLiteral)
  else if byte_eqb c "n" then (setStep s stN, scanBeginLiteral)
  else if between "1" c "9" then (setStep s st1, scanBeginLiteral)
  else scanner_error s c "looking for beginning of value".

Definition stateBeginValueOrEmpty (s : scanner) (c : byte) : scanner * opcode :=
  if isSpace c then (s, scanSkipSpace)
  else if byte_eqb c "]" then stateEndValue s c
  else stateBeginValue s c.

Definition stateBeginString (s : scanner) (c : byte) : scanner * opcode :=
  if isSpace c then (s, scanSkipSpace)
  else if byte_eqb c dq then (setStep s stInString, scanBeginLiteral)
  else scanner_error s c "looking for beginning of object key string".

Definition stateBeginStringOrEmpty (s : scanner) (c : byte) : scanner * opcode :=
  if isSpace c then (s, scanSkipSpace)
  else if byte_eqb c "}" then
    stateEndValue (setParseState s (parseObjectValue :: tl (parseState s))) c
  else stateBeginString s c.

Definition stateInString (s : scanner) (c : byte) : scanner * opcode :=
  if byte_eqb c dq then (setStep s stEndValue, scanContinue)
  else if byte_eqb c "\" then (setStep s stInStringEsc, scanContinue)
  else if b2z c <? 0x20 then scanner_error s c "in string literal"
  else (s, scanContinue).

Definition stateInStringEsc (s : scanner) (c : byte) : scanner * opcode :=
  if byte_eqb c "b" || byte_eqb c "f" || byte_eqb c "n" || byte_eqb c "r"
     || byte_eqb c "t" || byte_eqb c "\" || byte_eqb c "/" || byte_eqb c dq
  then (setStep s stInString, scanContinue)
  else if byte_eqb c "u" then (setStep s stInStringEscU, scanContinue)
  else scanner_error s c "in string escape code".

Definition isHex (c : byte) : bool :=
  between "0" c "9" || between "a" c "f" || between "A" c "F".

(** The four states after [\u]: a hexadecimal digit leads to [next]. *)
Definition stateInStringEscHex (next : stepFn) (s : scanner) (c : byte)
  : scanner * opcode :=
  if isHex c then (setStep s next, scanContinue)
  else scanner_error s c "in \u hexadecimal character escape".

Definition state0 (s : scanner) (c : byte) : scanner * opcode :=
  if byte_eqb c "." then (setStep s stDot, scanContinue)
  else if byte_eqb c "e" || byte_eqb c "E" then (setStep s stE, scanContinue)
  else stateEndValue s c.

Definition state1 (s : scanner) (c : byte) : scanner * opcode :=
  if between "0" c "9" then (setStep s st1, scanContinue)
  else state0 s c.

Definition stateNeg (s : scanner) (c : byte) : scanner * opcode :=
  if byte_eqb c "0" then (setStep s st0, scanContinue)
  else if between "1" c "9" then (setStep s st1, scanContinue)
  else scanner_error s c "in numeric literal".

Definition stateDot (s : scanner) (c : byte) : scanner * opcode :=
  if between "0" c "9" then (setStep s stDot0, scanContinue)
  else scanner_error s c "after decimal point in numeric literal".

Definition stateDot0 (s : scanner) (c : byte) : scanner * opcode :=
  if between "0" c "9" then (s, scanContinue)
  else if byte_eqb c "e" || byte_eqb c "E" then (setStep s stE, scanContinue)
  else stateEndValue s c.

Definition stateESign (s : scanner) (c : byte) : scanner * opcode :=
  if between "0" c "9" then (setStep s stE0, scanContinue)
  else scanner_error s c "in exponent of numeric literal".

Definition stateE (s : scanner) (c : byte) : scanner * opcode :=
  if byte_eqb c "+" || byte_eqb c "-" then (setStep s stESign, scanContinue)
  else stateESign s c.

Definition stateE0 (s : scanner) (c : byte) : scanner * opcode :=
  if between "0" c "9" then (s, scanContinue)
  else stateEndValue s c.

(** The states inside [true], [false] and [null]: the byte [want] leads to
    [next]. *)
Definition stateInWord (want : byte) (next : stepFn) (context : string)
           (s : scanner) (c : byte) : scanner * opcode :=
  if byte_eqb c want then (setStep s next, scanContinue)
  else scanner_error s c context.

(** The call [s.step(s, c)]. *)
Definition scan (s : scanner) (c : byte) : scanner * opcode :=
  match step s with
  | stBeginValue => stateBeginValue s c
  | stBeginValueOrEmpty => stateBeginValueOrEmpty s c
  | stBeginStringOrEmpty => stateBeginStringOrEmpty s c
  | stBeginString => stateBeginString s c
  | stEndValue => stateEndValue s c
  | stEndTop => stateEndTop s c
  | stInString => stateInString s c
  | stInStringEsc => stateInStringEsc s c
  | stInStringEscU => stateInStringEscHex stInStringEscU1 s c
  | stInStringEscU1 => stateInStringEscHex stInStringEscU12 s c
  | stInStringEscU12 => stateInStringEscHex stInStringEscU123 s c
  | stInStringEscU123 => stateInStringEscHex stInString s c
  | stNeg => stateNeg s c
  | st1 => state1 s c
  | st0 => state0 s c
  | stDot => stateDot s c
  | stDot0 => stateDot0 s c
  | stE => stateE s c
  | stESign => stateESign s c
  | stE0 => stateE0 s c
  | stT => stateInWord "r" stTr "in literal true (expecting 'r')" s c
  | stTr => stateInWord "u" stTru "in literal true (expecting 'u')" s c
  | stTru => stateInWord "e" stEndValue "in literal true (expecting 'e')" s c
  | stF => stateInWord "a" stFa "in literal false (expecting 'a')" s c
  | stFa => stateInWord "l" stFal "in literal false (expecting 'l')" s c
  | stFal => stateInWord "s" stFals "in literal false (expecting 's')" s c
  | stFals => stateInWord "e" stEndValue "in literal false (expecting 'e')" s c
  | stN => stateInWord "u" stNu "in literal null (expecting 'u')" s c
  | stNu => stateInWord "l" stNul "in literal null (expecting 'l')" s c
  | stNul => stateInWord "l" stEndValue "in literal null (expecting 'l')" s c
  | stError => (s, scanError)
  end.

(** *** Reading one value from a stream *)

(** An [io.Reader] that delivers [content] and then reports [readErr];
    [None] stands for [io.EOF]. *)
Record Reader : Type := mkReader {
  content : bytes;
  readErr : option error
}.

Definition opcode_eqb (a b : opcode) : bool :=
  match a, b with
  | scanContinue, scanContinue | scanBeginLiteral, scanBeginLiteral
  | scanBeginObject, scanBeginObject | scanObjectKey, scanObjectKey
  | scanObjectValue, scanObjectValue | scanEndObject, scanEndObject
  | scanBeginArray, scanBeginArray | scanArrayValue, scanArrayValue
  | scanEndArray, scanEndArray | scanSkipSpace, scanSkipSpace
  | scanEnd, scanEnd | scanError, scanError => true
  | _, _ => false
  end.

Definition nonSpace (b : bytes) : bool :=
  existsb (fun c => negb (isSpace c)) b.

(** The loop of [Decoder.readValue].  [rest] is the part of the buffer
    [buf] still to be scanned and [scanp] the number of bytes scanned.  The
    end of a value is reported one byte late, so after a closing bracket
    the decoder feeds an invented space.  When the stream is exhausted by
    [io.EOF], a last space decides whether a value is complete.  The
    result is the length of the value and the error, as in the source. *)
Fixpoint readValueFrom (buf : bytes) (rerr : option error) (s : scanner)
         (rest : bytes) (scanp : nat) : nat * option error :=
  match rest with
  | c :: t =>
    let '(s', op) := scan s c in
    match op with
    | scanEnd => (scanp, None)
    | scanEndObject | scanEndArray =>
      let '(s'', op') := stateEndValue s' " " in
      if opcode_eqb op' scanEnd then (S scanp, None)
      else readValueFrom buf rerr s'' t (S scanp)
    | scanError => (0%nat, err s')
    | _ => readValueFrom buf rerr s' t (S scanp)
    end
  | [] =>
    match rerr with
    | None =>
      if opcode_eqb (snd (scan s " ")) scanEnd then (scanp, None)
      else if nonSpace buf then (0%nat, Some io_ErrUnexpectedEOF)
      else (0%nat, Some io_EOF)
    | Some e => (0%nat, Some e)
    end
  end.

Definition readValue (r : Reader) : nat * option error :=
  readValueFrom (content r) (readErr r) reset (content r) 0.

(** *** The structure of a scanned value

    The decoder walks the bytes of the value that [readValue] delimited,
    driven by the opcodes of the same scanner.  The walk is modelled in two
    steps: the opcodes delimit the literals, arrays and objects of the
    value, and the result is then stored into the [Product].  A literal is
    kept as its bytes, first byte apart (a literal is never empty); the key
    of a member is kept as the bytes of its string literal. *)

Inductive value : Type :=
| Literal (c : byte) (rest : bytes)
| Array (elems : list value)
| Object (members : list (bytes * value)).

Inductive frame : Type :=
| inArray (elems : list value)
| inObject (members : list (bytes * value)) (key : option bytes).

Record builder : Type := mkBuilder {
  item : option (byte * bytes);
  stack : list frame;
  top : option value
}.

Definition newBuilder : builder := mkBuilder None [] None.

(** A complete value goes to the innermost open array or object, where it
    is an element, a key or the value of the pending key. *)
Definition deliver (v : value) (b : builder) : option builder :=
  match stack b with
  | [] => Some (mkBuilder (item b) [] (Some v))
  | inArray vs :: st => Some (mkBuilder (item b) (inArray (v :: vs) :: st) (top b))
  | inObject ms None :: st =>
    match v with
    | Literal c rest =>
      Some (mkBuilder (item b) (inObject ms (Some (c :: rest)) :: st) (top b))
    | _ => None
    end
  | inObject ms (Some k) :: st =>
    Some (mkBuilder (item b) (inObject ((k, v) :: ms) None :: st) (top b))
  end.

(** The end of the literal being read, if any. *)
Definition closeItem (b : builder) : option builder :=
  match item b with
  | None => Some b
  | Some (c, rest) => deliver (Literal c rest) (mkBuilder None (stack b) (top b))
  end.

Definition push (f : frame) (b : builder) : builder :=
  mkBuilder (item b) (f :: stack b) (top b).

(** One byte and its opcode.  [None]: the opcodes do not fit the value
    under construction, where the library panics with "JSON decoder out of
    sync". *)
Definition feed (b : builder) (c : byte) (op : opcode) : option builder :=
  match op with
  | scanContinue =>
    match item b with
    | Some (c0, rest) => Some (mkBuilder (Some (c0, rest ++ [c])) (stack b) (top b))
    | None => None
    end
  | scanBeginLiteral =>
    match closeItem b with
    | Some b' => Some (mkBuilder (Some (c, [])) (stack b') (top b'))
    | None => None
    end
  | scanSkipSpace | scanObjectKey | scanObjectValue | scanArrayValue =>
    closeItem b
  | scanBeginObject => option_map (push (inObject [] None)) (closeItem b)
  | scanBeginArray => option_map (push (inArray [])) (closeItem b)
  | scanEndObject =>
    match closeItem b with
    | Some b' =>
      match stack b' with
      | inObject ms None :: st =>
        deliver (Object (rev ms)) (mkBuilder None st (top b'))
      | _ => None
      end
    | None => None
    end
  | scanEndArray =>
    match closeItem b with
    | Some b' =>
      match stack b' with
      | inArray vs :: st =>
        deliver (Array (rev vs)) (mkBuilder None st (top b'))
      | _ => None
      end
    | None => None
    end
  | scanEnd | scanError => None
  end.

Fixpoint build (s : scanner) (b : builder) (data : bytes) : option builder :=
  match data with
  | [] => closeItem b
  | c :: t =>
    let '(s', op) := scan s c in
    match feed b c op with
    | Some b' => build s' b' t
    | None => None
    end
  end.

(** The value that the bytes [data] hold. *)
Definition valueOf (data : bytes) : option value :=
  match build reset newBuilder data with
  | Some b =>
    match stack b with
    | [] => top b
    | _ => None
    end
  | None => None
  end.

(** *** Unquoting a string literal *)

(** [getu4 s]: the rune of the escape [\uXXXX] at the start of [s], or -1. *)
Definition hexVal (c : byte) : option Z :=
  if between "0" c "9" then Some (b2z c - 48)
  else if between "a" c "f" then Some (b2z c - 97 + 10)
  else if between "A" c "F" then Some (b2z c - 65 + 10)
  else None.

Definition getu4 (s : bytes) : Z :=
  match s with
  | b0 :: b1 :: h1 :: h2 :: h3 :: h4 :: _ =>
    if byte_eqb b0 "\" && byte_eqb b1 "u" then
      match hexVal h1, hexVal h2, hexVal h3, hexVal h4 with
      | Some d1, Some d2, Some d3, Some d4 =>
        ((d1 * 16 + d2) * 16 + d3) * 16 + d4
      | _, _, _, _ => -1
      end
    else -1
  | _ => -1
  end.

(** [utf16.IsSurrogate] and [utf16.DecodeRune]. *)
Definition IsSurrogate (r : Z) : bool := (0xD800 <=? r) && (r <? 0xE000).

Definition utf16_DecodeRune (r1 r2 : Z) : Z :=
  if (0xD800 <=? r1) && (r1 <? 0xDC00) && (0xDC00 <=? r2) && (r2 <? 0xE000)
  then (r1 - 0xD800) * 1024 + (r2 - 0xDC00) + 0x10000
  else utf8.RuneError.

(** The loop of [unquoteBytes] over the bytes between the quotes: escapes
    are decoded, a pair of surrogate escapes gives one rune, and all other
    text is coerced to well-formed UTF-8.  [skip] counts the bytes that the
    index still steps over.  [None] is the result [ok == false]. *)
Fixpoint unquoteFrom (skip : nat) (s : bytes) : option bytes :=
  match s with
  | [] => Some []
  | c :: t =>
    match skip with
    | S k => unquoteFrom k t
    | O =>
      if byte_eqb c "\" then
        match t with
        | [] => None
        | e :: _ =>
          if byte_eqb e dq || byte_eqb e "\" || byte_eqb e "/" || byte_eqb e "'"
          then option_map (cons e) (unquoteFrom 1 t)
          else if byte_eqb e "b" then option_map (cons (z2b 8)) (unquoteFrom 1 t)
          else if byte_eqb e "f" then option_map (cons (z2b 12)) (unquoteFrom 1 t)
          else if byte_eqb e "n" then option_map (cons (z2b 10)) (unquoteFrom 1 t)
          else if byte_eqb e "r" then option_map (cons (z2b 13)) (unquoteFrom 1 t)
          else if byte_eqb e "t" then option_map (cons (z2b 9)) (unquoteFrom 1 t)
          else if byte_eqb e "u" then
            let rr := getu4 s in
            if rr <? 0 then None
            else if IsSurrogate rr then
              let dec := utf16_DecodeRune rr (getu4 (skipn 6 s)) in
              if negb (dec =? utf8.RuneError)
              then option_map (app (utf8.EncodeRune dec)) (unquoteFrom 11 t)
              else option_map (app (utf8.EncodeRune utf8.RuneError))
                              (unquoteFrom 5 t)
            else option_map (app (utf8.EncodeRune rr)) (unquoteFrom 5 t)
          else None
        end
      else if byte_eqb c dq || (b2z c <? 0x20) then None
      else if b2z c <? utf8.RuneSelf then option_map (cons c) (unquoteFrom 0 t)
      else
        let '(rr, size) := utf8.DecodeRune s in
        option_map (app (utf8.EncodeRune rr)) (unquoteFrom (size - 1) t)
    end
  end.

(** [unquoteBytes item]: the text of the quoted string literal [item]. *)
Definition unquoteBytes (s : bytes) : option bytes :=
  match s with
  | q :: t =>
    if (length s <? 2)%nat || negb (byte_eqb q dq)
       || negb (byte_eqb (last s "0") dq)
    then None
    else unquoteFrom 0 (removelast t)
  | [] => None
  end.

(** *** Finding the field of a key *)

(** [foldRune r]: the least rune that is equal to [r] under simple case
    folding.  Among the orbits of the Unicode tables only those of [K]
    (with the Kelvin sign U+212A) and of [S] (with the long s U+017F)
    join ASCII and non-ASCII runes; these two are written out.  Any other
    non-ASCII rune folds to a non-ASCII rune, which no folded field name
    of [Product] contains, and is left as it is. *)
Definition foldRune (r : Z) : Z :=
  if r =? 0x212A then 0x4B
  else if r =? 0x17F then 0x53
  else r.

(** [foldName]: ASCII letters in upper case, other runes by [foldRune]. *)
Fixpoint foldNameFrom (skip : nat) (s : bytes) : bytes :=
  match s with
  | [] => []
  | c :: t =>
    match skip with
    | S k => foldNameFrom k t
    | O =>
      if b2z c <? utf8.RuneSelf then
        (if between "a" c "z" then z2b (b2z c - 32) else c) :: foldNameFrom 0 t
      else
        let '(r, n) := utf8.DecodeRune s in
        utf8.EncodeRune (foldRune r) ++ foldNameFrom (n - 1) t
    end
  end.

Definition foldName (s : bytes) : bytes := foldNameFrom 0 s.

(** The field that a key of the input selects: the field of that exact
    name, or else the field whose name is equal to the key under case
    folding. *)
Definition lookupField (key : bytes) : option field :=
  match find (fun f => bytes_eqb (fieldName f) key) fields with
  | Some f => Some f
  | None =>
    find (fun f => bytes_eqb (foldName (fieldName f)) (foldName key)) fields
  end.

(** *** Storing a value into a [Product] *)

Definition setString (f : field) (s : bytes) (p : Product) : Product :=
  match f with
  | fTitle => mkProduct s (Description p) (Price p) (Brand p) (Category p)
  | fDescription => mkProduct (Title p) s (Price p) (Brand p) (Category p)
  | fPrice => p
  | fBrand => mkProduct (Title p) (Description p) (Price p) s (Category p)
  | fCategory => mkProduct (Title p) (Description p) (Price p) (Brand p) s
  end.

Definition setInt (n : Z) (p : Product) : Product :=
  mkProduct (Title p) (Description p) n (Brand p) (Category p).

(** The error for a JSON value that does not fit the type of field [f],
    with the context that [addErrorContext] records. *)
Definition fieldTypeError (Value : bytes) (f : field) : error :=
  UnmarshalTypeError Value (fieldType f) (lit "Product") (fieldName f).

(** The same for the [Product] itself. *)
Definition topTypeError (Value : bytes) : error :=
  UnmarshalTypeError Value (lit "product.Product") [] [].

(** [saveError]: the first error is kept. *)
Definition saveError (saved new : option error) : option error :=
  match saved with
  | Some e => Some e
  | None => new
  end.

(** [literalStore] into the field [f].  The result is the updated value
    and the error to save; [None] is a panic of the library. *)
Definition literalStore (c : byte) (rest : bytes) (f : field) (p : Product)
  : option (Product * option error) :=
  if byte_eqb c "n" then Some (p, None)
  else if byte_eqb c "t" || byte_eqb c "f" then
    Some (p, Some (fieldTypeError (lit "bool") f))
  else if byte_eqb c dq then
    match unquoteBytes (c :: rest) with
    | None => None
    | Some s =>
      match f with
      | fPrice => Some (p, Some (fieldTypeError (lit "string") f))
      | _ => Some (setString f s p, None)
      end
    end
  else if negb (byte_eqb c "-") && negb (between "0" c "9") then None
  else
    match f with
    | fPrice =>
      match strconv.ParseInt (c :: rest) with
      | Some n => Some (setInt n p, None)
      | None => Some (p, Some (fieldTypeError (lit "number " ++ c :: rest) f))
      end
    | _ => Some (p, Some (fieldTypeError (lit "number") f))
    end.

(** [d.value] into a field. *)
Definition storeField (v : value) (f : field) (p : Product)
  : option (Product * option error) :=
  match v with
  | Literal c rest => literalStore c rest f p
  | Array _ => Some (p, Some (fieldTypeError (lit "array") f))
  | Object _ => Some (p, Some (fieldTypeError (lit "object") f))
  end.

(** [d.object] into the struct: the members in input order; the value of
    a key that selects no field is skipped. *)
Fixpoint object (members : list (bytes * value)) (p : Product)
         (saved : option error) : option (Product * option error) :=
  match members with
  | [] => Some (p, saved)
  | (k, v) :: ms =>
    match unquoteBytes k with
    | None => None
    | Some key =>
      match lookupField key with
      | None => object ms p saved
      | Some f =>
        match storeField v f p with
        | None => None
        | Some (p', e) => object ms p' (saveError saved e)
        end
      end
    end
  end.

(** [d.unmarshal]: [d.value] into the [Product], then the saved error. *)
Definition unmarshal (v : value) (p : Product)
  : option (Product * option error) :=
  match v with
  | Object members => object members p None
  | Array _ => Some (p, Some (topTypeError (lit "array")))
  | Literal c rest =>
    if byte_eqb c "n" then Some (p, None)
    else if byte_eqb c "t" || byte_eqb c "f" then
      Some (p, Some (topTypeError (lit "bool")))
    else if byte_eqb c dq then
      match unquoteBytes (c :: rest) with
      | None => None
      | Some _ => Some (p, Some (topTypeError (lit "string")))
      end
    else if negb (byte_eqb c "-") && negb (between "0" c "9") then None
    else Some (p, Some (topTypeError (lit "number")))
  end.

(** [NewDecoder(r).Decode(&v)]: the first value of the stream is delimited
    by [readValue] and unmarshalled into [v].  The result is the value of
    [v] after the call and the error returned; [None] is a panic. *)
Definition Decode (r : Reader) (v : Product)
  : option (Product * option error) :=
  let '(n, e) := readValue r in
  match e with
  | Some e => Some (v, Some e)
  | None =>
    match valueOf (firstn n (content r)) with
    | Some val => unmarshal val v
    | None => None
    end
  end.

End json.

(** ** Package net/http: requests, responses and the client *)

Module http.

Definition MethodPost : bytes := lit "POST".
Definition StatusOK : Z := 200.
Definition StatusCreated : Z := 201.

(** A [Header] maps a key to its values. *)
Definition Header : Type := list (bytes * list bytes).

(** [Header.Set key value] replaces the values of [key] by [value].  The
    key is put into canonical MIME form first; the only key the program
    sets, Content-Type, is canonical already. *)
Fixpoint Header_Set (h : Header) (key value : bytes) : Header :=
  match h with
  | [] => [(key, [value])]
  | (k, vs) :: h' =>
    if bytes_eqb k key then (key, [value]) :: h'
    else (k, vs) :: Header_Set h' key value
  end.

(** [Header.Get key]: the first value of [key], or the empty string. *)
Fixpoint Header_Get (h : Header) (key : bytes) : bytes :=
  match h with
  | [] => []
  | (k, vs) :: h' => if bytes_eqb k key then hd [] vs else Header_Get h' key
  end.

(** A client request, as far as the program fills it in.  [URL] is the
    address the request was built for. *)
Record Request : Type := mkRequest {
  Method : bytes;
  URL : bytes;
  header : Header;
  reqBody : bytes
}.

Record Response : Type := mkResponse {
  StatusCode : Z;
  Body : json.Reader
}.

(** An HTTP client is the capability to send a request: [Do] returns a
    response or an error.  Redirects, connection handling and the
    transport are all inside it. *)
Record Client : Type := mkClient {
  Do : Request -> Response + error
}.

Section NewRequest.

Variable Quote : bytes -> bytes.

(** The checks of [url.Parse] that follow its control character check (the
    scheme, the authority, escapes, the fragment), applied to the raw URL:
    [None] when the URL is accepted.  They are a parameter. *)
Variable parseRest : bytes -> option error.

(** The token characters of RFC 7230, which a method consists of. *)
Definition isToken (b : byte) : bool :=
  between "a" b "z" || between "A" b "Z" || between "0" b "9"
  || existsb (byte_eqb b) (lit "!#$%&'*+-.^_`|~").

Definition validMethod (method : bytes) : bool :=
  negb (length method =? 0)%nat && forallb isToken method.

Definition stringContainsCTLByte (s : bytes) : bool :=
  existsb (fun b => (b2z b <? 0x20) || (b2z b =? 0x7f)) s.

(** The part of [s] before the first [#]. *)
Fixpoint beforeHash (s : bytes) : bytes :=
  match s with
  | [] => []
  | c :: t => if byte_eqb c "#" then [] else c :: beforeHash t
  end.

(** [url.Parse]: the fragment is cut off, and a control character in what
    is left is an error. *)
Definition url_Parse (rawURL : bytes) : option error :=
  let u := beforeHash rawURL in
  if stringContainsCTLByte u then
    Some (urlError (lit "parse") u
            (errorString (lit "net/url: invalid control character in URL")))
  else parseRest rawURL.

(** [http.NewRequest method url body], with a body held in memory. *)
Definition NewRequest (method url body : bytes) : Request + error :=
  let method := if (length method =? 0)%nat then lit "GET" else method in
  if negb (validMethod method) then
    inr (errorString (lit "net/http: invalid method " ++ Quote method))
  else
    match url_Parse url with
    | Some e => inr e
    | None => inl (mkRequest method url [] body)
    end.

End NewRequest.

End http.

(** ** Package product (product/service_impl.go) *)

(** MarshalFunc is a function type for JSON marshaling. *)
Definition MarshalFunc : Type := Product -> bytes + error.

(** Default marshal function that uses the standard json.Marshal. *)
Definition DefaultMarshal : MarshalFunc := json.Marshal.

(** The service.  [client] is a pointer and [marshal] a function value;
    both can be nil. *)
Record productService : Type := mkService {
  apiURL : bytes;
  client : option http.Client;
  marshal : option MarshalFunc
}.

(** NewProductService creates a new productService with default
    configuration. *)
Definition NewProductService (apiURL : bytes) (client : option http.Client)
  : productService :=
  mkService apiURL client (Some DefaultMarshal).

(** What a call of AddProduct does to its surroundings: it hands a request
    to the client and it closes the body of the response. *)
Inductive event : Type :=
| evDo (req : http.Request)
| evClose.

(** A call returns a [Product] and an error ([None] is nil), or panics. *)
Inductive outcome : Type :=
| Returns (p : Product) (e : option error)
| Panics.

(** The result of running a method on a service: the outcome, the service
    after the call (the receiver is a pointer) and the events in order. *)
Record run : Type := mkRun {
  out : outcome;
  after : productService;
  trace : list event
}.

Section AddProduct.

Variable Quote : bytes -> bytes.
Variable parseRest : bytes -> option error.

(** [AddProduct], statement by statement.  The argument [p] is passed by
    value.  A nil client panics when it is used.  The deferred [Close]
    runs on every exit after the response has arrived. *)
Definition AddProduct (s : productService) (p : Product) : run :=
  match json.Marshal p with
  | inr err =>
    mkRun (Returns zeroProduct
             (Some (Errorf_w Quote (lit "failed to marshal product: ") err)))
          s []
  | inl body =>
    match http.NewRequest Quote parseRest http.MethodPost (apiURL s) body with
    | inr err =>
      mkRun (Returns zeroProduct
               (Some (Errorf_w Quote (lit "failed to create request: ") err)))
            s []
    | inl req =>
      let req :=
        http.mkRequest (http.Method req) (http.URL req)
          (http.Header_Set (http.header req) (lit "Content-Type")
             (lit "application/json"))
          (http.reqBody req) in
      match client s with
      | None => mkRun Panics s []
      | Some c =>
        match http.Do c req with
        | inr err =>
          mkRun (Returns zeroProduct
                   (Some (Errorf_w Quote (lit "failed to send request: ") err)))
                s [evDo req]
        | inl resp =>
          if negb (http.StatusCode resp =? http.StatusOK)
             && negb (http.StatusCode resp =? http.StatusCreated)
          then
            mkRun (Returns zeroProduct
                     (Some (Errorf_d (lit "unexpected status code: ")
                              (http.StatusCode resp))))
                  s [evDo req; evClose]
          else
            let result := zeroProduct in
            match json.Decode (http.Body resp) result with
            | None => mkRun Panics s [evDo req; evClose]
            | Some (result, Some err) =>
              mkRun (Returns zeroProduct
                       (Some (Errorf_w Quote (lit "failed to decode response: ")
                                err)))
                    s [evDo req; evClose]
            | Some (result, None) =>
              mkRun (Returns result None) s [evDo req; evClose]
            end
        end
      end
    end
  end.

End AddProduct.

(** ** The test double of product/service_impl_test.go

    [testProductService] is the copy of the service that the tests use for
    the marshalling failure: its AddProduct is the same code, except that
    it serialises with the injected marshaler. *)

Record testProductService : Type := mkTestService {
  t_apiURL : bytes;
  t_client : option http.Client;
  marshaler : MarshalFunc
}.

(** [mockJSONMarshaler.Marshal]. *)
Definition mockJSONMarshaler : MarshalFunc :=
  fun _ => inr (errorString (lit "marshal error")).

Section TestAddProduct.

Variable Quote : bytes -> bytes.
Variable parseRest : bytes -> option error.

(** Custom AddProduct implementation that uses the injected marshaler. *)
Definition testAddProduct (s : testProductService) (p : Product) : outcome :=
  match marshaler s p with
  | inr err =>
    Returns zeroProduct
      (Some (Errorf_w Quote (lit "failed to marshal product: ") err))
  | inl body =>
    match http.NewRequest Quote parseRest http.MethodPost (t_apiURL s) body with
    | inr err =>
      Returns zeroProduct
        (Some (Errorf_w Quote (lit "failed to create request: ") err))
    | inl req =>
      let req :=
        http.mkRequest (http.Method req) (http.URL req)
          (http.Header_Set (http.header req) (lit "Content-Type")
             (lit "application/json"))
          (http.reqBody req) in
      match t_client s with
      | None => Panics
      | Some c =>
        match http.Do c req with
        | inr err =>
          Returns zeroProduct
            (Some (Errorf_w Quote (lit "failed to send request: ") err))
        | inl resp =>
          if negb (http.StatusCode resp =? http.StatusOK)
             && negb (http.StatusCode resp =? http.StatusCreated)
          then
            Returns zeroProduct
              (Some (Errorf_d (lit "unexpected status code: ")
                       (http.StatusCode resp)))
          else
            match json.Decode (http.Body resp) zeroProduct with
            | None => Panics
            | Some (result, Some err) =>
              Returns zeroProduct
                (Some (Errorf_w Quote (lit "failed to decode response: ") err))
            | Some (result, None) => Returns result None
            end
        end
      end
    end
  end.

End TestAddProduct.

(** ** The paths through AddProduct

    The vocabulary in which the properties below are stated. *)

Section Paths.

Variable Quote : bytes -> bytes.
Variable parseRest : bytes -> option error.

(** The request that AddProduct hands to the client. *)
Definition requestOf (s : productService) (p : Product) : http.Request :=
  http.mkRequest http.MethodPost (apiURL s)
    [(lit "Content-Type", [lit "application/json"])]
    (json.structEncoder p).

(** The exits of AddProduct, each with the condition that selects it. *)
Inductive path (s : productService) (p : Product) : run -> Prop :=
| path_request err :
    http.url_Parse parseRest (apiURL s) = Some err ->
    path s p (mkRun (Returns zeroProduct
                       (Some (Errorf_w Quote (lit "failed to create request: ") err)))
                    s [])
| path_nil :
    http.url_Parse parseRest (apiURL s) = None ->
    client s = None ->
    path s p (mkRun Panics s [])
| path_send c err :
    http.url_Parse parseRest (apiURL s) = None ->
    client s = Some c ->
    http.Do c (requestOf s p) = inr err ->
    path s p (mkRun (Returns zeroProduct
                       (Some (Errorf_w Quote (lit "failed to send request: ") err)))
                    s [evDo (requestOf s p)])
| path_status c resp :
    http.url_Parse parseRest (apiURL s) = None ->
    client s = Some c ->
    http.Do c (requestOf s p) = inl resp ->
    http.StatusCode resp <> 200 -> http.StatusCode resp <> 201 ->
    path s p (mkRun (Returns zeroProduct
                       (Some (Errorf_d (lit "unexpected status code: ")
                                (http.StatusCode resp))))
                    s [evDo (requestOf s p); evClose])
| path_panic c resp :
    http.url_Parse parseRest (apiURL s) = None ->
    client s = Some c ->
    http.Do c (requestOf s p) = inl resp ->
    http.StatusCode resp = 200 \/ http.StatusCode resp = 201 ->
    json.Decode (http.Body resp) zeroProduct = None ->
    path s p (mkRun Panics s [evDo (requestOf s p); evClose])
| path_decode c resp result err :
    http.url_Parse parseRest (apiURL s) = None ->
    client s = Some c ->
    http.Do c (requestOf s p) = inl resp ->
    http.StatusCode resp = 200 \/ http.StatusCode resp = 201 ->
    json.Decode (http.Body resp) zeroProduct = Some (result, Some err) ->
    path s p (mkRun (Returns zeroProduct
                       (Some (Errorf_w Quote (lit "failed to decode response: ") err)))
                    s [evDo (requestOf s p); evClose])
| path_ok c resp result :
    http.url_Parse parseRest (apiURL s) = None ->
    client s = Some c ->
    http.Do c (requestOf s p) = inl resp ->
    http.StatusCode resp = 200 \/ http.StatusCode resp = 201 ->
    json.Decode (http.Body resp) zeroProduct = Some (result, None) ->
    path s p (mkRun (Returns result None) s [evDo (requestOf s p); evClose]).

End Paths.

(** ** Vocabulary for the library model *)

(** The bytes at the start of [p] are the well-formed multi-byte encoding
    of the rune [r], of width [size]. *)
Definition wellFormedAt (p : bytes) (r : Z) (size : nat) : Prop :=
  (2 <= size <= 4)%nat /\ (size <= length p)%nat
  /\ utf8.EncodeRune r = firstn size p
  /\ Forall (fun b => 0x80 <= b2z b) (firstn size p)
  /\ 0x80 <= r <= utf8.MaxRune.

(** The steps of the scanner inside a literal, and the step after one. *)
Definition litState (st : json.stepFn) : bool :=
  match st with
  | json.stBeginValue | json.stBeginValueOrEmpty | json.stBeginStringOrEmpty
  | json.stBeginString | json.stEndTop | json.stError => false
  | _ => true
  end.

(** What one step of the scanner does to the stack of open containers,
    by opcode. *)
Definition scanEffect (s s' : json.scanner) (op : json.opcode) : Prop :=
  match op with
  | json.scanContinue =>
    json.parseState s' = json.parseState s
    /\ litState (json.step s) = true /\ litState (json.step s') = true
  | json.scanBeginLiteral =>
    json.parseState s' = json.parseState s
    /\ litState (json.step s) = false /\ litState (json.step s') = true
  | json.scanBeginObject | json.scanBeginArray =>
    length (json.parseState s') = S (length (json.parseState s))
    /\ litState (json.step s) = false
  | json.scanSkipSpace =>
    json.parseState s' = json.parseState s
    /\ (litState (json.step s) = true -> json.parseState s <> [])
  | json.scanObjectKey | json.scanObjectValue | json.scanArrayValue =>
    length (json.parseState s') = length (json.parseState s)
    /\ json.parseState s <> []
  | json.scanEndObject | json.scanEndArray =>
    json.parseState s' = tl (json.parseState s)
    /\ (litState (json.step s) = true -> json.parseState s <> [])
    /\ json.step s' =
       match json.parseState s' with [] => json.stEndTop | _ => json.stEndValue end
  | json.scanEnd | json.scanError => True
  end.

(** The scanner and the builder agree on the depth of nesting, and a
    literal is open only while the scanner is inside one. *)
Definition Inv (s : json.scanner) (b : json.builder) : Prop :=
  length (json.parseState s) = length (json.stack b)
  /\ (json.item b <> None -> litState (json.step s) = true).

(** Running the scanner and the builder over a part of a value. *)
Fixpoint scanRun (s : json.scanner) (b : json.builder) (data : bytes)
  : option (json.scanner * json.builder) :=
  match data with
  | [] => Some (s, b)
  | c :: t =>
    let '(s', op) := json.scan s c in
    match json.feed b c op with
    | Some b' => scanRun s' b' t
    | None => None
    end
  end.

(** The step of the scanner inside a literal, on the step tags alone. *)
Definition litStep (st : json.stepFn) (c : byte) : option json.stepFn :=
  match json.scan (json.mkScanner st false [] None) c with
  | (s', json.scanContinue) => Some (json.step s')
  | _ => None
  end.

Fixpoint litRun (st : json.stepFn) (l : bytes) : option json.stepFn :=
  match l with
  | [] => Some st
  | c :: t =>
    match litStep st c with
    | Some st' => litRun st' t
    | None => None
    end
  end.

(** [l] is text that the scanner accepts inside a string literal, leaving
    it inside the literal. *)
Definition stringText (l : bytes) : Prop :=
  litRun json.stInString l = Some json.stInString.

Definition isInString (o : option json.stepFn) : bool :=
  match o with
  | Some json.stInString => true
  | _ => false
  end.

(** All byte values, for properties of single bytes that are checked by
    enumeration. *)
Definition allBytes : bytes := map ascii_of_nat (seq 0 256).

(** [isDecimal u l]: [l] is the decimal numeral of [u >= 0], without
    leading zeros. *)
Inductive isDecimal : Z -> bytes -> Prop :=
| dec_one u : 0 <= u < 10 -> isDecimal u [strconv.digit u]
| dec_more u l :
    10 <= u -> isDecimal (u / 10) l ->
    isDecimal u (l ++ [strconv.digit (u mod 10)]).

(** The step of the scanner at the first byte of a literal. *)
Definition beginStep (c : byte) : option json.stepFn :=
  match json.scan (json.mkScanner json.stBeginValue false [] None) c with
  | (s', json.scanBeginLiteral) => Some (json.step s')
  | _ => None
  end.

(** The quoted form of a key, and the literal that bytes make up. *)
Definition quoted (name : bytes) : bytes := dq :: name ++ [dq].

Definition literalOf (l : bytes) : json.value :=
  json.Literal (hd "0" l) (tl l).

(** The member that [Marshal] writes for a field. *)
Definition memberOf (p : Product) (f : field) : bytes * json.value :=
  (quoted (fieldName f), literalOf (json.encodeValue p f)).

(** The steps in which the scanner can be when a value is complete. *)
Definition afterValue (st : json.stepFn) : Prop :=
  st = json.stEndValue \/ st = json.st0 \/ st = json.st1.

(** The steps in which the scanner accepts the start of a string. *)
Definition beforeString (st : json.stepFn) : Prop :=
  st = json.stBeginString \/ st = json.stBeginStringOrEmpty
  \/ st = json.stBeginValue.

(** A Product that a Go program can hold and whose strings are valid
    UTF-8. *)
Definition validProduct (p : Product) : Prop :=
  utf8.ValidString (Title p) = true
  /\ utf8.ValidString (Description p) = true
  /\ isInt (Price p)
  /\ utf8.ValidString (Brand p) = true
  /\ utf8.ValidString (Category p) = true.

(** The field that the key of a member selects, the key being given as
    the bytes of its string literal. *)
Definition selects (k : bytes) : option field :=
  match json.unquoteBytes k with
  | Some key => json.lookupField key
  | None => None
  end.

(** A member that the decoder does not skip: its key selects a field (or
    cannot be unquoted, which the scanner excludes). *)
Definition selected (m : bytes * json.value) : bool :=
  match json.unquoteBytes (fst m) with
  | Some key =>
    match json.lookupField key with
    | Some _ => true
    | None => false
    end
  | None => true
  end.

(** The value of a field of a Product. *)
Definition fieldValue (f : field) (p : Product) : bytes + Z :=
  match f with
  | fTitle => inl (Title p)
  | fDescription => inl (Description p)
  | fPrice => inr (Price p)
  | fBrand => inl (Brand p)
  | fCategory => inl (Category p)
  end.

(** ** Sample inputs

    Concrete parameters, services, Products and bodies for the closed
    instances of the properties. *)

Definition sampleQuote : bytes -> bytes := fun s => dq :: s ++ [dq].
Definition acceptURL : bytes -> option error := fun _ => None.

Definition sampleProduct : Product :=
  mkProduct (lit "Test Product") (lit "This is a test product") 1999
            (lit "Test Brand") (lit "Test Category").

(** A client that answers every request with the given status and body. *)
Definition cannedClient (code : Z) (body : bytes) : http.Client :=
  http.mkClient
    (fun _ => inl (http.mkResponse code (json.mkReader body None))).

(** A client that echoes the body of the request with the given status. *)
Definition echoClient (code : Z) : http.Client :=
  http.mkClient
    (fun req =>
       inl (http.mkResponse code (json.mkReader (http.reqBody req) None))).

Definition sampleURL : bytes := lit "http://example.com/products/add".

Definition sampleService (c : http.Client) : productService :=
  NewProductService sampleURL (Some c).

(** The member ["key": "text"] of an object, as bytes. *)
Definition stringMember (key text : string) : bytes :=
  quoted (lit key) ++ ":" :: quoted (lit text).

(** A service whose endpoint answers 400 with an empty body. *)
Definition rejecting : productService := sampleService (cannedClient 400 []).

Definition rejected : http.Response :=
  http.mkResponse 400 (json.mkReader [] None).

(** A Product whose title is the single byte 0xFF, which is not valid
    UTF-8. *)
Definition latin1Product : Product := mkProduct [z2b 255] [] 0 [] [].

(** The URL of the tests, with a raw newline, and the error of the URL
    parser for it. *)
Definition newlineURL : bytes := lit "http://" ++ [z2b 10].

Definition controlCharacterError : error :=
  urlError (lit "parse") newlineURL
    (errorString (lit "net/url: invalid control character in URL")).

(** A body with a key in upper case, a key that selects no field, and a
    price. *)
Definition foldedBody : bytes :=
  "{" :: stringMember "TITLE" "x" ++ "," :: quoted (lit "extra") ++ lit ":[1,2],"
      ++ quoted (lit "price") ++ lit ":7}".

Definition foldedMembers : list (bytes * json.value) :=
  [(quoted (lit "TITLE"), literalOf (quoted (lit "x")));
   (quoted (lit "extra"),
    json.Array [json.Literal "1" []; json.Literal "2" []]);
   (quoted (lit "price"), json.Literal "7" [])].

(** A body whose only key is "Title", with a capital letter. *)
Definition titleCaseBody : bytes := "{" :: stringMember "Title" "x" ++ ["}"].

(** The truncated text of the tests. *)
Definition truncatedBody : bytes := "{" :: dq :: lit "invalid json".

(** A body whose price is not an integer. *)
Definition fractionBody : bytes :=
  "{" :: stringMember "title" "a" ++ "," :: quoted (lit "price") ++ lit ":1.5}".

(** A service whose endpoint echoes the request with status 201, and the
    request it is sent for the sample Product. *)
Definition echoing : productService := sampleService (echoClient 201).

Definition sampleRequest : http.Request := requestOf echoing sampleProduct.

(** An object whose price is a string. *)
Definition mistypedObject : bytes :=
  "{" :: stringMember "price" "oops" ++ ["}"].

(** An object with a title, and bytes that are not JSON. *)
Definition titleObject : bytes := "{" :: stringMember "title" "a" ++ ["}"].

Definition garbage : bytes := lit " } trailing { garbage".

(** A response whose body is that object followed by those bytes, and a
    service whose endpoint gives that response. *)
Definition trailingResponse : http.Response :=
  http.mkResponse 200 (json.mkReader (titleObject ++ garbage) None).

Definition trailingService : productService :=
  sampleService (cannedClient 200 (titleObject ++ garbage)).

(** ** Further vocabulary and test doubles *)

(** The error with which [readValue] gives up when the input ends before
    a value is complete: the error of the reader, or at the end of the
    stream [io.ErrUnexpectedEOF], or [io.EOF] when nothing but white space
    was read. *)
Definition endOfInput (buf : bytes) (rerr : option error) : error :=
  match rerr with
  | Some e => e
  | None => if json.nonSpace buf then io_ErrUnexpectedEOF else io_EOF
  end.

(** The result of [readValue] when the same value stands [d] bytes
    further into the buffer. *)
Definition shift (d : nat) (r : nat * option error) : nat * option error :=
  match snd r with
  | None => ((fst r + d)%nat, None)
  | Some _ => r
  end.

(** [mockRoundTripper] of product/service_impl_test.go: a transport with a
    canned error and a canned response, either of which can be nil. *)
Record mockRoundTripper : Type := mkMockRoundTripper {
  m_err : option error;
  m_resp : option http.Response
}.

(** [mockRoundTripper.RoundTrip]. *)
Definition RoundTrip (m : mockRoundTripper) (_ : http.Request)
  : http.Response + error :=
  match m_err m with
  | Some e => inr e
  | None =>
    match m_resp m with
    | Some resp => inl resp
    | None => inl (http.mkResponse http.StatusOK (json.mkReader (lit "{}") None))
    end
  end.

(** The error of the client when the transport fails with "network
    error", as in the tests, and a client that always fails with it. *)
Definition networkError : error :=
  urlError (lit "Post") (lit "http://valid-url.com")
           (errorString (lit "network error")).

Definition failingClient : http.Client :=
  http.mkClient (fun _ => inr networkError).

Definition failingService : productService :=
  mkService (lit "http://valid-url.com") (Some failingClient) None.

(** The coercion of a string to valid UTF-8, stated on its own for the
    theorems to compare with what [Marshal] and [Decode] do between them:
    each byte that is not part of a well-formed encoding is replaced by
    U+FFFD, and every well-formed rune is kept ([skip] counts the bytes
    of the rune still to be stepped over). *)
Fixpoint coerceFrom (skip : nat) (s : bytes) : bytes :=
  match s with
  | [] => []
  | _ :: t =>
    match skip with
    | S k => coerceFrom k t
    | O =>
      let '(r, size) := utf8.DecodeRune s in
      if (r =? utf8.RuneError) && (size =? 1)%nat
      then utf8.EncodeRune utf8.RuneError ++ coerceFrom 0 t
      else firstn size s ++ coerceFrom (size - 1) t
    end
  end.

(** A string, and the strings of a Product, coerced to valid UTF-8. *)
Definition coerce (s : bytes) : bytes := coerceFrom 0 s.

Definition coerced (p : Product) : Product :=
  mkProduct (coerce (Title p)) (coerce (Description p)) (Price p)
            (coerce (Brand p)) (coerce (Category p)).

(** The upper case of an ASCII letter, as [foldName] takes it; other
    bytes are left as they are. *)
Definition toUpper (c : byte) : byte :=
  if between "a" c "z" then z2b (b2z c - 32) else c.

Definition isLetter (c : byte) : bool :=
  between "a" c "z" || between "A" c "Z".

(** The object with the single member [key], whose value is what
    [Marshal] writes for the field [f] of [p]. *)
Definition singleMember (key : bytes) (p : Product) (f : field) : bytes :=
  "{" :: dq :: key ++ dq :: ":" :: json.encodeValue p f ++ ["}"].

(** A byte that is no control character and none of the characters that
    [Marshal] escapes for HTML; a byte of the ASCII range. *)
Definition plainByte (b : byte) : bool :=
  (0x20 <=? b2z b) && negb (byte_eqb b "<") && negb (byte_eqb b ">")
  && negb (byte_eqb b "&").

Definition asciiByte (b : byte) : bool := b2z b <? 0x80.

(** [n] opening brackets. *)
Definition brackets (n : nat) : bytes := repeat "["%char n.

(** *** Sample inputs for the further properties *)

(** A service without a client. *)
Definition clientless : productService := NewProductService sampleURL None.

(** A service whose endpoint answers every request with an object that
    has a title. *)
Definition titling : productService :=
  sampleService (cannedClient 200 titleObject).

(** The test double with the failing marshaler, a rejected URL and no
    client. *)
Definition brokenDouble : testProductService :=
  mkTestService newlineURL None mockJSONMarshaler.

(** The Product of the tests with the price that the test server sets,
    and a service whose endpoint answers with it. *)
Definition repriced : Product :=
  mkProduct (lit "Test Product") (lit "This is a test product") 2099
            (lit "Test Brand") (lit "Test Category").

Definition repricing : productService :=
  sampleService (cannedClient 201 (json.structEncoder repriced)).

(** A service whose endpoint answers 201 with an empty body. *)
Definition silent : productService := sampleService (cannedClient 201 []).

(** An object with a title whose closing brace is missing. *)
Definition cutBody : bytes := "{" :: stringMember "title" "a".

Definition cutting : productService := sampleService (cannedClient 200 cutBody).

(** A service whose endpoint answers with null. *)
Definition nulling : productService :=
  sampleService (cannedClient 200 (lit "null")).

(** A service whose endpoint answers with white space before the
    object. *)
Definition padding : productService :=
  sampleService (cannedClient 200 (lit "  " ++ titleObject)).

(** A record whose price is 2^63, one more than an int can hold, and a
    service whose endpoint answers with its encoding. *)
Definition overflowing : Product := mkProduct (lit "a") [] (2 ^ 63) [] [].

Definition overflowed : productService :=
  sampleService (cannedClient 200 (json.structEncoder overflowing)).

(** A service whose endpoint answers with an array. *)
Definition listing : productService :=
  sampleService (cannedClient 200 (lit "[1,2]")).

(** An object with two titles. *)
Definition twiceBody : bytes :=
  "{" :: stringMember "title" "a" ++ "," :: stringMember "title" "b" ++ ["}"].

Definition doubling : productService :=
  sampleService (cannedClient 200 twiceBody).

(** A service whose endpoint answers with the title of the sample
    Product under the key TITLE. *)
Definition shouting : productService :=
  sampleService
    (cannedClient 200 (singleMember (lit "TITLE") sampleProduct fTitle)).

(** A service whose endpoint answers with 10001 opening brackets. *)
Definition nesting : productService :=
  sampleService (cannedClient 200 (brackets (Z.to_nat 10001))).

(** An object whose price is a string, between a title and a brand. *)
Definition mixedBody : bytes :=
  "{" :: stringMember "title" "a" ++ "," :: stringMember "price" "oops"
      ++ "," :: stringMember "brand" "b" ++ ["}"].

Definition mixing : productService :=
  sampleService (cannedClient 200 mixedBody).

Definition priceTypeError : error :=
  UnmarshalTypeError (lit "string") (lit "int") (lit "Product") (lit "price").

(** ** The decoder in step with the scanner *)

(** The steps of the scanner inside a literal that can still go on, and
    those in which a literal can end. *)
Definition inLit (st : json.stepFn) : bool :=
  match st with
  | json.stBeginValue | json.stBeginValueOrEmpty | json.stBeginStringOrEmpty
  | json.stBeginString | json.stEndValue | json.stEndTop | json.stError => false
  | _ => true
  end.

Definition litDone (st : json.stepFn) : bool :=
  match st with
  | json.stEndValue | json.st0 | json.st1 | json.stDot0 | json.stE0 => true
  | _ => false
  end.

(** What an open array or object waits for: a key, the value of the
    pending key, or an element. *)
Inductive phase : Type := phKey | phVal | phArr.

Definition framePhase (f : json.frame) : phase :=
  match f with
  | json.inArray _ => phArr
  | json.inObject _ None => phKey
  | json.inObject _ (Some _) => phVal
  end.

(** The phase of a container by the state of the scanner, before and
    after the value that the scanner is at has been handed over. *)
Definition expects (pk : json.parseKind) : phase :=
  match pk with
  | json.parseObjectKey => phKey
  | json.parseObjectValue => phVal
  | json.parseArrayValue => phArr
  end.

Definition settled (pk : json.parseKind) : phase :=
  match pk with
  | json.parseObjectKey => phVal
  | json.parseObjectValue => phKey
  | json.parseArrayValue => phArr
  end.

Definition delivered (st : json.stepFn) (it : option (byte * bytes)) : bool :=
  match it, st with
  | None, json.stEndValue => true
  | _, _ => false
  end.

Definition expected (st : json.stepFn) (it : option (byte * bytes))
           (ps : list json.parseKind) : list phase :=
  match ps with
  | [] => []
  | pk :: ps' =>
    (if delivered st it then settled pk else expects pk) :: map expects ps'
  end.

Definition notKey (pk : json.parseKind) : bool :=
  match pk with
  | json.parseObjectKey => false
  | _ => true
  end.

(** The step of the scanner fits the innermost open container. *)
Definition headFits (st : json.stepFn) (ps : list json.parseKind) : bool :=
  match st with
  | json.stBeginStringOrEmpty | json.stBeginString =>
    match ps with json.parseObjectKey :: _ => true | _ => false end
  | json.stBeginValue =>
    match ps with json.parseObjectKey :: _ => false | _ => true end
  | json.stBeginValueOrEmpty =>
    match ps with json.parseArrayValue :: _ => true | _ => false end
  | json.stEndTop | json.stError => false
  | _ => true
  end.

(** A literal that the scanner accepted; the string literal of a key. *)
Definition wfLiteral (c : byte) (r : bytes) : Prop :=
  exists sa sb,
    beginStep c = Some sa /\ litRun sa r = Some sb /\ litDone sb = true.

Definition wfKey (k : bytes) : Prop :=
  exists text, k = dq :: text ++ [dq] /\ stringText text.

Definition shallowWf (v : json.value) : Prop :=
  match v with
  | json.Literal c r => wfLiteral c r
  | _ => True
  end.

Definition memberWf (m : bytes * json.value) : Prop :=
  wfKey (fst m) /\ shallowWf (snd m).

Definition frameWf (f : json.frame) : Prop :=
  match f with
  | json.inArray _ => True
  | json.inObject ms k =>
    Forall memberWf ms /\ match k with Some k => wfKey k | None => True end
  end.

Definition wfTop (v : json.value) : Prop :=
  match v with
  | json.Literal c r => wfLiteral c r
  | json.Array _ => True
  | json.Object ms => Forall memberWf ms
  end.

(** The literal under construction is what the scanner has read of it. *)
Definition tracks (st : json.stepFn) (ps : list json.parseKind)
           (it : option (byte * bytes)) : Prop :=
  match it with
  | None => inLit st = false /\ (st = json.stEndValue -> ps <> [])
  | Some (c0, r) =>
    litState st = true
    /\ (exists sa, beginStep c0 = Some sa /\ litRun sa r = Some st)
    /\ (hd json.parseArrayValue ps = json.parseObjectKey -> c0 = dq)
  end.

(** The scanner and the value under construction are in step. *)
Definition Sync (s : json.scanner) (b : json.builder) : Prop :=
  headFits (json.step s) (json.parseState s) = true
  /\ forallb notKey (tl (json.parseState s)) = true
  /\ map framePhase (json.stack b)
     = expected (json.step s) (json.item b) (json.parseState s)
  /\ tracks (json.step s) (json.parseState s) (json.item b)
  /\ Forall frameWf (json.stack b)
  /\ json.top b = None.

(** The scanner after a closing bracket, [popParseState]: at the top
    level the value is complete. *)
Definition popped (et : bool) (rest : list json.parseKind) (er : option error)
  : json.scanner :=
  match rest with
  | [] => json.mkScanner json.stEndTop true [] er
  | _ => json.mkScanner json.stEndValue et rest er
  end.

(** The steps in which the scanner waits for the start of a value or of a
    key. *)
Definition isBegin (st : json.stepFn) : bool :=
  match st with
  | json.stBeginValue | json.stBeginValueOrEmpty | json.stBeginStringOrEmpty
  | json.stBeginString => true
  | _ => false
  end.

(** What one step of the scanner does, by opcode. *)
Definition scanFacts (st : json.stepFn) (et : bool) (ps : list json.parseKind)
           (er : option error) (c : byte) (s' : json.scanner)
           (op : json.opcode) : Prop :=
  match op with
  | json.scanContinue =>
    inLit st = true
    /\ exists st', s' = json.mkScanner st' et ps er
                   /\ litStep st c = Some st' /\ litState st' = true
  | json.scanBeginLiteral =>
    isBegin st = true
    /\ exists st', s' = json.mkScanner st' et ps er
                   /\ beginStep c = Some st' /\ inLit st' = true
                   /\ (hd json.parseArrayValue ps = json.parseObjectKey -> c = dq)
  | json.scanBeginObject =>
    (st = json.stBeginValue \/ st = json.stBeginValueOrEmpty)
    /\ s' = json.mkScanner json.stBeginStringOrEmpty et
                           (json.parseObjectKey :: ps) er
  | json.scanBeginArray =>
    (st = json.stBeginValue \/ st = json.stBeginValueOrEmpty)
    /\ s' = json.mkScanner json.stBeginValueOrEmpty et
                           (json.parseArrayValue :: ps) er
  | json.scanSkipSpace =>
    (isBegin st = true /\ s' = json.mkScanner st et ps er)
    \/ (litDone st = true /\ ps <> []
        /\ s' = json.mkScanner json.stEndValue et ps er)
  | json.scanObjectKey =>
    litDone st = true
    /\ exists rest, ps = json.parseObjectKey :: rest
                    /\ s' = json.mkScanner json.stBeginValue et
                              (json.parseObjectValue :: rest) er
  | json.scanObjectValue =>
    litDone st = true
    /\ exists rest, ps = json.parseObjectValue :: rest
                    /\ s' = json.mkScanner json.stBeginString et
                              (json.parseObjectKey :: rest) er
  | json.scanArrayValue =>
    litDone st = true
    /\ exists rest, ps = json.parseArrayValue :: rest
                    /\ s' = json.mkScanner json.stBeginValue et ps er
  | json.scanEndObject =>
    exists rest,
      ((litDone st = true /\ ps = json.parseObjectValue :: rest)
       \/ (st = json.stBeginStringOrEmpty /\ ps = json.parseObjectKey :: rest))
      /\ s' = popped et rest er
  | json.scanEndArray =>
    exists rest,
      ((litDone st = true \/ st = json.stBeginValueOrEmpty)
       /\ ps = json.parseArrayValue :: rest)
      /\ s' = popped et rest er
  | json.scanEnd => litDone st = true /\ ps = []
  | json.scanError => json.err s' <> None
  end.

(** The reachable steps inside a string literal. *)
Definition inStringLit (st : json.stepFn) : bool :=
  match st with
  | json.stInString | json.stInStringEsc | json.stInStringEscU
  | json.stInStringEscU1 | json.stInStringEscU12 | json.stInStringEscU123 => true
  | _ => false
  end.

(** What one byte does to the value under construction, by opcode: the
    decoder follows, and stays in step with the scanner, until the value
    at the top level is complete. *)
Definition stepResult (s' : json.scanner) (b : json.builder) (c : byte)
           (op : json.opcode) : Prop :=
  match op with
  | json.scanError => json.err s' <> None
  | json.scanEnd =>
    json.stack b = []
    /\ exists c0 r, json.item b = Some (c0, r) /\ wfLiteral c0 r
  | json.scanEndObject | json.scanEndArray =>
    exists b',
      json.feed b c op = Some b'
      /\ ((json.parseState s' <> [] /\ json.step s' = json.stEndValue
           /\ Sync s' b')
          \/ (json.parseState s' = [] /\ json.stack b' = []
              /\ json.item b' = None
              /\ exists v, json.top b' = Some v /\ wfTop v))
  | _ => exists b', json.feed b c op = Some b' /\ Sync s' b'
  end.

Definition isSome {A : Type} (o : option A) : bool :=
  match o with Some _ => true | None => false end.

(** The first byte of a value, and of the text of an open container. *)
Definition headByte (v : json.value) : byte :=
  match v with
  | json.Literal c _ => c
  | json.Array _ => "["
  | json.Object _ => "{"
  end.

Definition frameByte (f : json.frame) : byte :=
  match f with
  | json.inArray _ => "["
  | json.inObject _ _ => "{"
  end.

(** The first byte of the value at the top level, as far as the value
    under construction shows it: the complete value, or else the
    outermost open container, or else the literal being read. *)
Definition root (b : json.builder) : option byte :=
  match json.top b with
  | Some v => Some (headByte v)
  | None =>
    last (map (fun f => Some (frameByte f)) (json.stack b))
         (option_map fst (json.item b))
  end.

(** What the first byte of a value does to the scanner: white space is
    skipped, a bracket opens a container, any other byte starts a literal
    or is an error. *)
Definition firstByte (c : byte) : bool :=
  match snd (json.scan json.reset c) with
  | json.scanSkipSpace => json.isSpace c
  | json.scanBeginObject => byte_eqb c "{"
  | json.scanBeginArray => byte_eqb c "["
  | json.scanBeginLiteral | json.scanError => true
  | _ => false
  end.

(** * Properties *)

(** ** Bytes *)

Lemma b2z_range (c : byte) : 0 <= b2z c < 256.
Proof.
  unfold b2z. pose proof (N_ascii_bounded c) as H. lia.
Qed.

Lemma z2b_b2z (c : byte) : z2b (b2z c) = c.
Proof.
  unfold z2b. rewrite Z.mod_small by apply b2z_range.
  unfold b2z. rewrite N2Z.id. apply ascii_N_embedding.
Qed.

Lemma b2z_z2b (z : Z) : 0 <= z < 256 -> b2z (z2b z) = z.
Proof.
  intros H. unfold b2z, z2b. rewrite Z.mod_small by lia.
  rewrite N_ascii_embedding by lia. lia.
Qed.

Lemma b2z_inj (a b : byte) : b2z a = b2z b -> a = b.
Proof.
  intros H. rewrite <- (z2b_b2z a), <- (z2b_b2z b). now rewrite H.
Qed.

Lemma byte_eqb_eq (a b : byte) : byte_eqb a b = true <-> a = b.
Proof. apply Ascii.eqb_eq. Qed.

Lemma byte_eqb_refl (a : byte) : byte_eqb a a = true.
Proof. apply Ascii.eqb_refl. Qed.

Lemma bytes_eqb_eq (a b : bytes) : bytes_eqb a b = true <-> a = b.
Proof.
  revert b. induction a as [|x a IH]; intros [|y b]; simpl; split;
    try discriminate; try reflexivity.
  - intros H. apply andb_true_iff in H as [H1 H2].
    apply byte_eqb_eq in H1. apply IH in H2. now subst.
  - intros H. injection H as -> ->. rewrite byte_eqb_refl. simpl.
    now apply IH.
Qed.

Lemma HasPrefix_app (s t : bytes) : HasPrefix (s ++ t) s = true.
Proof.
  induction s as [|x s IH]; simpl.
  - reflexivity.
  - now rewrite byte_eqb_refl.
Qed.

Lemma HasPrefix_refl (s : bytes) : HasPrefix s s = true.
Proof.
  rewrite <- (app_nil_r s) at 1. apply HasPrefix_app.
Qed.

Lemma Contains_refl (s : bytes) : Contains s s = true.
Proof.
  destruct s; simpl.
  - reflexivity.
  - rewrite byte_eqb_refl, HasPrefix_refl. reflexivity.
Qed.

Lemma Contains_app_r (a b : bytes) : Contains (a ++ b) b = true.
Proof.
  induction a as [|x a IH]; simpl.
  - apply Contains_refl.
  - rewrite IH. apply orb_true_r.
Qed.

(** ** The paths through AddProduct *)

Section PathLemmas.

Variable Quote : bytes -> bytes.
Variable parseRest : bytes -> option error.

(** A control character before the fragment makes the URL parser fail,
    whatever its other checks say. *)
Lemma url_Parse_control (url : bytes) :
  http.stringContainsCTLByte (http.beforeHash url) = true ->
  http.url_Parse parseRest url
  = Some (urlError (lit "parse") (http.beforeHash url)
            (errorString (lit "net/url: invalid control character in URL"))).
Proof. intros H. unfold http.url_Parse. now rewrite H. Qed.

Lemma NewRequest_POST (url body : bytes) :
  http.NewRequest Quote parseRest http.MethodPost url body =
  match http.url_Parse parseRest url with
  | Some e => inr e
  | None => inl (http.mkRequest http.MethodPost url [] body)
  end.
Proof. reflexivity. Qed.

Lemma AddProduct_path (s : productService) (p : Product) :
  path Quote parseRest s p (AddProduct Quote parseRest s p).
Proof.
  unfold AddProduct. cbn [json.Marshal]. rewrite NewRequest_POST.
  destruct (http.url_Parse parseRest (apiURL s)) as [e|] eqn:Hurl.
  { now apply path_request. }
  cbn [http.Method http.URL http.header http.reqBody http.Header_Set].
  fold (requestOf s p).
  destruct (client s) as [c|] eqn:Hc.
  2: { now apply path_nil. }
  destruct (http.Do c (requestOf s p)) as [resp|e] eqn:Hdo.
  2: { now apply path_send with c. }
  unfold http.StatusOK, http.StatusCreated.
  destruct (Z.eqb_spec (http.StatusCode resp) 200) as [H200|H200];
    destruct (Z.eqb_spec (http.StatusCode resp) 201) as [H201|H201];
    cbn [negb andb].
  4: { now apply path_status with c. }
  all: destruct (json.Decode (http.Body resp) zeroProduct)
         as [[result [e|]]|] eqn:Hdec;
       [ apply path_decode with c resp result
       | apply path_ok with c resp
       | apply path_panic with c resp ]; auto.
Qed.

(** What AddProduct returns once the client has delivered a response. *)
Lemma AddProduct_received (s : productService) (p : Product)
      (c : http.Client) (req : http.Request) (resp : http.Response) :
  client s = Some c ->
  In (evDo req) (trace (AddProduct Quote parseRest s p)) ->
  http.Do c req = inl resp ->
  req = requestOf s p
  /\ ((http.StatusCode resp <> 200 /\ http.StatusCode resp <> 201
       /\ out (AddProduct Quote parseRest s p) =
          Returns zeroProduct
            (Some (Errorf_d (lit "unexpected status code: ")
                     (http.StatusCode resp))))
      \/ ((http.StatusCode resp = 200 \/ http.StatusCode resp = 201)
          /\ out (AddProduct Quote parseRest s p) =
             match json.Decode (http.Body resp) zeroProduct with
             | None => Panics
             | Some (_, Some err) =>
               Returns zeroProduct
                 (Some (Errorf_w Quote (lit "failed to decode response: ") err))
             | Some (result, None) => Returns result None
             end)).
Proof.
  intros Hc Hin Hdo.
  destruct (AddProduct_path s p) as
      [e Hu|Hu Hn|c' e Hu Hc' Hd|c' r Hu Hc' Hd H1 H2|c' r Hu Hc' Hd Hs Hj
       |c' r res e Hu Hc' Hd Hs Hj|c' r res Hu Hc' Hd Hs Hj];
    cbn [out after trace] in *; simpl in Hin.
  - tauto.
  - tauto.
  - destruct Hin as [Hin|[]]. injection Hin as <-.
    rewrite Hc in Hc'. injection Hc' as <-. congruence.
  - destruct Hin as [Hin|[Hin|[]]]; [|discriminate]. injection Hin as <-.
    rewrite Hc in Hc'. injection Hc' as <-.
    rewrite Hdo in Hd. injection Hd as <-. auto.
  - destruct Hin as [Hin|[Hin|[]]]; [|discriminate]. injection Hin as <-.
    rewrite Hc in Hc'. injection Hc' as <-.
    rewrite Hdo in Hd. injection Hd as <-. rewrite Hj. auto.
  - destruct Hin as [Hin|[Hin|[]]]; [|discriminate]. injection Hin as <-.
    rewrite Hc in Hc'. injection Hc' as <-.
    rewrite Hdo in Hd. injection Hd as <-. rewrite Hj. auto.
  - destruct Hin as [Hin|[Hin|[]]]; [|discriminate]. injection Hin as <-.
    rewrite Hc in Hc'. injection Hc' as <-.
    rewrite Hdo in Hd. injection Hd as <-. rewrite Hj. auto.
Qed.

(** The marshal field plays no part in AddProduct: with any other
    function in it, or none, the outcome and the events are the same. *)
Lemma AddProduct_ignores_marshal (s : productService) (p : Product)
      (m : option MarshalFunc) :
  out (AddProduct Quote parseRest (mkService (apiURL s) (client s) m) p)
  = out (AddProduct Quote parseRest s p)
  /\ trace (AddProduct Quote parseRest (mkService (apiURL s) (client s) m) p)
     = trace (AddProduct Quote parseRest s p).
Proof.
  unfold AddProduct. cbn [apiURL client json.Marshal].
  repeat match goal with
         | |- context [match ?x with _ => _ end] => destruct x
         | |- context [if ?x then _ else _] => destruct x
         end; split; reflexivity.
Qed.

End PathLemmas.

(** ** UTF-8 *)

Ltac Zify.zify_post_hook ::= Z.div_mod_to_equations.

Ltac split_ifs :=
  repeat match goal with
         | |- context [if ?b then _ else _] =>
           lazymatch b with
           | context [if _ then _ else _] => fail
           | _ => destruct b eqn:?; cbn [Nat.ltb Nat.leb negb]
           end
         end.

Lemma z2b_eq (z : Z) (c : byte) : z = b2z c -> z2b z = c.
Proof. intros ->. apply z2b_b2z. Qed.

Ltac solve_encode :=
  unfold utf8.EncodeRune, utf8.MaxRune;
  repeat match goal with
         | |- context [if ?b then _ else _] =>
           let E := fresh "E" in destruct b eqn:E; try (exfalso; lia)
         end;
  repeat (apply f_equal2; [apply z2b_eq; lia|]); reflexivity.

Ltac decode_leaf Hok :=
  let H := fresh "H" in
  intros H; injection H as <- <-;
  first
    [ solve [simpl in Hok; discriminate Hok]
    | solve [exfalso; lia]
    | unfold wellFormedAt; cbn [firstn length];
      split; [lia|split; [lia|split; [solve_encode|
        split; [repeat (apply Forall_cons; [lia|]); apply Forall_nil
               | unfold utf8.MaxRune; lia]]]] ].

Lemma DecodeRune_multi (p : bytes) (r : Z) (size : nat) :
  utf8.DecodeRune p = (r, size) ->
  (exists c t, p = c :: t /\ 0x80 <= b2z c) ->
  ((r =? utf8.RuneError) && (size =? 1)%nat = false) ->
  wellFormedAt p r size.
Proof.
  intros H (c & t & -> & Hc) Hok.
  unfold utf8.DecodeRune, utf8.RuneSelf, utf8.RuneError, utf8.payload, utf8.contb in *.
  pose proof (b2z_range c) as Rc.
  destruct t as [|b1 t].
  { cbn [length] in H. revert H. split_ifs; decode_leaf Hok. }
  pose proof (b2z_range b1) as R1.
  destruct t as [|b2 t].
  { cbn [length] in H. revert H. split_ifs; decode_leaf Hok. }
  pose proof (b2z_range b2) as R2.
  destruct t as [|b3 t].
  { cbn [length] in H. revert H. split_ifs; decode_leaf Hok. }
  pose proof (b2z_range b3) as R3.
  cbn [length] in H. revert H. split_ifs; decode_leaf Hok.
Qed.

(** ** The scanner and the builder *)

Ltac scan_cases H :=
  repeat match type of H with
         | context [if ?b then _ else _] =>
           lazymatch b with
           | context [if _ then _ else _] => fail
           | _ => destruct b eqn:?
           end
         | context [match ?x with _ => _ end] =>
           is_var x; destruct x
         | context [tl ?x] =>
           is_var x; destruct x; cbn [tl] in H
         end.

Ltac byte_contra :=
  repeat match goal with
         | H : byte_eqb ?c _ = true |- _ =>
           is_var c; apply byte_eqb_eq in H; subst c
         end;
  match goal with
  | H : _ = _ |- _ => solve [vm_compute in H; discriminate H]
  end.

Lemma scan_effect (s s' : json.scanner) (c : byte) (op : json.opcode) :
  json.scan s c = (s', op) -> scanEffect s s' op.
Proof.
  intros H. destruct s as [st et ps er].
  destruct st; unfold json.scan in H; cbn [json.step] in H;
    unfold json.stateBeginValue, json.stateBeginValueOrEmpty,
      json.stateBeginStringOrEmpty, json.stateBeginString,
      json.stateInString, json.stateInStringEsc, json.stateInStringEscHex,
      json.stateNeg, json.state1, json.state0, json.stateDot, json.stateDot0,
      json.stateE, json.stateESign, json.stateE0, json.stateInWord,
      json.stateBeginValue, json.stateEndValue, json.stateEndTop,
      json.pushParseState, json.popParseState, json.scanner_error,
      json.setStep, json.setParseState in H;
    cbn [json.step json.parseState json.endTop json.err fst snd tl] in H;
    scan_cases H;
    cbn [json.step json.parseState json.endTop json.err fst snd tl] in H;
    scan_cases H;
    injection H as <- <-;
    cbn [scanEffect json.step json.parseState litState tl length];
    try solve [exfalso; byte_contra];
    repeat split; try reflexivity; try discriminate; auto.
Qed.

Lemma deliver_spec (v : json.value) (b b' : json.builder) :
  json.deliver v b = Some b' ->
  length (json.stack b') = length (json.stack b)
  /\ json.item b' = json.item b
  /\ (json.stack b <> [] -> json.top b' = json.top b)
  /\ (json.stack b = [] -> json.top b' = Some v).
Proof.
  unfold json.deliver. destruct (json.stack b) as [|[vs|ms [k|]] st] eqn:E.
  - intros H. injection H as <-. cbn. repeat split; congruence.
  - intros H. injection H as <-. cbn. repeat split; congruence.
  - intros H. injection H as <-. cbn. repeat split; congruence.
  - destruct v; try discriminate.
    intros H. injection H as <-. cbn. repeat split; congruence.
Qed.

Lemma closeItem_spec (b b' : json.builder) :
  json.closeItem b = Some b' ->
  json.item b' = None
  /\ length (json.stack b') = length (json.stack b)
  /\ (json.item b = None -> b' = b)
  /\ (json.stack b <> [] -> json.top b' = json.top b)
  /\ (json.item b <> None -> json.stack b = [] ->
      exists c rest, json.top b' = Some (json.Literal c rest)).
Proof.
  unfold json.closeItem. destruct (json.item b) as [[c rest]|] eqn:E.
  - intros H. apply deliver_spec in H. cbn in H.
    destruct H as (H1 & H2 & H3 & H4).
    repeat split; auto; try congruence. intros _ Hs. eauto.
  - intros H. injection H as <-. repeat split; auto. congruence.
Qed.

Lemma scan_endTop (s : json.scanner) (c : byte) :
  json.step s = json.stEndTop -> snd (json.scan s c) = json.scanEnd.
Proof.
  intros H. unfold json.scan. rewrite H. unfold json.stateEndTop.
  destruct (negb (json.isSpace c)); reflexivity.
Qed.

Lemma stateEndValue_space (s : json.scanner) :
  json.stateEndValue s " " =
  match json.parseState s with
  | [] => (json.mkScanner json.stEndTop true [] (json.err s), json.scanEnd)
  | _ => (json.setStep s json.stEndValue, json.scanSkipSpace)
  end.
Proof.
  unfold json.stateEndValue. destruct (json.parseState s); reflexivity.
Qed.

(** One byte of a value under construction: either the value goes on,
    and so does [readValue], or the byte closes the value at the top
    level, and [readValue] stops after it. *)
Lemma feed_step (s s' : json.scanner) (b b' : json.builder) (c : byte)
      (op : json.opcode) :
  Inv s b -> json.top b = None ->
  json.scan s c = (s', op) -> json.feed b c op = Some b' ->
  (Inv s' b' /\ json.top b' = None
   /\ forall buf rerr rest n,
       json.readValueFrom buf rerr s (c :: rest) n
       = json.readValueFrom buf rerr s' rest (S n))
  \/ (json.step s' = json.stEndTop /\ json.top b' <> None
      /\ forall buf rerr rest n,
          json.readValueFrom buf rerr s (c :: rest) n = (S n, None)).
Proof.
  intros [Hlen Hlit] Htop Hs Hf.
  pose proof (scan_effect _ _ _ _ Hs) as He.
  assert (Hgo : Inv s' b' -> json.top b' = None ->
                (forall buf rerr rest n,
                    json.readValueFrom buf rerr s (c :: rest) n
                    = json.readValueFrom buf rerr s' rest (S n)) ->
                (Inv s' b' /\ json.top b' = None
                 /\ forall buf rerr rest n,
                     json.readValueFrom buf rerr s (c :: rest) n
                     = json.readValueFrom buf rerr s' rest (S n))
                \/ (json.step s' = json.stEndTop /\ json.top b' <> None
                    /\ forall buf rerr rest n,
                        json.readValueFrom buf rerr s (c :: rest) n
                        = (S n, None))).
  { intros; left; auto. }
  assert (Hplain : forall buf rerr rest n,
             json.readValueFrom buf rerr s (c :: rest) n
             = match op with
               | json.scanEnd => (n, None)
               | json.scanEndObject | json.scanEndArray =>
                 let '(s'', op') := json.stateEndValue s' " " in
                 if json.opcode_eqb op' json.scanEnd then (S n, None)
                 else json.readValueFrom buf rerr s'' rest (S n)
               | json.scanError => (0%nat, json.err s')
               | _ => json.readValueFrom buf rerr s' rest (S n)
               end).
  { intros. cbn [json.readValueFrom]. now rewrite Hs. }
  destruct op; cbn [scanEffect] in He; cbn [json.feed] in Hf;
    cbn iota beta in Hplain.
  - (* scanContinue *)
    destruct He as (Hp & _ & Hl').
    destruct (json.item b) as [[c0 r]|] eqn:Ei; [|discriminate].
    injection Hf as <-.
    apply Hgo; [split; cbn; [congruence | auto] | exact Htop | exact Hplain].
  - (* scanBeginLiteral *)
    destruct He as (Hp & Hl0 & Hl').
    assert (Ei : json.item b = None).
    { destruct (json.item b) eqn:Ei; [|reflexivity].
      rewrite Hlit in Hl0 by discriminate. discriminate. }
    unfold json.closeItem in Hf. rewrite Ei in Hf. injection Hf as <-.
    apply Hgo; [split; cbn; [congruence | auto] | exact Htop | exact Hplain].
  - (* scanBeginObject *)
    destruct He as (Hp & Hl0).
    assert (Ei : json.item b = None).
    { destruct (json.item b) eqn:Ei; [|reflexivity].
      rewrite Hlit in Hl0 by discriminate. discriminate. }
    unfold json.closeItem in Hf. rewrite Ei in Hf. cbn in Hf.
    injection Hf as <-.
    apply Hgo; [split; cbn; [congruence | rewrite Ei; congruence]
               | exact Htop | exact Hplain].
  - (* scanObjectKey *)
    destruct He as (Hp & Hne).
    apply closeItem_spec in Hf as (H1 & H2 & H3 & H4 & H5).
    assert (Hsb : json.stack b <> []).
    { intros E. rewrite E in Hlen.
      destruct (json.parseState s); [congruence|discriminate]. }
    apply Hgo; [split; [congruence | rewrite H1; congruence]
               | rewrite (H4 Hsb); exact Htop | exact Hplain].
  - (* scanObjectValue *)
    destruct He as (Hp & Hne).
    apply closeItem_spec in Hf as (H1 & H2 & H3 & H4 & H5).
    assert (Hsb : json.stack b <> []).
    { intros E. rewrite E in Hlen.
      destruct (json.parseState s); [congruence|discriminate]. }
    apply Hgo; [split; [congruence | rewrite H1; congruence]
               | rewrite (H4 Hsb); exact Htop | exact Hplain].
  - (* scanEndObject *)
    destruct He as (Hp & Hne & Hstep).
    destruct (json.closeItem b) as [b1|] eqn:Hc; [|discriminate].
    apply closeItem_spec in Hc as (H1 & H2 & H3 & H4 & H5).
    destruct (json.stack b1) as [|[vs|ms' [k|]] st] eqn:Es; try discriminate.
    apply deliver_spec in Hf. cbn in Hf. destruct Hf as (D1 & D2 & D3 & D4).
    cbn [length] in H2.
    assert (Hsb : json.stack b <> []).
    { intros E. rewrite E in H2. discriminate. }
    assert (Hst' : length (json.parseState s') = length st).
    { rewrite Hp. destruct (json.parseState s); cbn in *; lia. }
    rewrite stateEndValue_space in Hplain.
    destruct (json.parseState s') as [|k' ps'] eqn:Eps.
    + destruct st; [|discriminate].
      right. split; [exact Hstep|]. split; [|exact Hplain].
      rewrite (D4 eq_refl). discriminate.
    + cbn [json.opcode_eqb] in Hplain.
      replace (json.setStep s' json.stEndValue) with s' in Hplain
        by (destruct s'; cbn in *; subst; reflexivity).
      assert (Hst0 : st <> []) by (intros E; subst st; discriminate).
      apply Hgo; [split; [congruence | rewrite D2; cbn; congruence]
                 | | exact Hplain].
      rewrite (D3 Hst0). cbn. rewrite (H4 Hsb). exact Htop.
  - (* scanBeginArray *)
    destruct He as (Hp & Hl0).
    assert (Ei : json.item b = None).
    { destruct (json.item b) eqn:Ei; [|reflexivity].
      rewrite Hlit in Hl0 by discriminate. discriminate. }
    unfold json.closeItem in Hf. rewrite Ei in Hf. cbn in Hf.
    injection Hf as <-.
    apply Hgo; [split; cbn; [congruence | rewrite Ei; congruence]
               | exact Htop | exact Hplain].
  - (* scanArrayValue *)
    destruct He as (Hp & Hne).
    apply closeItem_spec in Hf as (H1 & H2 & H3 & H4 & H5).
    assert (Hsb : json.stack b <> []).
    { intros E. rewrite E in Hlen.
      destruct (json.parseState s); [congruence|discriminate]. }
    apply Hgo; [split; [congruence | rewrite H1; congruence]
               | rewrite (H4 Hsb); exact Htop | exact Hplain].
  - (* scanEndArray *)
    destruct He as (Hp & Hne & Hstep).
    destruct (json.closeItem b) as [b1|] eqn:Hc; [|discriminate].
    apply closeItem_spec in Hc as (H1 & H2 & H3 & H4 & H5).
    destruct (json.stack b1) as [|[vs|ms' k] st] eqn:Es; try discriminate.
    apply deliver_spec in Hf. cbn in Hf. destruct Hf as (D1 & D2 & D3 & D4).
    cbn [length] in H2.
    assert (Hsb : json.stack b <> []).
    { intros E. rewrite E in H2. discriminate. }
    assert (Hst' : length (json.parseState s') = length st).
    { rewrite Hp. destruct (json.parseState s); cbn in *; lia. }
    rewrite stateEndValue_space in Hplain.
    destruct (json.parseState s') as [|k' ps'] eqn:Eps.
    + destruct st; [|discriminate].
      right. split; [exact Hstep|]. split; [|exact Hplain].
      rewrite (D4 eq_refl). discriminate.
    + cbn [json.opcode_eqb] in Hplain.
      replace (json.setStep s' json.stEndValue) with s' in Hplain
        by (destruct s'; cbn in *; subst; reflexivity).
      assert (Hst0 : st <> []) by (intros E; subst st; discriminate).
      apply Hgo; [split; [congruence | rewrite D2; cbn; congruence]
                 | | exact Hplain].
      rewrite (D3 Hst0). cbn. rewrite (H4 Hsb). exact Htop.
  - (* scanSkipSpace *)
    destruct He as (Hp & Hne).
    apply closeItem_spec in Hf as (H1 & H2 & H3 & H4 & H5).
    destruct (json.item b) as [i|] eqn:Ei.
    + assert (Hsb : json.stack b <> []).
      { intros E. rewrite E in Hlen.
        destruct (json.parseState s); [|discriminate].
        apply Hne; auto. apply Hlit. discriminate. }
      apply Hgo; [split; [congruence | rewrite H1; congruence]
                 | rewrite (H4 Hsb); exact Htop | exact Hplain].
    + pose proof (H3 eq_refl) as Eb. subst b'.
      apply Hgo; [split; [congruence | rewrite Ei; congruence]
                 | exact Htop | exact Hplain].
  - discriminate.
  - discriminate.
Qed.

(** If the bytes [l] make up one complete object, [readValue] stops after
    exactly these bytes, whatever follows them. *)
Lemma readValueFrom_object (l : bytes) :
  forall (s : json.scanner) (b bf : json.builder) ms,
    Inv s b -> json.top b = None ->
    json.build s b l = Some bf ->
    json.stack bf = [] -> json.top bf = Some (json.Object ms) ->
    forall buf rerr rest n,
      json.readValueFrom buf rerr s (l ++ rest) n = ((n + length l)%nat, None).
Proof.
  induction l as [|c t IH]; intros s b bf ms Hinv Htop Hb Hst Hob buf rerr rest n.
  - exfalso. destruct Hinv as [Hlen Hlit].
    cbn in Hb. apply closeItem_spec in Hb as (H1 & H2 & H3 & H4 & H5).
    destruct (json.item b) as [i|] eqn:Ei.
    + destruct (json.stack b) as [|f st] eqn:Es.
      * destruct H5 as (c0 & r0 & H5); congruence.
      * rewrite Hst in H2. discriminate.
    + rewrite (H3 eq_refl) in Hob. congruence.
  - cbn [json.build] in Hb. cbn [app].
    destruct (json.scan s c) as [s' op] eqn:Hs.
    destruct (json.feed b c op) as [b'|] eqn:Hf; [|discriminate].
    destruct (feed_step _ _ _ _ _ _ Hinv Htop Hs Hf)
      as [(Hi & Ht & Hr)|(Hstep & Ht & Hr)]; rewrite Hr.
    + rewrite (IH s' b' bf ms Hi Ht Hb Hst Hob). cbn [length]. f_equal. lia.
    + destruct t as [|c2 t2].
      { cbn [length]. f_equal. lia. }
      exfalso. cbn [json.build] in Hb.
      pose proof (scan_endTop s' c2 Hstep) as Hend.
      destruct (json.scan s' c2) as [s2 op2]. cbn in Hend. subst op2.
      cbn in Hb. discriminate.
Qed.

Lemma Inv_reset : Inv json.reset json.newBuilder.
Proof. split; [reflexivity|]. intros H. now elim H. Qed.

(** Decoding a stream that starts with a complete object: the bytes after
    the object play no part. *)
Lemma Decode_object_prefix (obj rest : bytes) (rerr : option error)
      (ms : list (bytes * json.value)) (v : Product) :
  json.valueOf obj = Some (json.Object ms) ->
  json.Decode (json.mkReader (obj ++ rest) rerr) v = json.object ms v None.
Proof.
  intros Hv. unfold json.Decode, json.readValue. cbn [json.content json.readErr].
  pose proof Hv as Hv'. unfold json.valueOf in Hv'.
  destruct (json.build json.reset json.newBuilder obj) as [bf|] eqn:Hb;
    [|discriminate].
  destruct (json.stack bf) eqn:Hs; [|discriminate].
  rewrite (readValueFrom_object obj json.reset json.newBuilder bf ms
             Inv_reset eq_refl Hb Hs Hv').
  cbn [Nat.add]. rewrite firstn_app, firstn_all, Nat.sub_diag.
  cbn [firstn]. rewrite app_nil_r, Hv. reflexivity.
Qed.

(** ** Truncated values *)

Lemma opcode_eqb_eq (a b : json.opcode) : json.opcode_eqb a b = true -> a = b.
Proof. destruct a, b; try discriminate; reflexivity. Qed.

(** At the end of the input, the invented space ends a value only if the
    value is complete at the top level. *)
Lemma scan_space_end (s : json.scanner) :
  snd (json.scan s " ") = json.scanEnd ->
  json.step s = json.stEndTop
  \/ (json.parseState s = [] /\ litState (json.step s) = true).
Proof.
  destruct s as [st et ps er].
  destruct st; destruct ps as [|k ps]; cbn; intros H;
    try discriminate H; auto.
Qed.

(** While the scanner is inside a literal at the top level, the value
    under construction cannot become an object. *)
Lemma top_literal_only (l : bytes) :
  forall s b bf,
    Inv s b -> json.stack b = [] -> litState (json.step s) = true ->
    json.top b = None ->
    json.build s b l = Some bf ->
    forall ms, json.top bf <> Some (json.Object ms).
Proof.
  induction l as [|c t IH]; intros s b bf [Hlen Hlit] Hst Hl Htop Hb ms.
  - cbn in Hb. apply closeItem_spec in Hb as (H1 & H2 & H3 & H4 & H5).
    destruct (json.item b) as [i|] eqn:Ei.
    + destruct H5 as (c0 & r0 & H5); congruence.
    + rewrite (H3 eq_refl). congruence.
  - cbn [json.build] in Hb.
    destruct (json.scan s c) as [s' op] eqn:Hs.
    pose proof (scan_effect _ _ _ _ Hs) as He.
    destruct (json.feed b c op) as [b'|] eqn:Hf; [|discriminate].
    assert (Hps : json.parseState s = []).
    { rewrite Hst in Hlen. now destruct (json.parseState s). }
    destruct op; cbn [scanEffect] in He; cbn [json.feed] in Hf;
      try discriminate;
      try (destruct He as (_ & He & _); congruence);
      try (destruct He as (_ & He); congruence);
      try (destruct He as (_ & He & _); now elim (He Hl));
      try (destruct He as (_ & He); now elim (He Hl)).
    destruct He as (Hp & _ & Hl').
    destruct (json.item b) as [[c0 r]|] eqn:Ei; [|discriminate].
    injection Hf as <-.
    refine (IH s' _ bf _ _ Hl' _ Hb ms); cbn; auto.
    split; cbn; [congruence | auto].
Qed.

(** A proper prefix of a complete object is not a value: [readValue]
    reaches the end of the input and reports it. *)
Lemma readValueFrom_truncated (l : bytes) :
  forall s b bf ms rest,
    Inv s b -> json.top b = None -> rest <> [] ->
    json.build s b (l ++ rest) = Some bf ->
    json.stack bf = [] -> json.top bf = Some (json.Object ms) ->
    forall buf n,
    exists e,
      json.readValueFrom buf None s l n = (0%nat, Some e)
      /\ (e = io_EOF \/ e = io_ErrUnexpectedEOF).
Proof.
  induction l as [|c t IH]; intros s b bf ms rest Hinv Htop Hrest Hb Hst Hob buf n.
  - cbn [json.readValueFrom app] in *.
    destruct (json.opcode_eqb (snd (json.scan s " ")) json.scanEnd) eqn:E.
    + exfalso. apply opcode_eqb_eq in E.
      destruct (scan_space_end s E) as [Htp|[Hps Hl]].
      * destruct rest as [|c2 t2]; [congruence|].
        cbn [json.build] in Hb.
        pose proof (scan_endTop s c2 Htp) as Hend.
        destruct (json.scan s c2) as [s2 op2]. cbn in Hend. subst op2.
        cbn in Hb. discriminate.
      * assert (Hsb : json.stack b = []).
        { destruct Hinv as [Hlen _]. rewrite Hps in Hlen.
          now destruct (json.stack b). }
        exact (top_literal_only rest s b bf Hinv Hsb Hl Htop Hb ms Hob).
    + destruct (json.nonSpace buf); eexists; split; try reflexivity; auto.
  - cbn [app json.build] in Hb.
    destruct (json.scan s c) as [s' op] eqn:Hs.
    destruct (json.feed b c op) as [b'|] eqn:Hf; [|discriminate].
    destruct (feed_step _ _ _ _ _ _ Hinv Htop Hs Hf)
      as [(Hi & Ht & Hr)|(Hstep & Ht & Hr)].
    + rewrite Hr. exact (IH s' b' bf ms rest Hi Ht Hrest Hb Hst Hob buf (S n)).
    + exfalso. destruct (t ++ rest) as [|c2 t2] eqn:E.
      { apply app_eq_nil in E as [_ E]. contradiction. }
      cbn [json.build] in Hb.
      pose proof (scan_endTop s' c2 Hstep) as Hend.
      destruct (json.scan s' c2) as [s2 op2]. cbn in Hend. subst op2.
      cbn in Hb. discriminate.
Qed.

(** Decoding a truncated object fails with [io.EOF] (nothing but white
    space was read) or [io.ErrUnexpectedEOF]. *)
Lemma Decode_truncated (body rest : bytes) (ms : list (bytes * json.value))
      (v : Product) :
  json.valueOf (body ++ rest) = Some (json.Object ms) -> rest <> [] ->
  exists e,
    json.Decode (json.mkReader body None) v = Some (v, Some e)
    /\ (e = io_EOF \/ e = io_ErrUnexpectedEOF).
Proof.
  intros Hv Hrest. unfold json.valueOf in Hv.
  destruct (json.build json.reset json.newBuilder (body ++ rest)) as [bf|] eqn:Hb;
    [|discriminate].
  destruct (json.stack bf) eqn:Hs; [|discriminate].
  destruct (readValueFrom_truncated body json.reset json.newBuilder bf ms rest
              Inv_reset eq_refl Hrest Hb Hs Hv body 0%nat) as (e & He & Hk).
  exists e. split; [|exact Hk].
  unfold json.Decode, json.readValue. cbn [json.content json.readErr].
  now rewrite He.
Qed.

(** ** Enumeration of bytes *)

Lemma allBytes_complete (c : byte) : In c allBytes.
Proof.
  unfold allBytes. rewrite <- (ascii_nat_embedding c).
  apply in_map, in_seq. pose proof (nat_ascii_bounded c). lia.
Qed.

Lemma forall_byte (P : byte -> bool) :
  forallb P allBytes = true -> forall c, P c = true.
Proof.
  intros H c. rewrite forallb_forall in H. apply H, allBytes_complete.
Qed.

(** ** Running over literals *)

Lemma run_app (l1 l2 : bytes) :
  forall s b,
    scanRun s b (l1 ++ l2) =
    match scanRun s b l1 with
    | Some (s', b') => scanRun s' b' l2
    | None => None
    end.
Proof.
  induction l1 as [|c t IH]; intros s b; cbn [scanRun app].
  - reflexivity.
  - destruct (json.scan s c) as [s' op].
    destruct (json.feed b c op); [apply IH | reflexivity].
Qed.

Lemma build_run (l : bytes) :
  forall s b,
    json.build s b l =
    match scanRun s b l with
    | Some (_, b') => json.closeItem b'
    | None => None
    end.
Proof.
  induction l as [|c t IH]; intros s b; cbn [scanRun json.build].
  - reflexivity.
  - destruct (json.scan s c) as [s' op].
    destruct (json.feed b c op); [apply IH | reflexivity].
Qed.

Lemma litStep_scan (st st' : json.stepFn) (c : byte) :
  litStep st c = Some st' ->
  forall et ps er,
    json.scan (json.mkScanner st et ps er) c
    = (json.mkScanner st' et ps er, json.scanContinue).
Proof.
  intros H et ps er. unfold litStep in H. revert H.
  destruct st; unfold json.scan; cbn [json.step];
    unfold json.stateBeginValue, json.stateBeginValueOrEmpty,
      json.stateBeginStringOrEmpty, json.stateBeginString,
      json.stateInString, json.stateInStringEsc, json.stateInStringEscHex,
      json.stateNeg, json.state1, json.state0, json.stateDot, json.stateDot0,
      json.stateE, json.stateESign, json.stateE0, json.stateInWord,
      json.stateBeginValue, json.stateEndValue, json.stateEndTop,
      json.pushParseState, json.popParseState, json.scanner_error,
      json.setStep, json.setParseState;
    cbn [json.step json.parseState json.endTop json.err fst snd tl length Z.of_nat];
    repeat match goal with
           | |- context [if ?b then _ else _] =>
             lazymatch b with
             | context [if _ then _ else _] => fail
             | _ => destruct b eqn:?
             end
           end;
    cbn [json.step json.parseState json.endTop json.err fst snd tl];
    intros H; try discriminate H; try (injection H as <-); try reflexivity.
  all: destruct ps as [|[] ?]; try discriminate H; try reflexivity.
Qed.

Lemma scanRun_literal (l : bytes) :
  forall st st' et ps er b c0 r,
    litRun st l = Some st' ->
    json.item b = Some (c0, r) ->
    scanRun (json.mkScanner st et ps er) b l
    = Some (json.mkScanner st' et ps er,
            json.mkBuilder (Some (c0, r ++ l)) (json.stack b) (json.top b)).
Proof.
  induction l as [|c t IH]; intros st st' et ps er b c0 r Hl Hi; cbn in Hl.
  - injection Hl as <-. cbn [scanRun]. rewrite app_nil_r.
    destruct b as [i st0 tp]. cbn in Hi |- *. now subst.
  - destruct (litStep st c) as [st1|] eqn:E; [|discriminate].
    cbn [scanRun]. rewrite (litStep_scan _ _ _ E). cbn [json.feed].
    rewrite Hi.
    rewrite (IH st1 st' et ps er
               (json.mkBuilder (Some (c0, r ++ [c])) (json.stack b) (json.top b))
               c0 (r ++ [c]) Hl eq_refl).
    cbn. now rewrite <- app_assoc.
Qed.

Lemma litRun_app (l1 l2 : bytes) :
  forall st,
    litRun st (l1 ++ l2) =
    match litRun st l1 with
    | Some st' => litRun st' l2
    | None => None
    end.
Proof.
  induction l1 as [|c t IH]; intros st; cbn.
  - reflexivity.
  - destruct (litStep st c); [apply IH | reflexivity].
Qed.

Lemma stringText_app (l1 l2 : bytes) :
  stringText l1 -> stringText l2 -> stringText (l1 ++ l2).
Proof.
  unfold stringText. intros H1 H2. now rewrite litRun_app, H1.
Qed.

Lemma isInString_true (o : option json.stepFn) :
  isInString o = true -> o = Some json.stInString.
Proof. destruct o as [[]|]; try discriminate. reflexivity. Qed.

(** *** Single bytes inside a string *)

Lemma safe_byte_bool (c : byte) :
  implb (json.htmlSafeSet c)
        (negb (byte_eqb c "\") && negb (byte_eqb c dq)
         && negb (b2z c <? 0x20) && (b2z c <? 0x80)
         && isInString (litStep json.stInString c)) = true.
Proof. revert c. apply forall_byte. vm_compute. reflexivity. Qed.

Lemma safe_byte (c : byte) :
  json.htmlSafeSet c = true ->
  byte_eqb c "\" = false /\ byte_eqb c dq = false
  /\ (b2z c <? 0x20) = false /\ (b2z c <? 0x80) = true
  /\ litStep json.stInString c = Some json.stInString.
Proof.
  intros H. pose proof (safe_byte_bool c) as B. rewrite H in B. cbn in B.
  repeat (apply andb_true_iff in B as [B ?]).
  repeat split; try (apply negb_true_iff; assumption); auto.
  now apply isInString_true.
Qed.

Lemma high_byte_bool (c : byte) :
  implb (0x80 <=? b2z c)
        (negb (byte_eqb c "\") && negb (byte_eqb c dq)
         && negb (b2z c <? 0x20) && negb (b2z c <? 0x80)
         && isInString (litStep json.stInString c)) = true.
Proof. revert c. apply forall_byte. vm_compute. reflexivity. Qed.

Lemma high_byte (c : byte) :
  0x80 <= b2z c ->
  byte_eqb c "\" = false /\ byte_eqb c dq = false
  /\ (b2z c <? 0x20) = false /\ (b2z c <? 0x80) = false
  /\ litStep json.stInString c = Some json.stInString.
Proof.
  intros H. pose proof (high_byte_bool c) as B.
  replace (0x80 <=? b2z c) with true in B by (symmetry; now apply Z.leb_le).
  cbn in B. repeat (apply andb_true_iff in B as [B ?]).
  repeat split; try (apply negb_true_iff; assumption).
  now apply isInString_true.
Qed.

Lemma escapeByte_bool (c : byte) :
  implb ((b2z c <? 0x80) && negb (json.htmlSafeSet c))
        (isInString (litRun json.stInString (json.escapeByte c))) = true.
Proof. revert c. apply forall_byte. vm_compute. reflexivity. Qed.

Lemma escapeByte_stringText (c : byte) :
  (b2z c <? 0x80) = true -> json.htmlSafeSet c = false ->
  stringText (json.escapeByte c).
Proof.
  intros H1 H2. pose proof (escapeByte_bool c) as B. rewrite H1, H2 in B.
  now apply isInString_true.
Qed.

Lemma high_bytes_stringText (l : bytes) :
  Forall (fun b => 0x80 <= b2z b) l -> stringText l.
Proof.
  unfold stringText. induction 1 as [|c l Hc _ IH]; cbn.
  - reflexivity.
  - destruct (high_byte c Hc) as (_ & _ & _ & _ & ->). exact IH.
Qed.

(** *** Decoding depends on the bytes of the rune only *)

Lemma DecodeRune_firstn4 (s : bytes) :
  utf8.DecodeRune (firstn 4 s) = utf8.DecodeRune s.
Proof.
  destruct s as [|c [|b1 [|b2 [|b3 [|b4 t]]]]]; try reflexivity.
  unfold utf8.DecodeRune. cbn [firstn length].
  split_ifs; reflexivity.
Qed.

Lemma wellFormedAt_cons (s : bytes) (r : Z) (size : nat) :
  wellFormedAt s r size ->
  exists c t, s = c :: t /\ 0x80 <= b2z c
              /\ firstn size s = c :: firstn (size - 1) t
              /\ length (firstn (size - 1) t) = (size - 1)%nat.
Proof.
  intros (Hs & Hl & _ & Hf & _).
  destruct s as [|c t]; [cbn in Hl; lia|].
  destruct size as [|k]; [lia|].
  exists c, t. replace (S k - 1)%nat with k by lia.
  cbn [firstn length] in *. inversion Hf; subst.
  repeat split; auto.
  apply firstn_length_le. lia.
Qed.

Lemma DecodeRune_prefix (s : bytes) (r : Z) (size : nat) (Y : bytes) :
  utf8.DecodeRune s = (r, size) ->
  wellFormedAt s r size ->
  utf8.DecodeRune (firstn size s ++ Y) = (r, size).
Proof.
  intros H (Hs & Hl & _).
  assert (Hsz : size = 2%nat \/ size = 3%nat \/ size = 4%nat) by lia.
  revert H. unfold utf8.DecodeRune.
  destruct s as [|c [|b1 [|b2 [|b3 t]]]]; cbn [length] in *.
  - lia.
  - split_ifs; intros H; injection H as <- <-; try lia.
  - destruct Hsz as [->|[->| ->]]; try lia.
    cbn [firstn app length]. split_ifs; intros H; injection H; intros; subst;
      try reflexivity; try lia.
  - destruct Hsz as [->|[->| ->]]; try lia;
    cbn [firstn app length]; split_ifs; intros H; injection H; intros; subst;
      try reflexivity; try lia.
  - destruct Hsz as [->|[->| ->]]; try lia;
    cbn [firstn app length]; split_ifs; intros H; injection H; intros; subst;
      try reflexivity; try lia.
Qed.

(** *** The text that [appendString] writes *)

Lemma stringText_one (c : byte) :
  litStep json.stInString c = Some json.stInString -> stringText [c].
Proof. intros H. unfold stringText. cbn. now rewrite H. Qed.

Lemma appendStringFrom_stringText (src : bytes) :
  forall k, stringText (json.appendStringFrom k src).
Proof.
  induction src as [|b t IH]; intros k; cbn [json.appendStringFrom].
  { reflexivity. }
  destruct k as [|k]; [|apply IH].
  unfold utf8.RuneSelf.
  destruct (b2z b <? 128) eqn:E.
  - apply stringText_app; [|apply IH].
    destruct (json.htmlSafeSet b) eqn:Es.
    + apply stringText_one. now apply safe_byte.
    + now apply escapeByte_stringText.
  - rewrite DecodeRune_firstn4.
    destruct (utf8.DecodeRune (b :: t)) as [c size] eqn:Ed.
    destruct ((c =? utf8.RuneError) && (size =? 1)%nat) eqn:Einv.
    { apply stringText_app; [reflexivity | apply IH]. }
    assert (W : wellFormedAt (b :: t) c size).
    { apply DecodeRune_multi; auto. exists b, t. split; [reflexivity | lia]. }
    destruct ((c =? 8232) || (c =? 8233)) eqn:E2.
    + change (?a ++ ?h :: ?r) with (a ++ [h] ++ r). rewrite app_assoc.
      apply stringText_app; [|apply IH].
      apply orb_true_iff in E2 as [E2|E2]; apply Z.eqb_eq in E2; subst c;
        reflexivity.
    + apply stringText_app; [|apply IH].
      apply high_bytes_stringText. apply W.
Qed.

(** *** Unquoting what [appendString] wrote *)

Lemma unquoteFrom_skip (l Y : bytes) :
  json.unquoteFrom (length l) (l ++ Y) = json.unquoteFrom 0 Y.
Proof.
  induction l as [|c t IH]; cbn [length app].
  - reflexivity.
  - cbn [json.unquoteFrom]. exact IH.
Qed.

Lemma unquote_escape (c : byte) (X : bytes) :
  (b2z c <? 0x80) = true -> json.htmlSafeSet c = false ->
  json.unquoteFrom 0 (json.escapeByte c ++ X)
  = option_map (cons c) (json.unquoteFrom 0 X).
Proof.
  destruct c as [[] [] [] [] [] [] [] []]; intros H1 H2;
    try (vm_compute in H1; discriminate H1);
    try (vm_compute in H2; discriminate H2);
    reflexivity.
Qed.

Lemma unquote_high (s : bytes) (r : Z) (size : nat) (Y : bytes) :
  utf8.DecodeRune s = (r, size) ->
  wellFormedAt s r size ->
  json.unquoteFrom 0 (firstn size s ++ Y)
  = option_map (app (firstn size s)) (json.unquoteFrom 0 Y).
Proof.
  intros Hd W.
  pose proof (DecodeRune_prefix s r size Y Hd W) as Hp.
  destruct (wellFormedAt_cons s r size W) as (c & t & -> & Hc & Hf & Hl).
  destruct W as (_ & _ & He & _).
  rewrite Hf in *. cbn [app] in *. cbn [json.unquoteFrom].
  destruct (high_byte c Hc) as (-> & -> & -> & E4 & _).
  unfold utf8.RuneSelf. rewrite E4. cbn [orb].
  rewrite Hp, He.
  set (l := firstn (size - 1) t) in *. rewrite <- Hl.
  now rewrite unquoteFrom_skip.
Qed.

Lemma unquote_appendStringFrom (src : bytes) :
  forall k,
    utf8.validFrom k src = true ->
    json.unquoteFrom 0 (json.appendStringFrom k src) = Some (skipn k src).
Proof.
  induction src as [|b t IH]; intros k Hv.
  { now destruct k. }
  destruct k as [|k]; [|apply IH, Hv].
  cbn [json.appendStringFrom skipn]. cbn [utf8.validFrom] in Hv.
  unfold utf8.RuneSelf.
  destruct (b2z b <? 128) eqn:E.
  - assert (Hd : utf8.DecodeRune (b :: t) = (b2z b, 1%nat)).
    { unfold utf8.DecodeRune, utf8.RuneSelf. now rewrite E. }
    rewrite Hd in Hv. cbn [Nat.eqb andb Nat.sub] in Hv.
    destruct (b2z b =? utf8.RuneError) eqn:Er.
    { apply Z.eqb_eq in Er. unfold utf8.RuneError in Er.
      pose proof (b2z_range b). lia. }
    cbn [andb] in Hv.
    destruct (json.htmlSafeSet b) eqn:Es.
    + cbn [app json.unquoteFrom].
      destruct (safe_byte b Es) as (-> & -> & -> & E4 & _).
      unfold utf8.RuneSelf. rewrite E4. cbn [orb].
      now rewrite (IH 0%nat Hv).
    + rewrite (unquote_escape b _ E Es). now rewrite (IH 0%nat Hv).
  - rewrite DecodeRune_firstn4.
    destruct (utf8.DecodeRune (b :: t)) as [c size] eqn:Ed.
    destruct ((c =? utf8.RuneError) && (size =? 1)%nat) eqn:Einv;
      [discriminate|].
    assert (W : wellFormedAt (b :: t) c size).
    { apply DecodeRune_multi; auto. exists b, t. split; [reflexivity | lia]. }
    pose proof (IH (size - 1)%nat Hv) as IHt.
    assert (Hsrc : firstn size (b :: t) ++ skipn (size - 1) t = b :: t).
    { destruct W as ((Hs & _) & _). destruct size as [|n]; [lia|].
      cbn [firstn Nat.sub app]. rewrite Nat.sub_0_r.
      now rewrite firstn_skipn. }
    destruct ((c =? 8232) || (c =? 8233)) eqn:E2.
    + destruct W as (_ & _ & He & _).
      apply orb_true_iff in E2 as [E2|E2]; apply Z.eqb_eq in E2; subst c.
      * change (json.unquoteFrom 0 (lit "\u202" ++ json.hexDigit (8232 mod 16)
                  :: json.appendStringFrom (size - 1) t))
          with (option_map (app (utf8.EncodeRune 8232))
                  (json.unquoteFrom 0 (json.appendStringFrom (size - 1) t))).
        rewrite IHt, He. cbn [option_map]. now rewrite Hsrc.
      * change (json.unquoteFrom 0 (lit "\u202" ++ json.hexDigit (8233 mod 16)
                  :: json.appendStringFrom (size - 1) t))
          with (option_map (app (utf8.EncodeRune 8233))
                  (json.unquoteFrom 0 (json.appendStringFrom (size - 1) t))).
        rewrite IHt, He. cbn [option_map]. now rewrite Hsrc.
    + rewrite (unquote_high _ _ _ _ Ed W), IHt. cbn [option_map].
      now rewrite Hsrc.
Qed.

(** ** Decimal numerals *)

Lemma digit_spec (d : Z) :
  0 <= d <= 9 ->
  strconv.isDigit (strconv.digit d) = true
  /\ b2z (strconv.digit d) - 48 = d.
Proof.
  intros H. unfold strconv.isDigit, strconv.digit, between.
  rewrite b2z_z2b by lia.
  change (b2z "0") with 48. change (b2z "9") with 57. lia.
Qed.

Lemma formatBits_decimal (f : nat) :
  forall u acc,
    0 <= u < 2 ^ Z.of_nat (S f) ->
    exists l, strconv.formatBits (S f) u acc = l ++ acc /\ isDecimal u l.
Proof.
  induction f as [|f IH]; intros u acc Hu; cbn [strconv.formatBits];
    destruct (u <? 10) eqn:E.
  - exists [strconv.digit u]. split; [reflexivity|]. apply dec_one. lia.
  - cbn in Hu. lia.
  - exists [strconv.digit u]. split; [reflexivity|]. apply dec_one. lia.
  - rewrite Nat2Z.inj_succ, Z.pow_succ_r in Hu by lia.
    assert (Hq : 0 <= u / 10 < 2 ^ Z.of_nat (S f)) by lia.
    destruct (IH (u / 10) (strconv.digit (u mod 10) :: acc) Hq)
      as (l & Hl1 & Hl).
    cbn [strconv.formatBits] in Hl1. rewrite Hl1.
    exists (l ++ [strconv.digit (u mod 10)]). split.
    + now rewrite <- app_assoc.
    + apply dec_more; [lia | exact Hl].
Qed.

Lemma formatUint_decimal (u : Z) : 0 <= u -> isDecimal u (strconv.formatUint u).
Proof.
  intros Hu. unfold strconv.formatUint.
  destruct (formatBits_decimal (Z.to_nat (Z.log2 u)) u []) as (l & -> & Hl).
  - rewrite Nat2Z.inj_succ, Z2Nat.id by apply Z.log2_nonneg.
    destruct (Z.eq_dec u 0) as [->|Hn].
    + cbn. lia.
    + pose proof (Z.log2_spec u). lia.
  - now rewrite app_nil_r.
Qed.

Lemma parseDigits_app (l1 l2 : bytes) :
  forall a,
    strconv.parseDigits (l1 ++ l2) a =
    match strconv.parseDigits l1 a with
    | Some a' => strconv.parseDigits l2 a'
    | None => None
    end.
Proof.
  induction l1 as [|c t IH]; intros a; cbn.
  - reflexivity.
  - destruct (strconv.isDigit c); [apply IH | reflexivity].
Qed.

Lemma parseDigits_decimal (u : Z) (l : bytes) :
  isDecimal u l ->
  forall a, strconv.parseDigits l a = Some (a * 10 ^ Z.of_nat (length l) + u).
Proof.
  induction 1 as [u Hu|u l Hu Hl IH]; intros a.
  - cbn [strconv.parseDigits length].
    destruct (digit_spec u ltac:(lia)) as [-> ->]. f_equal.
    change (Z.of_nat 1) with 1. rewrite Z.pow_1_r. lia.
  - rewrite parseDigits_app, IH. cbn [strconv.parseDigits].
    destruct (digit_spec (u mod 10) ltac:(lia)) as [-> ->].
    rewrite length_app. cbn [length]. rewrite Nat.add_1_r, Nat2Z.inj_succ.
    rewrite Z.pow_succ_r by lia. f_equal.
    pose proof (Z.div_mod u 10 ltac:(lia)). nia.
Qed.

Lemma isDecimal_nonempty (u : Z) (l : bytes) : isDecimal u l -> l <> [].
Proof.
  destruct 1; [discriminate|]. now destruct l.
Qed.

Lemma ParseUint_formatUint (u : Z) :
  0 <= u < 2 ^ 64 -> strconv.ParseUint (strconv.formatUint u) = Some u.
Proof.
  intros Hu. pose proof (formatUint_decimal u ltac:(lia)) as Hd.
  unfold strconv.ParseUint.
  destruct (strconv.formatUint u) as [|c t] eqn:E.
  { now apply isDecimal_nonempty in Hd. }
  rewrite (parseDigits_decimal _ _ Hd). rewrite Z.mul_0_l, Z.add_0_l.
  replace (u <? 2 ^ 64) with true by (symmetry; apply Z.ltb_lt; lia).
  reflexivity.
Qed.

Lemma digit_byte_bool (c : byte) :
  implb (strconv.isDigit c)
        (negb (byte_eqb c "-") && negb (byte_eqb c "+")
         && negb (byte_eqb c "n") && negb (byte_eqb c "t")
         && negb (byte_eqb c "f") && negb (byte_eqb c dq)
         && between "0" c "9"
         && match litStep json.st1 c with Some json.st1 => true | _ => false end
         && match beginStep c with
            | Some st => if byte_eqb c "0" then
                           match st with json.st0 => true | _ => false end
                         else match st with json.st1 => true | _ => false end
            | None => false
            end
         && (byte_eqb c "0"
             || match litStep json.stNeg c with Some json.st1 => true | _ => false end))
  = true.
Proof. revert c. apply forall_byte. vm_compute. reflexivity. Qed.

Lemma digit_byte (c : byte) :
  strconv.isDigit c = true ->
  byte_eqb c "-" = false /\ byte_eqb c "+" = false
  /\ byte_eqb c "n" = false /\ byte_eqb c "t" = false
  /\ byte_eqb c "f" = false /\ byte_eqb c dq = false
  /\ between "0" c "9" = true
  /\ litStep json.st1 c = Some json.st1
  /\ beginStep c = Some (if byte_eqb c "0" then json.st0 else json.st1)
  /\ (byte_eqb c "0" = false -> litStep json.stNeg c = Some json.st1).
Proof.
  intros H. pose proof (digit_byte_bool c) as B. rewrite H in B. cbn [implb] in B.
  repeat (apply andb_true_iff in B as [B ?]).
  repeat split; try (apply negb_true_iff; assumption); auto.
  - destruct (litStep json.st1 c) as [[]|]; try discriminate. reflexivity.
  - destruct (beginStep c) as [st|]; [|discriminate].
    destruct (byte_eqb c "0"); destruct st; try discriminate; reflexivity.
  - intros E. rewrite E in *. cbn [orb] in *.
    destruct (litStep json.stNeg c) as [[]|]; try discriminate. reflexivity.
Qed.

(** A numeral is ["0"], or starts with a digit that is not zero and goes
    on with digits. *)
Lemma isDecimal_shape (u : Z) (l : bytes) :
  isDecimal u l ->
  exists c t,
    l = c :: t /\ strconv.isDigit c = true
    /\ ((u = 0 /\ c = "0" /\ t = [])
        \/ (0 < u /\ byte_eqb c "0" = false /\ litRun json.st1 t = Some json.st1)).
Proof.
  induction 1 as [u Hu|u l Hu Hl IH].
  - exists (strconv.digit u), []. split; [reflexivity|].
    destruct (digit_spec u ltac:(lia)) as [Hd Hv]. split; [exact Hd|].
    destruct (Z.eq_dec u 0) as [->|Hn].
    + left. split; [reflexivity|]. split; reflexivity.
    + right. split; [lia|]. split; [|reflexivity].
      destruct (byte_eqb (strconv.digit u) "0") eqn:E; [|reflexivity].
      apply byte_eqb_eq in E. rewrite E in Hv. cbn in Hv. lia.
  - destruct IH as (c & t & -> & Hc & [(H0 & _)|(Hp & Hz & Hr)]).
    { lia. }
    exists c, (t ++ [strconv.digit (u mod 10)]). split; [reflexivity|].
    split; [exact Hc|]. right. split; [lia|]. split; [exact Hz|].
    rewrite litRun_app, Hr. cbn [litRun].
    destruct (digit_spec (u mod 10) ltac:(lia)) as [Hd _].
    destruct (digit_byte _ Hd) as (_ & _ & _ & _ & _ & _ & _ & -> & _).
    reflexivity.
Qed.

Lemma ParseInt_FormatInt (i : Z) :
  isInt i -> strconv.ParseInt (strconv.FormatInt i) = Some i.
Proof.
  unfold isInt. intros Hi. unfold strconv.FormatInt.
  destruct (i <? 0) eqn:E.
  - cbn [strconv.ParseInt]. change (byte_eqb "-" "-") with true.
    change (byte_eqb "-" "+") with false. cbn [orb negb andb].
    rewrite ParseUint_formatUint by lia.
    replace (2 ^ 63 <? - i) with false by (symmetry; apply Z.ltb_ge; lia).
    f_equal. lia.
  - pose proof (formatUint_decimal i ltac:(lia)) as Hd.
    destruct (isDecimal_shape _ _ Hd) as (c & t & Heq & Hc & _).
    pose proof (ParseUint_formatUint i ltac:(lia)) as Hp.
    rewrite Heq in *. cbn [strconv.ParseInt].
    destruct (digit_byte c Hc) as (-> & -> & _). cbn [orb negb andb].
    rewrite Hp.
    replace (2 ^ 63 <=? i) with false by (symmetry; apply Z.leb_gt; lia).
    reflexivity.
Qed.

(** ** Scanning the encoding of a Product *)

Lemma scanRun_cons (s : json.scanner) (b : json.builder) (c : byte) (t : bytes) :
  scanRun s b (c :: t) =
  let '(s', op) := json.scan s c in
  match json.feed b c op with
  | Some b' => scanRun s' b' t
  | None => None
  end.
Proof. reflexivity. Qed.

Lemma step_open_string (stK : json.stepFn) et ps er :
  beforeString stK ->
  json.scan (json.mkScanner stK et ps er) dq
  = (json.mkScanner json.stInString et ps er, json.scanBeginLiteral).
Proof. intros [->|[->| ->]]; reflexivity. Qed.

Lemma step_close_string et ps er :
  json.scan (json.mkScanner json.stInString et ps er) dq
  = (json.mkScanner json.stEndValue et ps er, json.scanContinue).
Proof. reflexivity. Qed.

Lemma step_colon et ps er :
  json.scan (json.mkScanner json.stEndValue et (json.parseObjectKey :: ps) er) ":"
  = (json.mkScanner json.stBeginValue et (json.parseObjectValue :: ps) er,
     json.scanObjectKey).
Proof. reflexivity. Qed.

Lemma step_comma (stV : json.stepFn) et ps er :
  afterValue stV ->
  json.scan (json.mkScanner stV et (json.parseObjectValue :: ps) er) ","
  = (json.mkScanner json.stBeginString et (json.parseObjectKey :: ps) er,
     json.scanObjectValue).
Proof. intros [->|[->| ->]]; reflexivity. Qed.

Lemma step_close_brace (stV : json.stepFn) et er :
  afterValue stV ->
  json.scan (json.mkScanner stV et [json.parseObjectValue] er) "}"
  = (json.mkScanner json.stEndTop true [] er, json.scanEndObject).
Proof. intros [->|[->| ->]]; reflexivity. Qed.

Lemma step_open_brace et er :
  json.scan (json.mkScanner json.stBeginValue et [] er) "{"
  = (json.mkScanner json.stBeginStringOrEmpty et [json.parseObjectKey] er,
     json.scanBeginObject).
Proof. reflexivity. Qed.

(** A string literal with text [body]. *)
Lemma scanRun_string (stK : json.stepFn) (body rest : bytes) et ps er stk tp :
  beforeString stK -> stringText body ->
  scanRun (json.mkScanner stK et ps er) (json.mkBuilder None stk tp)
          (dq :: body ++ dq :: rest)
  = scanRun (json.mkScanner json.stEndValue et ps er)
            (json.mkBuilder (Some (dq, body ++ [dq])) stk tp) rest.
Proof.
  intros HK Hb.
  rewrite scanRun_cons, (step_open_string _ _ _ _ HK).
  cbn [json.feed json.closeItem json.item json.stack json.top].
  rewrite run_app.
  rewrite (scanRun_literal body json.stInString json.stInString et ps er
             (json.mkBuilder (Some (dq, [])) stk tp) dq [] Hb eq_refl).
  cbn [json.stack json.top app].
  rewrite scanRun_cons, step_close_string.
  cbn [json.feed json.item json.stack json.top]. reflexivity.
Qed.

Lemma beginStep_scan (c : byte) (st : json.stepFn) :
  beginStep c = Some st ->
  forall et ps er,
    json.scan (json.mkScanner json.stBeginValue et ps er) c
    = (json.mkScanner st et ps er, json.scanBeginLiteral).
Proof.
  intros H et ps er. unfold beginStep in H. revert H.
  unfold json.scan; cbn [json.step];
    unfold json.stateBeginValue, json.pushParseState, json.scanner_error,
      json.setStep, json.setParseState;
    cbn [json.step json.parseState json.endTop json.err fst snd tl length Z.of_nat];
    repeat match goal with
           | |- context [if ?b then _ else _] =>
             lazymatch b with
             | context [if _ then _ else _] => fail
             | _ => destruct b eqn:?
             end
           end;
    cbn [json.step];
    intros H; try discriminate H; try (injection H as <-); reflexivity.
Qed.

(** The numeral of an [int]: its first byte opens a literal and the rest
    stays inside it. *)
Lemma FormatInt_scan (i : Z) :
  exists c r stX stY,
    strconv.FormatInt i = c :: r
    /\ beginStep c = Some stX
    /\ litRun stX r = Some stY
    /\ afterValue stY
    /\ (byte_eqb c "-" = true \/ strconv.isDigit c = true).
Proof.
  unfold strconv.FormatInt. destruct (i <? 0) eqn:E.
  - pose proof (formatUint_decimal (- i) ltac:(lia)) as Hd.
    destruct (isDecimal_shape _ _ Hd) as (c & t & Heq & Hc & [(H0 & _)|(_ & Hz & Hr)]).
    { lia. }
    exists "-", (strconv.formatUint (- i)), json.stNeg, json.st1.
    split; [reflexivity|]. split; [reflexivity|]. split.
    + rewrite Heq. cbn [litRun].
      destruct (digit_byte c Hc) as (_ & _ & _ & _ & _ & _ & _ & _ & _ & Hn).
      now rewrite (Hn Hz).
    + split; [right; right; reflexivity | left; reflexivity].
  - pose proof (formatUint_decimal i ltac:(lia)) as Hd.
    destruct (isDecimal_shape _ _ Hd) as (c & t & Heq & Hc & Hsh).
    destruct (digit_byte c Hc) as (_ & _ & _ & _ & _ & _ & _ & _ & Hb & _).
    exists c, t, (if byte_eqb c "0" then json.st0 else json.st1).
    destruct Hsh as [(_ & -> & ->)|(_ & Hz & Hr)].
    + exists json.st0. repeat split; auto. right; left; reflexivity.
    + rewrite Hz in *. exists json.st1. repeat split; auto.
      right; right; reflexivity.
Qed.

(** The value of a field: it opens a literal at its first byte and is
    complete at its last. *)
Lemma encodeValue_scan (p : Product) (f : field) :
  exists stV,
    afterValue stV
    /\ json.encodeValue p f <> []
    /\ forall rest et ps er stk tp,
        scanRun (json.mkScanner json.stBeginValue et ps er)
                (json.mkBuilder None stk tp) (json.encodeValue p f ++ rest)
        = scanRun (json.mkScanner stV et ps er)
                  (json.mkBuilder
                     (Some (hd "0" (json.encodeValue p f),
                            tl (json.encodeValue p f))) stk tp) rest.
Proof.
  assert (Hstr : forall src,
             exists stV,
               afterValue stV
               /\ json.appendString [] src <> []
               /\ forall rest et ps er stk tp,
                   scanRun (json.mkScanner json.stBeginValue et ps er)
                           (json.mkBuilder None stk tp)
                           (json.appendString [] src ++ rest)
                   = scanRun (json.mkScanner stV et ps er)
                             (json.mkBuilder
                                (Some (hd "0" (json.appendString [] src),
                                       tl (json.appendString [] src))) stk tp)
                             rest).
  { intros src. exists json.stEndValue. split; [left; reflexivity|].
    split; [discriminate|]. intros rest et ps er stk tp.
    unfold json.appendString. cbn [app hd tl].
    rewrite <- app_assoc. cbn [app].
    apply scanRun_string.
    - right; right; reflexivity.
    - apply appendStringFrom_stringText. }
  destruct f; cbn [json.encodeValue]; try apply Hstr.
  destruct (FormatInt_scan (Price p)) as (c & r & stX & stY & -> & Hb & Hr & Hy & _).
  exists stY. split; [exact Hy|]. split; [discriminate|].
  intros rest et ps er stk tp. cbn [app hd tl].
  rewrite scanRun_cons, (beginStep_scan _ _ Hb).
  cbn [json.feed json.closeItem json.item json.stack json.top].
  rewrite run_app.
  rewrite (scanRun_literal r stX stY et ps er
             (json.mkBuilder (Some (c, [])) stk tp) c [] Hr eq_refl).
  reflexivity.
Qed.

Ltac norm_app := repeat (progress (cbn [app]; rewrite <- ?app_assoc)).

Lemma fieldName_stringText (f : field) : stringText (fieldName f).
Proof. destruct f; reflexivity. Qed.

(** A key, the colon and the value of field [f]. *)
Lemma scanRun_member (p : Product) (f : field) (stK : json.stepFn) :
  stK = json.stBeginString \/ stK = json.stBeginStringOrEmpty ->
  exists stV,
    afterValue stV
    /\ forall rest et ps er ms stk tp,
        scanRun (json.mkScanner stK et (json.parseObjectKey :: ps) er)
                (json.mkBuilder None (json.inObject ms None :: stk) tp)
                (dq :: fieldName f ++ dq :: ":" :: json.encodeValue p f ++ rest)
        = scanRun (json.mkScanner stV et (json.parseObjectValue :: ps) er)
                  (json.mkBuilder
                     (Some (hd "0" (json.encodeValue p f),
                            tl (json.encodeValue p f)))
                     (json.inObject ms (Some (quoted (fieldName f))) :: stk) tp)
                  rest.
Proof.
  intros HK.
  destruct (encodeValue_scan p f) as (stV & HV & _ & Hrun).
  exists stV. split; [exact HV|].
  intros rest et ps er ms stk tp.
  rewrite scanRun_string;
    [| destruct HK as [->| ->]; [left | right; left]; reflexivity
     | apply fieldName_stringText].
  rewrite scanRun_cons, step_colon.
  cbn [json.feed json.closeItem json.item json.stack json.top json.deliver].
  apply Hrun.
Qed.

(** The members after the first one, and the closing brace. *)
Lemma scanRun_fields (p : Product) (fs : list field) :
  forall stV c r k ms et er,
    afterValue stV ->
    scanRun (json.mkScanner stV et [json.parseObjectValue] er)
            (json.mkBuilder (Some (c, r)) [json.inObject ms (Some k)] None)
            (json.encodeFields "," fs p ++ ["}"])
    = Some (json.mkScanner json.stEndTop true [] er,
            json.mkBuilder None []
              (Some (json.Object (rev ((k, json.Literal c r) :: ms)
                                  ++ map (memberOf p) fs)))).
Proof.
  induction fs as [|f fs IH]; intros stV c r k ms et er HV.
  - cbn [json.encodeFields app map].
    rewrite scanRun_cons, (step_close_brace _ _ _ HV).
    cbn [json.feed json.closeItem json.item json.stack json.top json.deliver].
    cbn [scanRun]. now rewrite app_nil_r.
  - cbn [json.encodeFields map]. norm_app.
    rewrite scanRun_cons, (step_comma _ _ _ _ HV).
    cbn [json.feed json.closeItem json.item json.stack json.top json.deliver].
    destruct (scanRun_member p f json.stBeginString (or_introl eq_refl))
      as (stV' & HV' & Hrun).
    rewrite Hrun. rewrite (IH stV' _ _ _ _ et er HV').
    do 3 f_equal. cbn [rev]. rewrite <- !app_assoc. reflexivity.
Qed.

(** The encoding of a Product is one object with the five members, in
    the order of the fields. *)
Lemma valueOf_structEncoder (p : Product) :
  json.valueOf (json.structEncoder p)
  = Some (json.Object (map (memberOf p) fields)).
Proof.
  unfold json.valueOf. rewrite build_run.
  unfold json.structEncoder, fields.
  change (json.encodeFields "{" [fTitle; fDescription; fPrice; fBrand; fCategory] p)
    with ("{" :: dq :: fieldName fTitle ++ dq :: ":" :: json.encodeValue p fTitle
              ++ json.encodeFields "," [fDescription; fPrice; fBrand; fCategory] p).
  norm_app.
  unfold json.reset, json.newBuilder.
  rewrite scanRun_cons, step_open_brace.
  cbn [json.feed json.closeItem json.item json.stack json.top json.push
         option_map].
  destruct (scanRun_member p fTitle json.stBeginStringOrEmpty
              (or_intror eq_refl)) as (stV & HV & Hrun).
  unfold json.push. cbn [json.item json.stack json.top].
  rewrite Hrun.
  rewrite (scanRun_fields p _ stV _ _ _ _ _ _ HV).
  cbn [json.closeItem json.item json.stack json.top rev app map].
  reflexivity.
Qed.

(** ** Decoding the encoding of a Product *)

Lemma unquoteBytes_fieldName (f : field) :
  json.unquoteBytes (quoted (fieldName f)) = Some (fieldName f).
Proof. destruct f; reflexivity. Qed.

Lemma lookupField_fieldName (f : field) :
  json.lookupField (fieldName f) = Some f.
Proof. destruct f; reflexivity. Qed.

Lemma last_snoc (l : bytes) (c d : byte) : last (l ++ [c]) d = c.
Proof. apply last_last. Qed.

Lemma unquoteBytes_appendString (src : bytes) :
  utf8.ValidString src = true ->
  json.unquoteBytes (json.appendString [] src) = Some src.
Proof.
  intros Hv. unfold json.appendString. cbn [app].
  unfold json.unquoteBytes.
  replace (length (dq :: json.appendStringFrom 0 src ++ [dq]) <? 2)%nat
    with false.
  2: { symmetry. apply Nat.ltb_ge. cbn [length]. rewrite length_app.
       cbn [length]. lia. }
  change (dq :: json.appendStringFrom 0 src ++ [dq])
    with ((dq :: json.appendStringFrom 0 src) ++ [dq]).
  rewrite last_snoc, removelast_last, byte_eqb_refl. cbn [negb orb].
  exact (unquote_appendStringFrom src 0%nat Hv).
Qed.

Lemma storeField_string (f : field) (src : bytes) (q : Product) :
  f <> fPrice -> utf8.ValidString src = true ->
  json.storeField (literalOf (json.appendString [] src)) f q
  = Some (json.setString f src q, None).
Proof.
  intros Hf Hv. pose proof (unquoteBytes_appendString src Hv) as Hu.
  unfold json.appendString in *. cbn [app] in *.
  unfold literalOf. cbn [hd tl json.storeField].
  unfold json.literalStore.
  change (byte_eqb dq "n") with false. change (byte_eqb dq "t") with false.
  change (byte_eqb dq "f") with false. rewrite byte_eqb_refl. cbn [orb].
  rewrite Hu. destruct f; try reflexivity. now elim Hf.
Qed.

Lemma storeField_int (i : Z) (q : Product) :
  isInt i ->
  json.storeField (literalOf (strconv.FormatInt i)) fPrice q
  = Some (json.setInt i q, None).
Proof.
  intros Hi. pose proof (ParseInt_FormatInt i Hi) as Hp.
  destruct (FormatInt_scan i) as (c & r & _ & _ & Heq & _ & _ & _ & Hc).
  rewrite Heq in *. unfold literalOf. cbn [hd tl json.storeField].
  unfold json.literalStore. rewrite Hp.
  destruct Hc as [Hc|Hc].
  - apply byte_eqb_eq in Hc. subst c. reflexivity.
  - destruct (digit_byte c Hc) as (_ & _ & -> & -> & -> & -> & -> & _).
    cbn [orb]. rewrite andb_false_r. reflexivity.
Qed.

Lemma object_structEncoder (p : Product) :
  validProduct p ->
  json.object (map (memberOf p) fields) zeroProduct None = Some (p, None).
Proof.
  intros (H1 & H2 & H3 & H4 & H5).
  unfold fields, memberOf. cbn [map json.object].
  rewrite !unquoteBytes_fieldName, !lookupField_fieldName.
  cbn [json.encodeValue].
  rewrite (storeField_string fTitle _ _ ltac:(discriminate) H1).
  cbn [json.saveError].
  rewrite (storeField_string fDescription _ _ ltac:(discriminate) H2).
  cbn [json.saveError].
  rewrite (storeField_int _ _ H3). cbn [json.saveError].
  rewrite (storeField_string fBrand _ _ ltac:(discriminate) H4).
  cbn [json.saveError].
  rewrite (storeField_string fCategory _ _ ltac:(discriminate) H5).
  cbn [json.saveError]. destruct p. reflexivity.
Qed.

(** Marshal followed by Decode gives the Product back, whatever follows
    the encoding in the stream. *)
Lemma Decode_structEncoder (p : Product) (rest : bytes) (rerr : option error) :
  validProduct p ->
  json.Decode (json.mkReader (json.structEncoder p ++ rest) rerr) zeroProduct
  = Some (p, None).
Proof.
  intros Hp.
  rewrite (Decode_object_prefix _ _ _ _ _ (valueOf_structEncoder p)).
  now apply object_structEncoder.
Qed.

(** ** Storing the members of an object *)

Lemma object_filter (ms : list (bytes * json.value)) :
  forall p saved,
    json.object ms p saved = json.object (filter selected ms) p saved.
Proof.
  induction ms as [|[k v] ms IH]; intros p saved; cbn [filter].
  - reflexivity.
  - unfold selected. cbn [fst json.object].
    destruct (json.unquoteBytes k) as [key|] eqn:Ek.
    + destruct (json.lookupField key) as [f|] eqn:Ef.
      * cbn [json.object]. rewrite Ek, Ef.
        destruct (json.storeField v f p) as [[p' e]|]; [apply IH | reflexivity].
      * apply IH.
    + cbn [json.object]. now rewrite Ek.
Qed.

Lemma storeField_cases (v : json.value) (f : field) (p p' : Product)
      (e : option error) :
  json.storeField v f p = Some (p', e) ->
  p' = p
  \/ (exists s, f <> fPrice /\ p' = json.setString f s p)
  \/ (exists n, f = fPrice /\ p' = json.setInt n p).
Proof.
  destruct v as [c rest|vs|ms]; cbn [json.storeField].
  - unfold json.literalStore.
    repeat match goal with
           | |- context [if ?b then _ else _] => destruct b
           | |- context [match json.unquoteBytes ?x with _ => _ end] =>
             destruct (json.unquoteBytes x)
           | |- context [match strconv.ParseInt ?x with _ => _ end] =>
             destruct (strconv.ParseInt x)
           end;
      destruct f; intros H; try discriminate H; injection H as <- <-;
        auto;
        try (right; left; eexists; split; [discriminate | reflexivity]);
        try (right; right; eexists; split; reflexivity).
  - intros H. injection H as <- <-. auto.
  - intros H. injection H as <- <-. auto.
Qed.

Lemma storeField_other (v : json.value) (f g : field) (p p' : Product)
      (e : option error) :
  json.storeField v f p = Some (p', e) -> f <> g ->
  fieldValue g p' = fieldValue g p.
Proof.
  intros H Hfg.
  destruct (storeField_cases _ _ _ _ _ H) as [->|[(s & Hf & ->)|(n & -> & ->)]].
  - reflexivity.
  - destruct f, g; try reflexivity; congruence.
  - destruct g; try reflexivity; congruence.
Qed.

(** A field that no key of the object selects keeps its value. *)
Lemma object_untouched (g : field) (ms : list (bytes * json.value)) :
  forall p saved q e,
    (forall m, In m ms -> selects (fst m) <> Some g) ->
    json.object ms p saved = Some (q, e) ->
    fieldValue g q = fieldValue g p.
Proof.
  induction ms as [|[k v] ms IH]; intros p saved q e Hsel H;
    cbn [json.object] in H.
  - now injection H as <- _.
  - assert (Hk := Hsel (k, v) (or_introl eq_refl)). unfold selects in Hk.
    cbn [fst] in Hk.
    assert (Hsel' : forall m, In m ms -> selects (fst m) <> Some g).
    { intros m Hm. apply Hsel. now right. }
    destruct (json.unquoteBytes k) as [key|]; [|discriminate].
    destruct (json.lookupField key) as [f|].
    + destruct (json.storeField v f p) as [[p' e']|] eqn:Es; [|discriminate].
      rewrite (IH _ _ _ _ Hsel' H).
      apply (storeField_other _ _ _ _ _ _ Es). congruence.
    + exact (IH _ _ _ _ Hsel' H).
Qed.

(** * The claims of the specification *)

Section Claims.

Variable Quote : bytes -> bytes.
Variable parseRest : bytes -> option error.

Local Abbreviation AddProduct := (AddProduct Quote parseRest).
Local Abbreviation Error := (Error Quote).

Ltac by_paths s p :=
  destruct (AddProduct_path Quote parseRest s p); cbn [out after trace] in *.

(** C1. For every input and every response that the client delivers,
    AddProduct returns a nil error only if the status code is 200 or 201;
    for any other status code it returns the zero Product and an error
    whose message is "unexpected status code: " followed by the code in
    decimal, so the message contains the code, whatever the body is. *)
Theorem C1_status_gate (s : productService) (p : Product)
        (c : http.Client) (req : http.Request) (resp : http.Response) :
  client s = Some c ->
  In (evDo req) (trace (AddProduct s p)) ->
  http.Do c req = inl resp ->
  (forall q, out (AddProduct s p) = Returns q None ->
             http.StatusCode resp = 200 \/ http.StatusCode resp = 201)
  /\ (http.StatusCode resp <> 200 -> http.StatusCode resp <> 201 ->
      exists e,
        out (AddProduct s p) = Returns zeroProduct (Some e)
        /\ Error e = lit "unexpected status code: "
                       ++ strconv.FormatInt (http.StatusCode resp)
        /\ Contains (Error e) (strconv.FormatInt (http.StatusCode resp)) = true).
Proof.
  intros Hc Hin Hdo.
  destruct (AddProduct_received Quote parseRest s p c req resp Hc Hin Hdo)
    as [_ [(H1 & H2 & Hout)|(Hs & Hout)]]; rewrite Hout.
  - split; [discriminate|]. intros _ _. eexists. split; [reflexivity|].
    split; [reflexivity|]. apply Contains_app_r.
  - split; [tauto|]. intros H1 H2. destruct Hs; contradiction.
Qed.

(** C2. For every Product whose strings are valid UTF-8 (and whose price
    is an int), if the client answers the request of
    AddProduct with status 201 and a body that is exactly the body of the
    request, AddProduct returns that Product and a nil error. *)
Theorem C2_echo_roundtrip (s : productService) (p : Product)
        (c : http.Client) (req : http.Request) (resp : http.Response) :
  validProduct p ->
  client s = Some c ->
  In (evDo req) (trace (AddProduct s p)) ->
  http.Do c req = inl resp ->
  http.StatusCode resp = 201 ->
  json.content (http.Body resp) = http.reqBody req ->
  out (AddProduct s p) = Returns p None.
Proof.
  intros Hp Hc Hin Hdo Hcode Hbody.
  destruct (AddProduct_received Quote parseRest s p c req resp Hc Hin Hdo)
    as [-> [(_ & H2 & _)|(_ & Hout)]]; [contradiction|].
  rewrite Hout. destruct (http.Body resp) as [cont rerr].
  unfold requestOf in Hbody. cbn [json.content http.reqBody] in Hbody.
  subst cont.
  rewrite <- (app_nil_r (json.structEncoder p)).
  now rewrite (Decode_structEncoder p [] rerr Hp).
Qed.

(** C4. Whenever AddProduct returns a non-nil error, at whichever step,
    the Product it returns with it is the zero Product. *)
Theorem C4_error_zero_product (s : productService) (p q : Product) (e : error) :
  out (AddProduct s p) = Returns q (Some e) -> q = zeroProduct.
Proof.
  by_paths s p; intros Hret; try discriminate; now injection Hret as <- _.
Qed.

(** C5. If the endpoint URL is rejected by the URL parser, as a URL with
    a control character is, AddProduct returns the zero Product and an
    error whose message starts with "failed to create request: " and
    wraps the parser's error, and no event takes place: the client is not
    invoked. *)
Theorem C5_invalid_url_no_network (s : productService) (p : Product) (err : error) :
  http.url_Parse parseRest (apiURL s) = Some err ->
  exists e,
    out (AddProduct s p) = Returns zeroProduct (Some e)
    /\ Error e = lit "failed to create request: " ++ Error err
    /\ Unwrap e = Some err
    /\ trace (AddProduct s p) = [].
Proof.
  intros Hurl.
  by_paths s p; try congruence.
  rewrite Hurl in *.
  match goal with H : Some _ = Some _ |- _ => injection H as <- end.
  eexists. repeat split.
Qed.

(** C6. When AddProduct returns a nil error, the Product is
    what the decoder makes of the response body, starting from the zero
    Product; the input takes no part.  If the body holds an object, the
    members whose key selects no field, neither exactly nor under case
    folding, are ignored, and a field that no key selects keeps its zero
    value. *)
Theorem C6_decoded_from_response (s : productService) (p q : Product)
        (c : http.Client) (req : http.Request) (resp : http.Response)
        (n : nat) (ms : list (bytes * json.value)) :
  client s = Some c ->
  In (evDo req) (trace (AddProduct s p)) ->
  http.Do c req = inl resp ->
  out (AddProduct s p) = Returns q None ->
  json.readValue (http.Body resp) = (n, None) ->
  json.valueOf (firstn n (json.content (http.Body resp)))
  = Some (json.Object ms) ->
  json.Decode (http.Body resp) zeroProduct = Some (q, None)
  /\ json.object (filter selected ms) zeroProduct None = Some (q, None)
  /\ forall f,
      (forall m, In m ms -> selects (fst m) <> Some f) ->
      fieldValue f q = fieldValue f zeroProduct.
Proof.
  intros Hc Hin Hdo Hout Hread Hval.
  destruct (AddProduct_received Quote parseRest s p c req resp Hc Hin Hdo)
    as [_ [(_ & _ & Hout')|(_ & Hout')]]; rewrite Hout in Hout';
    [discriminate|].
  assert (Hdec : json.Decode (http.Body resp) zeroProduct = Some (q, None)).
  { destruct (json.Decode (http.Body resp) zeroProduct) as [[r [e|]]|];
      try discriminate. now injection Hout' as ->. }
  split; [exact Hdec|].
  unfold json.Decode in Hdec. rewrite Hread, Hval in Hdec.
  cbn [json.unmarshal] in Hdec.
  split.
  - now rewrite <- object_filter.
  - intros f Hf. exact (object_untouched f ms _ _ _ _ Hf Hdec).
Qed.

(** C7. If the response has status 200 or 201 and the decoder reports an
    error for its body (a syntax error, a premature end as for every
    truncated object, see [Decode_truncated], or a value that does not
    fit the Product), AddProduct returns the zero Product and an error
    whose message starts with "failed to decode response: " and wraps the
    decoder's error. *)
Theorem C7_malformed_body (s : productService) (p : Product)
        (c : http.Client) (req : http.Request) (resp : http.Response)
        (partial : Product) (err : error) :
  client s = Some c ->
  In (evDo req) (trace (AddProduct s p)) ->
  http.Do c req = inl resp ->
  http.StatusCode resp = 200 \/ http.StatusCode resp = 201 ->
  json.Decode (http.Body resp) zeroProduct = Some (partial, Some err) ->
  exists e,
    out (AddProduct s p) = Returns zeroProduct (Some e)
    /\ Error e = lit "failed to decode response: " ++ Error err
    /\ HasPrefix (Error e) (lit "failed to decode response: ") = true
    /\ Unwrap e = Some err.
Proof.
  intros Hc Hin Hdo Hcode Hdec.
  destruct (AddProduct_received Quote parseRest s p c req resp Hc Hin Hdo)
    as [_ [(H1 & H2 & _)|(_ & Hout)]].
  { destruct Hcode; contradiction. }
  rewrite Hdec in Hout. rewrite Hout.
  eexists. split; [reflexivity|]. split; [reflexivity|].
  split; [|reflexivity]. apply HasPrefix_app.
Qed.

(** C8. Every request that AddProduct hands to the client has the method
    POST, the configured URL, the single header Content-Type:
    application/json, and a body that is one JSON object with exactly the
    members title, description, price, brand and category, in this order:
    four string literals and a number literal, which read back give the
    fields of the input (for an input that is valid UTF-8). *)
Theorem C8_request_shape (s : productService) (p : Product) (req : http.Request) :
  In (evDo req) (trace (AddProduct s p)) ->
  http.Method req = lit "POST"
  /\ http.URL req = apiURL s
  /\ http.header req = [(lit "Content-Type", [lit "application/json"])]
  /\ http.Header_Get (http.header req) (lit "Content-Type")
     = lit "application/json"
  /\ json.valueOf (http.reqBody req)
     = Some (json.Object
               (map (fun f => (quoted (fieldName f),
                               literalOf (json.encodeValue p f))) fields))
  /\ (forall f, f <> fPrice -> hd "0" (json.encodeValue p f) = dq)
  /\ (exists c r, json.encodeValue p fPrice = c :: r
                  /\ (c = "-" \/ strconv.isDigit c = true))
  /\ (validProduct p ->
      json.object
        (map (fun f => (quoted (fieldName f),
                        literalOf (json.encodeValue p f))) fields)
        zeroProduct None = Some (p, None)).
Proof.
  intros Hin.
  assert (Hreq : req = requestOf s p).
  { by_paths s p; simpl in Hin;
      repeat match type of Hin with
             | _ \/ _ => destruct Hin as [Hin|Hin]
             | False => contradiction
             | evDo _ = evDo _ => now injection Hin
             | evClose = evDo _ => discriminate
             end. }
  subst req. cbn [requestOf http.Method http.URL http.header http.reqBody].
  repeat split.
  - apply valueOf_structEncoder.
  - intros f Hf. destruct f; try reflexivity. now elim Hf.
  - destruct (FormatInt_scan (Price p)) as (c0 & r & _ & _ & Heq & _ & _ & _ & Hc).
    exists c0, r. split; [exact Heq|].
    destruct Hc as [Hc|Hc]; [left; now apply byte_eqb_eq | now right].
  - apply object_structEncoder.
Qed.

(** C9. AddProduct leaves the service as it found it: whatever the input
    and the outcome (a Product, any error, a panic), the fields apiURL,
    client and marshal after the call are those before it.  The input is
    passed by value and is not the callee's to change. *)
Theorem C9_service_unchanged (s : productService) (p : Product) :
  after (AddProduct s p) = s.
Proof.
  by_paths s p; reflexivity.
Qed.

(** C10. If a response with status 200 or 201 has a body
    that starts with one complete JSON object, the decoder reads that
    object and nothing after it: AddProduct does exactly what it does
    for the object alone.  It returns the Product decoded from the object
    when the values of the object fit the fields, and the decoding error
    of the object otherwise; the trailing bytes never cause an error. *)
Theorem C10_trailing_bytes (s : productService) (p : Product)
        (c : http.Client) (req : http.Request) (resp : http.Response)
        (obj trailing : bytes) (ms : list (bytes * json.value)) :
  client s = Some c ->
  In (evDo req) (trace (AddProduct s p)) ->
  http.Do c req = inl resp ->
  http.StatusCode resp = 200 \/ http.StatusCode resp = 201 ->
  json.content (http.Body resp) = obj ++ trailing ->
  json.valueOf obj = Some (json.Object ms) ->
  json.Decode (http.Body resp) zeroProduct
  = json.Decode (json.mkReader obj None) zeroProduct
  /\ (forall q,
         json.Decode (json.mkReader obj None) zeroProduct = Some (q, None) ->
         out (AddProduct s p) = Returns q None)
  /\ (forall q err,
         json.Decode (json.mkReader obj None) zeroProduct = Some (q, Some err) ->
         out (AddProduct s p)
         = Returns zeroProduct
             (Some (Errorf_w Quote (lit "failed to decode response: ") err))).
Proof.
  intros Hc Hin Hdo Hcode Hbody Hval.
  assert (Heq : json.Decode (http.Body resp) zeroProduct
                = json.Decode (json.mkReader obj None) zeroProduct).
  { destruct (http.Body resp) as [cont rerr]. cbn [json.content] in Hbody.
    subst cont.
    rewrite (Decode_object_prefix obj trailing rerr ms _ Hval).
    rewrite <- (app_nil_r obj) at 1.
    now rewrite (Decode_object_prefix obj [] None ms _ Hval). }
  destruct (AddProduct_received Quote parseRest s p c req resp Hc Hin Hdo)
    as [_ [(H1 & H2 & _)|(_ & Hout)]].
  { destruct Hcode; contradiction. }
  rewrite Heq in Hout. split; [exact Heq|]. split.
  - intros q Hq. now rewrite Hq in Hout.
  - intros q err Hq. now rewrite Hq in Hout.
Qed.

End Claims.

(** ** Closed instances *)

(** An instance of C1: status 400. *)
Lemma C1_status_gate_witness :
  (forall q,
      out (AddProduct sampleQuote acceptURL rejecting sampleProduct)
      = Returns q None ->
      http.StatusCode rejected = 200 \/ http.StatusCode rejected = 201)
  /\ (http.StatusCode rejected <> 200 -> http.StatusCode rejected <> 201 ->
      exists e,
        out (AddProduct sampleQuote acceptURL rejecting sampleProduct)
        = Returns zeroProduct (Some e)
        /\ Error sampleQuote e
           = lit "unexpected status code: "
               ++ strconv.FormatInt (http.StatusCode rejected)
        /\ Contains (Error sampleQuote e)
                    (strconv.FormatInt (http.StatusCode rejected)) = true).
Proof.
  apply (C1_status_gate sampleQuote acceptURL rejecting sampleProduct
           (cannedClient 400 []) (requestOf rejecting sampleProduct) rejected).
  - reflexivity.
  - vm_compute. left. reflexivity.
  - reflexivity.
Defined.

(** The message of that instance. *)
Example status_400_message :
  out (AddProduct sampleQuote acceptURL rejecting sampleProduct)
  = Returns zeroProduct (Some (errorString (lit "unexpected status code: 400"))).
Proof. vm_compute. reflexivity. Qed.

(** C2 as stated fails: an echo server with status 201 does not give this
    Product back.  Marshal writes the invalid byte as the escape of
    U+FFFD, and the returned title is the three bytes EF BF BD. *)
Lemma C2_counterexample :
  http.Do (echoClient 201)
          (requestOf (sampleService (echoClient 201)) latin1Product)
  = inl (http.mkResponse 201
           (json.mkReader (json.structEncoder latin1Product) None))
  /\ out (AddProduct sampleQuote acceptURL (sampleService (echoClient 201))
                     latin1Product)
     = Returns (mkProduct [z2b 239; z2b 191; z2b 189] [] 0 [] []) None
  /\ out (AddProduct sampleQuote acceptURL (sampleService (echoClient 201))
                     latin1Product)
     <> Returns latin1Product None.
Proof.
  split; [reflexivity|]. split; [vm_compute; reflexivity|].
  vm_compute. discriminate.
Qed.

Lemma validProduct_sample : validProduct sampleProduct.
Proof.
  unfold validProduct, isInt. repeat split; try reflexivity; cbn; lia.
Qed.

(** An instance of C2: the sample Product against an echo server. *)
Lemma C2_echo_roundtrip_witness :
  out (AddProduct sampleQuote acceptURL (sampleService (echoClient 201))
                  sampleProduct)
  = Returns sampleProduct None.
Proof.
  apply (C2_echo_roundtrip sampleQuote acceptURL
           (sampleService (echoClient 201)) sampleProduct (echoClient 201)
           (requestOf (sampleService (echoClient 201)) sampleProduct)
           (http.mkResponse 201
              (json.mkReader (json.structEncoder sampleProduct) None))).
  - exact validProduct_sample.
  - reflexivity.
  - vm_compute. left. reflexivity.
  - reflexivity.
  - reflexivity.
  - reflexivity.
Defined.

(** The scenario of the tests: the server sets the price to 2099. *)
Example price_changed_by_server :
  out (AddProduct sampleQuote acceptURL
         (sampleService
            (cannedClient 201
               (json.structEncoder
                  (mkProduct (lit "Test Product") (lit "This is a test product")
                             2099 (lit "Test Brand") (lit "Test Category")))))
         sampleProduct)
  = Returns (mkProduct (lit "Test Product") (lit "This is a test product")
                       2099 (lit "Test Brand") (lit "Test Category")) None.
Proof. vm_compute. reflexivity. Qed.

(** C3 fails on the code.  A service whose marshal field always fails
    still submits the Product and succeeds, because AddProduct calls
    json.Marshal and never the field; the test double, which does call
    its marshaler, fails at the first step as the claim says. *)
Theorem C3_failing_marshal_not_used :
  out (AddProduct sampleQuote acceptURL
         (mkService sampleURL (Some (echoClient 201)) (Some mockJSONMarshaler))
         sampleProduct)
  = Returns sampleProduct None
  /\ trace (AddProduct sampleQuote acceptURL
              (mkService sampleURL (Some (echoClient 201))
                         (Some mockJSONMarshaler))
              sampleProduct)
     = [evDo (requestOf (sampleService (echoClient 201)) sampleProduct); evClose]
  /\ testAddProduct sampleQuote acceptURL
       (mkTestService sampleURL (Some (echoClient 201)) mockJSONMarshaler)
       sampleProduct
     = Returns zeroProduct
         (Some (wrapError (lit "failed to marshal product: marshal error")
                          (errorString (lit "marshal error")))).
Proof.
  split; [vm_compute; reflexivity|]. split; vm_compute; reflexivity.
Qed.

(** An instance of C4: the zero Product comes with the status error. *)
Lemma C4_error_zero_product_witness :
  out (AddProduct sampleQuote acceptURL rejecting sampleProduct)
  = Returns zeroProduct (Some (errorString (lit "unexpected status code: 400")))
  /\ zeroProduct = zeroProduct.
Proof.
  split; [vm_compute; reflexivity|].
  apply (C4_error_zero_product sampleQuote acceptURL rejecting sampleProduct
           zeroProduct (errorString (lit "unexpected status code: 400"))).
  vm_compute. reflexivity.
Defined.

(** An instance of C5: the URL with a newline. *)
Lemma C5_invalid_url_no_network_witness :
  exists e,
    out (AddProduct sampleQuote acceptURL (mkService newlineURL None None)
                    sampleProduct)
    = Returns zeroProduct (Some e)
    /\ Error sampleQuote e
       = lit "failed to create request: "
           ++ Error sampleQuote controlCharacterError
    /\ Unwrap e = Some controlCharacterError
    /\ trace (AddProduct sampleQuote acceptURL (mkService newlineURL None None)
                         sampleProduct) = [].
Proof.
  apply (C5_invalid_url_no_network sampleQuote acceptURL
           (mkService newlineURL None None) sampleProduct controlCharacterError).
  reflexivity.
Defined.

(** C6 as stated fails: the key "Title" is none of the five keys and the
    key "title" is missing from the body, yet the title of the result is
    not the zero value; without the member the result is the zero
    Product. *)
Lemma C6_counterexample :
  json.valueOf titleCaseBody
  = Some (json.Object [(quoted (lit "Title"), literalOf (quoted (lit "x")))])
  /\ ~ In (lit "Title") (map fieldName fields)
  /\ out (AddProduct sampleQuote acceptURL
            (sampleService (cannedClient 200 titleCaseBody)) sampleProduct)
     = Returns (mkProduct (lit "x") [] 0 [] []) None
  /\ out (AddProduct sampleQuote acceptURL
            (sampleService (cannedClient 200 (lit "{}"))) sampleProduct)
     = Returns zeroProduct None.
Proof.
  split; [vm_compute; reflexivity|]. split.
  - vm_compute. intros H.
    repeat (destruct H as [H|H]; [discriminate H|]). exact H.
  - split; vm_compute; reflexivity.
Qed.

(** An instance of C6: the member "extra" is ignored, "TITLE" selects the
    title, and the three fields without a key stay zero. *)
Lemma C6_decoded_from_response_witness :
  json.Decode (json.mkReader foldedBody None) zeroProduct
  = Some (mkProduct (lit "x") [] 7 [] [], None)
  /\ json.object (filter selected foldedMembers) zeroProduct None
     = Some (mkProduct (lit "x") [] 7 [] [], None)
  /\ forall f,
      (forall m, In m foldedMembers -> selects (fst m) <> Some f) ->
      fieldValue f (mkProduct (lit "x") [] 7 [] []) = fieldValue f zeroProduct.
Proof.
  apply (C6_decoded_from_response sampleQuote acceptURL
           (sampleService (cannedClient 200 foldedBody)) sampleProduct
           (mkProduct (lit "x") [] 7 [] [])
           (cannedClient 200 foldedBody)
           (requestOf (sampleService (cannedClient 200 foldedBody)) sampleProduct)
           (http.mkResponse 200 (json.mkReader foldedBody None))
           (length foldedBody) foldedMembers).
  - reflexivity.
  - vm_compute. left. reflexivity.
  - reflexivity.
  - vm_compute. reflexivity.
  - vm_compute. reflexivity.
  - vm_compute. reflexivity.
Defined.

(** An instance of C7: the truncated body, with status 200. *)
Lemma C7_malformed_body_witness :
  exists e,
    out (AddProduct sampleQuote acceptURL
           (sampleService (cannedClient 200 truncatedBody)) sampleProduct)
    = Returns zeroProduct (Some e)
    /\ Error sampleQuote e
       = lit "failed to decode response: " ++ Error sampleQuote io_ErrUnexpectedEOF
    /\ HasPrefix (Error sampleQuote e) (lit "failed to decode response: ") = true
    /\ Unwrap e = Some io_ErrUnexpectedEOF.
Proof.
  apply (C7_malformed_body sampleQuote acceptURL
           (sampleService (cannedClient 200 truncatedBody)) sampleProduct
           (cannedClient 200 truncatedBody)
           (requestOf (sampleService (cannedClient 200 truncatedBody))
                      sampleProduct)
           (http.mkResponse 200 (json.mkReader truncatedBody None))
           zeroProduct io_ErrUnexpectedEOF).
  - reflexivity.
  - vm_compute. left. reflexivity.
  - reflexivity.
  - left. reflexivity.
  - vm_compute. reflexivity.
Defined.

(** A decoding error of the other kind: a value of the wrong type.  The
    title was stored before the error; AddProduct still returns the zero
    Product. *)
Example wrong_type_body :
  json.Decode (json.mkReader fractionBody None) zeroProduct
  = Some (mkProduct (lit "a") [] 0 [] [],
          Some (UnmarshalTypeError (lit "number 1.5") (lit "int")
                                   (lit "Product") (lit "price")))
  /\ exists e,
      out (AddProduct sampleQuote acceptURL
             (sampleService (cannedClient 200 fractionBody)) sampleProduct)
      = Returns zeroProduct (Some e).
Proof.
  split; [vm_compute; reflexivity|]. eexists. vm_compute. reflexivity.
Qed.

(** An instance of C8: the request for the sample Product. *)
Lemma C8_request_shape_witness :
  http.Method sampleRequest = lit "POST"
  /\ http.URL sampleRequest = apiURL echoing
  /\ http.header sampleRequest = [(lit "Content-Type", [lit "application/json"])]
  /\ http.Header_Get (http.header sampleRequest) (lit "Content-Type")
     = lit "application/json"
  /\ json.valueOf (http.reqBody sampleRequest)
     = Some (json.Object
               (map (fun f => (quoted (fieldName f),
                               literalOf (json.encodeValue sampleProduct f)))
                    fields))
  /\ (forall f, f <> fPrice -> hd "0" (json.encodeValue sampleProduct f) = dq)
  /\ (exists c r, json.encodeValue sampleProduct fPrice = c :: r
                  /\ (c = "-" \/ strconv.isDigit c = true))
  /\ (validProduct sampleProduct ->
      json.object
        (map (fun f => (quoted (fieldName f),
                        literalOf (json.encodeValue sampleProduct f))) fields)
        zeroProduct None = Some (sampleProduct, None)).
Proof.
  apply (C8_request_shape sampleQuote acceptURL echoing sampleProduct
           sampleRequest).
  vm_compute. left. reflexivity.
Defined.

(** The body of that request. *)
Example sample_request_body :
  json.structEncoder sampleProduct
  = "{" :: stringMember "title" "Test Product" ++ ","
        :: stringMember "description" "This is a test product" ++ ","
        :: quoted (lit "price") ++ lit ":1999,"
        ++ stringMember "brand" "Test Brand" ++ ","
        :: stringMember "category" "Test Category" ++ ["}"].
Proof. vm_compute. reflexivity. Qed.

(** C10 as stated fails: the body is one well-formed JSON object followed
    by trailing bytes, and AddProduct does not succeed, because the
    string does not fit the price. *)
Lemma C10_counterexample :
  json.valueOf mistypedObject
  = Some (json.Object [(quoted (lit "price"), literalOf (quoted (lit "oops")))])
  /\ out (AddProduct sampleQuote acceptURL
            (sampleService (cannedClient 200 (mistypedObject ++ lit " trailing")))
            sampleProduct)
     = Returns zeroProduct
         (Some (Errorf_w sampleQuote (lit "failed to decode response: ")
                  (UnmarshalTypeError (lit "string") (lit "int")
                                      (lit "Product") (lit "price")))).
Proof.
  split; vm_compute; reflexivity.
Qed.

(** An instance of C10: an object with a title, followed by bytes that
    are not JSON. *)
Lemma C10_trailing_bytes_witness :
  json.Decode (http.Body trailingResponse) zeroProduct
  = json.Decode (json.mkReader titleObject None) zeroProduct
  /\ (forall q,
         json.Decode (json.mkReader titleObject None) zeroProduct
         = Some (q, None) ->
         out (AddProduct sampleQuote acceptURL trailingService sampleProduct) = Returns q None)
  /\ (forall q err,
         json.Decode (json.mkReader titleObject None) zeroProduct
         = Some (q, Some err) ->
         out (AddProduct sampleQuote acceptURL trailingService sampleProduct)
         = Returns zeroProduct
             (Some (Errorf_w sampleQuote (lit "failed to decode response: ")
                             err))).
Proof.
  apply (C10_trailing_bytes sampleQuote acceptURL trailingService
           sampleProduct (cannedClient 200 (titleObject ++ garbage))
           (requestOf trailingService sampleProduct) trailingResponse
           titleObject garbage
           [(quoted (lit "title"), literalOf (quoted (lit "a")))]).
  - reflexivity.
  - vm_compute. left. reflexivity.
  - reflexivity.
  - left. reflexivity.
  - reflexivity.
  - vm_compute. reflexivity.
Defined.

(** What that instance returns. *)
Example trailing_bytes_result :
  out (AddProduct sampleQuote acceptURL trailingService sampleProduct)
  = Returns (mkProduct (lit "a") [] 0 [] []) None.
Proof. vm_compute. reflexivity. Qed.

(** * Further properties of the code

    Properties of [AddProduct], of the constructor and of the test doubles
    that the claims above leave out. *)

(** ** Lemmas on the decoder *)

Lemma scan_reset_space (c : byte) :
  json.isSpace c = true ->
  json.scan json.reset c = (json.reset, json.scanSkipSpace).
Proof.
  intros H. unfold json.scan, json.reset. cbn [json.step].
  unfold json.stateBeginValue. now rewrite H.
Qed.

Lemma readValueFrom_space (ws : bytes) :
  forall buf rerr rest n,
    forallb json.isSpace ws = true ->
    json.readValueFrom buf rerr json.reset (ws ++ rest) n
    = json.readValueFrom buf rerr json.reset rest (n + length ws).
Proof.
  induction ws as [|c t IH]; intros buf rerr rest n H.
  - cbn. now rewrite Nat.add_0_r.
  - cbn [forallb] in H. apply andb_prop in H as [Hc Ht].
    cbn [app json.readValueFrom]. rewrite (scan_reset_space c Hc).
    rewrite (IH buf rerr rest (S n) Ht). cbn [length]. f_equal. lia.
Qed.

Lemma readValueFrom_blank (buf : bytes) (rerr : option error) (n : nat) :
  json.readValueFrom buf rerr json.reset [] n
  = (0%nat, Some (endOfInput buf rerr)).
Proof.
  cbn [json.readValueFrom]. unfold endOfInput. destruct rerr; [reflexivity|].
  change (json.opcode_eqb (snd (json.scan json.reset " ")) json.scanEnd)
    with false.
  now destruct (json.nonSpace buf).
Qed.

Lemma nonSpace_blank (ws : bytes) :
  forallb json.isSpace ws = true -> json.nonSpace ws = false.
Proof.
  unfold json.nonSpace. induction ws as [|c t IH]; [reflexivity|].
  cbn. intros H. apply andb_prop in H as [Hc Ht]. rewrite Hc. cbn. auto.
Qed.

Lemma nonSpace_app (a b : bytes) :
  json.nonSpace (a ++ b) = json.nonSpace a || json.nonSpace b.
Proof. unfold json.nonSpace. apply existsb_app. Qed.

(** A stream of white space holds no value. *)
Lemma Decode_blank (ws : bytes) (rerr : option error) (v : Product) :
  forallb json.isSpace ws = true ->
  json.Decode (json.mkReader ws rerr) v
  = Some (v, Some (match rerr with Some e => e | None => io_EOF end)).
Proof.
  intros H. unfold json.Decode, json.readValue. cbn [json.content json.readErr].
  rewrite <- (app_nil_r ws) at 2. rewrite (readValueFrom_space ws _ _ _ _ H).
  rewrite readValueFrom_blank. unfold endOfInput.
  rewrite (nonSpace_blank ws H). reflexivity.
Qed.

(** A scanner that has not met an error records one when it reports one,
    and stays free of errors otherwise. *)
Lemma scan_alive (s s' : json.scanner) (c : byte) (op : json.opcode) :
  json.scan s c = (s', op) -> json.step s <> json.stError ->
  (op = json.scanError -> json.err s' <> None)
  /\ (op <> json.scanError -> op <> json.scanEnd ->
      json.step s' <> json.stError).
Proof.
  intros H Ha. destruct s as [st et ps er].
  destruct st; try (now elim Ha); unfold json.scan in H; cbn [json.step] in H;
    unfold json.stateBeginValue, json.stateBeginValueOrEmpty,
      json.stateBeginStringOrEmpty, json.stateBeginString,
      json.stateInString, json.stateInStringEsc, json.stateInStringEscHex,
      json.stateNeg, json.state1, json.state0, json.stateDot, json.stateDot0,
      json.stateE, json.stateESign, json.stateE0, json.stateInWord,
      json.stateBeginValue, json.stateEndValue, json.stateEndTop,
      json.pushParseState, json.popParseState, json.scanner_error,
      json.setStep, json.setParseState in H;
    cbn [json.step json.parseState json.endTop json.err fst snd tl] in H;
    scan_cases H;
    cbn [json.step json.parseState json.endTop json.err fst snd tl] in H;
    scan_cases H;
    injection H as <- <-;
    cbn [json.step json.err];
    split; intros; try discriminate; try congruence.
Qed.

Lemma readValueFrom_shift (rest : bytes) :
  forall buf buf' rerr s n d,
    json.nonSpace buf = json.nonSpace buf' ->
    json.step s <> json.stError ->
    json.readValueFrom buf rerr s rest (n + d)
    = shift d (json.readValueFrom buf' rerr s rest n).
Proof.
  induction rest as [|c t IH]; intros buf buf' rerr s n d Hb Ha.
  - cbn [json.readValueFrom]. destruct rerr; [reflexivity|].
    destruct (json.opcode_eqb _ _); [reflexivity|].
    rewrite Hb. now destruct (json.nonSpace buf').
  - cbn [json.readValueFrom]. destruct (json.scan s c) as [s' op] eqn:Hs.
    destruct (scan_alive _ _ _ _ Hs Ha) as [He Hn].
    assert (Hend : forall s'' op',
               json.stateEndValue s' " " = (s'', op') ->
               json.opcode_eqb op' json.scanEnd = false ->
               json.step s'' <> json.stError).
    { intros s'' op' H E. rewrite stateEndValue_space in H.
      destruct (json.parseState s'); injection H as <- <-;
        [discriminate E | discriminate]. }
    destruct op;
      try (apply (IH buf buf' rerr s' (S n) d Hb); apply Hn; discriminate);
      try reflexivity.
    + destruct (json.stateEndValue s' " ") as [s'' op'] eqn:E2.
      destruct (json.opcode_eqb op' json.scanEnd) eqn:E3; [reflexivity|].
      apply (IH buf buf' rerr s'' (S n) d Hb). eapply Hend; eauto.
    + destruct (json.stateEndValue s' " ") as [s'' op'] eqn:E2.
      destruct (json.opcode_eqb op' json.scanEnd) eqn:E3; [reflexivity|].
      apply (IH buf buf' rerr s'' (S n) d Hb). eapply Hend; eauto.
    + unfold shift. cbn [snd fst].
      destruct (json.err s') eqn:E; [reflexivity|]. now elim (He eq_refl).
Qed.

Lemma build_space (ws data : bytes) :
  forallb json.isSpace ws = true ->
  json.build json.reset json.newBuilder (ws ++ data)
  = json.build json.reset json.newBuilder data.
Proof.
  induction ws as [|c t IH]; [reflexivity|].
  cbn [forallb]. intros H. apply andb_prop in H as [Hc Ht].
  cbn [app json.build]. rewrite (scan_reset_space c Hc). cbn. auto.
Qed.

Lemma valueOf_space (ws data : bytes) :
  forallb json.isSpace ws = true ->
  json.valueOf (ws ++ data) = json.valueOf data.
Proof. intros H. unfold json.valueOf. now rewrite build_space. Qed.

(** White space before the first value of the stream plays no part. *)
Lemma Decode_leading_space (ws body : bytes) (rerr : option error)
      (v : Product) :
  forallb json.isSpace ws = true ->
  json.Decode (json.mkReader (ws ++ body) rerr) v
  = json.Decode (json.mkReader body rerr) v.
Proof.
  intros H. unfold json.Decode, json.readValue. cbn [json.content json.readErr].
  rewrite (readValueFrom_space ws _ _ _ _ H). cbn [Nat.add].
  change (length ws) with (0 + length ws)%nat.
  rewrite (readValueFrom_shift body (ws ++ body) body rerr json.reset 0
             (length ws)).
  2: { rewrite nonSpace_app, (nonSpace_blank ws H). reflexivity. }
  2: { discriminate. }
  destruct (json.readValueFrom body rerr json.reset body 0) as [k [e|]];
    unfold shift; cbn [snd fst]; [reflexivity|].
  rewrite Nat.add_comm, firstn_app_2, valueOf_space by assumption. reflexivity.
Qed.

(** A proper prefix of a complete object is not a value: [readValue]
    reaches the end of the input and gives up there. *)
Lemma readValueFrom_cut (l : bytes) :
  forall s b bf ms rest,
    Inv s b -> json.top b = None -> rest <> [] ->
    json.build s b (l ++ rest) = Some bf ->
    json.stack bf = [] -> json.top bf = Some (json.Object ms) ->
    forall buf rerr n,
      json.readValueFrom buf rerr s l n = (0%nat, Some (endOfInput buf rerr)).
Proof.
  induction l as [|c t IH];
    intros s b bf ms rest Hinv Htop Hrest Hb Hst Hob buf rerr n.
  - cbn [json.readValueFrom app] in *. unfold endOfInput.
    destruct rerr as [e|]; [reflexivity|].
    destruct (json.opcode_eqb (snd (json.scan s " ")) json.scanEnd) eqn:E.
    + exfalso. apply opcode_eqb_eq in E.
      destruct (scan_space_end s E) as [Htp|[Hps Hl]].
      * destruct rest as [|c2 t2]; [congruence|].
        cbn [json.build] in Hb.
        pose proof (scan_endTop s c2 Htp) as Hend.
        destruct (json.scan s c2) as [s2 op2]. cbn in Hend. subst op2.
        cbn in Hb. discriminate.
      * assert (Hsb : json.stack b = []).
        { destruct Hinv as [Hlen _]. rewrite Hps in Hlen.
          now destruct (json.stack b). }
        exact (top_literal_only rest s b bf Hinv Hsb Hl Htop Hb ms Hob).
    + now destruct (json.nonSpace buf).
  - cbn [app json.build] in Hb.
    destruct (json.scan s c) as [s' op] eqn:Hs.
    destruct (json.feed b c op) as [b'|] eqn:Hf; [|discriminate].
    destruct (feed_step _ _ _ _ _ _ Hinv Htop Hs Hf)
      as [(Hi & Ht & Hr)|(Hstep & Ht & Hr)].
    + rewrite Hr.
      exact (IH s' b' bf ms rest Hi Ht Hrest Hb Hst Hob buf rerr (S n)).
    + exfalso. destruct (t ++ rest) as [|c2 t2] eqn:E.
      { apply app_eq_nil in E as [_ E]. contradiction. }
      cbn [json.build] in Hb.
      pose proof (scan_endTop s' c2 Hstep) as Hend.
      destruct (json.scan s' c2) as [s2 op2]. cbn in Hend. subst op2.
      cbn in Hb. discriminate.
Qed.

(** Decoding an object that was cut short fails with the error of the
    reader, or at the end of the stream with [io.ErrUnexpectedEOF]
    ([io.EOF] if nothing but white space arrived). *)
Lemma Decode_cut (body rest : bytes) (rerr : option error)
      (ms : list (bytes * json.value)) (v : Product) :
  json.valueOf (body ++ rest) = Some (json.Object ms) -> rest <> [] ->
  json.Decode (json.mkReader body rerr) v
  = Some (v, Some (endOfInput body rerr)).
Proof.
  intros Hv Hrest. unfold json.valueOf in Hv.
  destruct (json.build json.reset json.newBuilder (body ++ rest)) as [bf|] eqn:Hb;
    [|discriminate].
  destruct (json.stack bf) eqn:Hs; [|discriminate].
  unfold json.Decode, json.readValue. cbn [json.content json.readErr].
  now rewrite (readValueFrom_cut body json.reset json.newBuilder bf ms rest
                 Inv_reset eq_refl Hrest Hb Hs Hv body rerr 0%nat).
Qed.

(** If the bytes [l] make up one complete array, [readValue] stops after
    exactly these bytes, whatever follows them. *)
Lemma readValueFrom_array (l : bytes) :
  forall (s : json.scanner) (b bf : json.builder) elems,
    Inv s b -> json.top b = None ->
    json.build s b l = Some bf ->
    json.stack bf = [] -> json.top bf = Some (json.Array elems) ->
    forall buf rerr rest n,
      json.readValueFrom buf rerr s (l ++ rest) n = ((n + length l)%nat, None).
Proof.
  induction l as [|c t IH];
    intros s b bf elems Hinv Htop Hb Hst Hob buf rerr rest n.
  - exfalso. destruct Hinv as [Hlen Hlit].
    cbn in Hb. apply closeItem_spec in Hb as (H1 & H2 & H3 & H4 & H5).
    destruct (json.item b) as [i|] eqn:Ei.
    + destruct (json.stack b) as [|f st] eqn:Es.
      * destruct H5 as (c0 & r0 & H5); congruence.
      * rewrite Hst in H2. discriminate.
    + rewrite (H3 eq_refl) in Hob. congruence.
  - cbn [json.build] in Hb. cbn [app].
    destruct (json.scan s c) as [s' op] eqn:Hs.
    destruct (json.feed b c op) as [b'|] eqn:Hf; [|discriminate].
    destruct (feed_step _ _ _ _ _ _ Hinv Htop Hs Hf)
      as [(Hi & Ht & Hr)|(Hstep & Ht & Hr)]; rewrite Hr.
    + rewrite (IH s' b' bf elems Hi Ht Hb Hst Hob). cbn [length]. f_equal. lia.
    + destruct t as [|c2 t2].
      { cbn [length]. f_equal. lia. }
      exfalso. cbn [json.build] in Hb.
      pose proof (scan_endTop s' c2 Hstep) as Hend.
      destruct (json.scan s' c2) as [s2 op2]. cbn in Hend. subst op2.
      cbn in Hb. discriminate.
Qed.

(** Decoding a stream that starts with a complete array: the array does
    not fit the Product, and the bytes after it play no part. *)
Lemma Decode_array_prefix (arr rest : bytes) (rerr : option error)
      (elems : list json.value) (v : Product) :
  json.valueOf arr = Some (json.Array elems) ->
  json.Decode (json.mkReader (arr ++ rest) rerr) v
  = Some (v, Some (json.topTypeError (lit "array"))).
Proof.
  intros Hv. unfold json.Decode, json.readValue. cbn [json.content json.readErr].
  pose proof Hv as Hv'. unfold json.valueOf in Hv'.
  destruct (json.build json.reset json.newBuilder arr) as [bf|] eqn:Hb;
    [|discriminate].
  destruct (json.stack bf) eqn:Hs; [|discriminate].
  rewrite (readValueFrom_array arr json.reset json.newBuilder bf elems
             Inv_reset eq_refl Hb Hs Hv').
  cbn [Nat.add]. rewrite firstn_app, firstn_all, Nat.sub_diag.
  cbn [firstn]. rewrite app_nil_r, Hv. reflexivity.
Qed.

(** Decoding a stream that starts with [null]: nothing is stored. *)
Lemma Decode_null (rest : bytes) (rerr : option error) (v : Product) :
  rest <> [] \/ rerr = None ->
  json.Decode (json.mkReader (lit "null" ++ rest) rerr) v = Some (v, None).
Proof.
  intros H. unfold json.Decode, json.readValue. cbn [json.content json.readErr].
  destruct rest as [|c t].
  - destruct H as [H| ->]; [now elim H|]. reflexivity.
  - assert (Hr : json.readValueFrom (lit "null" ++ c :: t) rerr json.reset
                   (lit "null" ++ c :: t) 0 = (4%nat, None)).
    { cbn. unfold json.stateEndTop. destruct (negb (json.isSpace c)); reflexivity. }
    rewrite Hr. reflexivity.
Qed.

(** ** Numerals out of range *)

Lemma ParseUint_formatUint_any (u : Z) :
  0 <= u ->
  strconv.ParseUint (strconv.formatUint u)
  = if u <? 2 ^ 64 then Some u else None.
Proof.
  intros Hu. pose proof (formatUint_decimal u Hu) as Hd.
  unfold strconv.ParseUint.
  destruct (strconv.formatUint u) as [|c t] eqn:E.
  { now apply isDecimal_nonempty in Hd. }
  rewrite (parseDigits_decimal _ _ Hd). rewrite Z.mul_0_l, Z.add_0_l.
  reflexivity.
Qed.

(** A numeral out of the range of an [int] is refused. *)
Lemma ParseInt_FormatInt_range (i : Z) :
  ~ isInt i -> strconv.ParseInt (strconv.FormatInt i) = None.
Proof.
  unfold isInt. intros Hi. unfold strconv.FormatInt.
  destruct (i <? 0) eqn:E.
  - cbn [strconv.ParseInt]. change (byte_eqb "-" "-") with true.
    change (byte_eqb "-" "+") with false. cbn [orb negb andb].
    rewrite ParseUint_formatUint_any by lia.
    destruct (- i <? 2 ^ 64); [|reflexivity].
    replace (2 ^ 63 <? - i) with true by (symmetry; apply Z.ltb_lt; lia).
    reflexivity.
  - pose proof (formatUint_decimal i ltac:(lia)) as Hd.
    destruct (isDecimal_shape _ _ Hd) as (c & t & Heq & Hc & _).
    pose proof (ParseUint_formatUint_any i ltac:(lia)) as Hp.
    rewrite Heq in *. cbn [strconv.ParseInt].
    destruct (digit_byte c Hc) as (-> & -> & _). cbn [orb negb andb].
    rewrite Hp. destruct (i <? 2 ^ 64); [|reflexivity].
    replace (2 ^ 63 <=? i) with true by (symmetry; apply Z.leb_le; lia).
    reflexivity.
Qed.

Lemma storeField_int_range (i : Z) (q : Product) :
  ~ isInt i ->
  json.storeField (literalOf (strconv.FormatInt i)) fPrice q
  = Some (q, Some (json.fieldTypeError
                     (lit "number " ++ strconv.FormatInt i) fPrice)).
Proof.
  intros Hi. pose proof (ParseInt_FormatInt_range i Hi) as Hp.
  destruct (FormatInt_scan i) as (c & r & _ & _ & Heq & _ & _ & _ & Hc).
  rewrite Heq in *. unfold literalOf. cbn [hd tl json.storeField].
  unfold json.literalStore. rewrite Hp.
  destruct Hc as [Hc|Hc].
  - apply byte_eqb_eq in Hc. subst c. reflexivity.
  - destruct (digit_byte c Hc) as (_ & _ & -> & -> & -> & -> & -> & _).
    cbn [orb]. rewrite andb_false_r. reflexivity.
Qed.

(** ** Strings that are not valid UTF-8 *)

Lemma unquote_appendStringFrom_any (src : bytes) :
  forall k,
    json.unquoteFrom 0 (json.appendStringFrom k src) = Some (coerceFrom k src).
Proof.
  induction src as [|b t IH]; intros k.
  { now destruct k. }
  destruct k as [|k]; [|apply IH].
  cbn [json.appendStringFrom coerceFrom].
  unfold utf8.RuneSelf.
  destruct (b2z b <? 128) eqn:E.
  - assert (Hd : utf8.DecodeRune (b :: t) = (b2z b, 1%nat)).
    { unfold utf8.DecodeRune, utf8.RuneSelf. now rewrite E. }
    rewrite Hd. cbn [Nat.eqb andb Nat.sub].
    destruct (b2z b =? utf8.RuneError) eqn:Er.
    { apply Z.eqb_eq in Er. unfold utf8.RuneError in Er.
      pose proof (b2z_range b). lia. }
    cbn [andb firstn app].
    destruct (json.htmlSafeSet b) eqn:Es.
    + cbn [app json.unquoteFrom].
      destruct (safe_byte b Es) as (-> & -> & -> & E4 & _).
      unfold utf8.RuneSelf. rewrite E4. cbn [orb].
      now rewrite (IH 0%nat).
    + rewrite (unquote_escape b _ E Es). now rewrite (IH 0%nat).
  - rewrite DecodeRune_firstn4.
    destruct (utf8.DecodeRune (b :: t)) as [c size] eqn:Ed.
    destruct ((c =? utf8.RuneError) && (size =? 1)%nat) eqn:Einv.
    { change (json.unquoteFrom 0 (lit "\ufffd" ++ json.appendStringFrom 0 t))
        with (option_map (app (utf8.EncodeRune utf8.RuneError))
                (json.unquoteFrom 0 (json.appendStringFrom 0 t))).
      now rewrite (IH 0%nat). }
    assert (W : wellFormedAt (b :: t) c size).
    { apply DecodeRune_multi; auto. exists b, t. split; [reflexivity | lia]. }
    pose proof (IH (size - 1)%nat) as IHt.
    destruct ((c =? 8232) || (c =? 8233)) eqn:E2.
    + destruct W as (_ & _ & He & _).
      apply orb_true_iff in E2 as [E2|E2]; apply Z.eqb_eq in E2; subst c.
      * change (json.unquoteFrom 0 (lit "\u202" ++ json.hexDigit (8232 mod 16)
                  :: json.appendStringFrom (size - 1) t))
          with (option_map (app (utf8.EncodeRune 8232))
                  (json.unquoteFrom 0 (json.appendStringFrom (size - 1) t))).
        rewrite IHt, He. reflexivity.
      * change (json.unquoteFrom 0 (lit "\u202" ++ json.hexDigit (8233 mod 16)
                  :: json.appendStringFrom (size - 1) t))
          with (option_map (app (utf8.EncodeRune 8233))
                  (json.unquoteFrom 0 (json.appendStringFrom (size - 1) t))).
        rewrite IHt, He. reflexivity.
    + rewrite (unquote_high _ _ _ _ Ed W), IHt. reflexivity.
Qed.

Lemma coerceFrom_valid (src : bytes) :
  forall k, utf8.validFrom k src = true -> coerceFrom k src = skipn k src.
Proof.
  induction src as [|b t IH]; intros k Hv.
  { now destruct k. }
  destruct k as [|k]; [|apply IH, Hv].
  cbn [coerceFrom skipn]. cbn [utf8.validFrom] in Hv.
  destruct (utf8.DecodeRune (b :: t)) as [c size] eqn:Ed.
  destruct ((c =? utf8.RuneError) && (size =? 1)%nat) eqn:Einv;
    [discriminate|].
  rewrite (IH _ Hv).
  assert (Hs : (1 <= size)%nat).
  { unfold utf8.DecodeRune in Ed. revert Ed. split_ifs;
      repeat match goal with
             | |- context [match ?x with _ => _ end] => destruct x
             end; split_ifs; intros H; injection H; intros; subst; lia. }
  destruct size as [|n]; [lia|].
  cbn [firstn Nat.sub app]. rewrite Nat.sub_0_r. now rewrite firstn_skipn.
Qed.

Lemma validFrom_skip (l Y : bytes) :
  utf8.validFrom (length l) (l ++ Y) = utf8.validFrom 0 Y.
Proof.
  induction l as [|c t IH]; cbn [length app].
  - reflexivity.
  - cbn [utf8.validFrom]. exact IH.
Qed.

Lemma validFrom_rune (s : bytes) (r : Z) (size : nat) (Y : bytes) :
  utf8.DecodeRune s = (r, size) ->
  wellFormedAt s r size ->
  (r =? utf8.RuneError) && (size =? 1)%nat = false ->
  utf8.validFrom 0 (firstn size s ++ Y) = utf8.validFrom 0 Y.
Proof.
  intros Hd W Hok.
  pose proof (DecodeRune_prefix s r size Y Hd W) as Hp.
  destruct (wellFormedAt_cons s r size W) as (c & t & -> & Hc & Hf & Hl).
  rewrite Hf in *. cbn [app] in *. cbn [utf8.validFrom].
  rewrite Hp, Hok.
  set (l := firstn (size - 1) t) in *. rewrite <- Hl.
  apply validFrom_skip.
Qed.

Lemma validFrom_replacement (Y : bytes) :
  utf8.validFrom 0 (utf8.EncodeRune utf8.RuneError ++ Y) = utf8.validFrom 0 Y.
Proof. reflexivity. Qed.

Lemma DecodeRune_ascii (b : byte) (t : bytes) :
  (b2z b <? 128) = true -> utf8.DecodeRune (b :: t) = (b2z b, 1%nat).
Proof. intros E. unfold utf8.DecodeRune, utf8.RuneSelf. now rewrite E. Qed.

Lemma coerceFrom_is_valid (src : bytes) :
  forall k, utf8.validFrom 0 (coerceFrom k src) = true.
Proof.
  induction src as [|b t IH]; intros k.
  { now destruct k. }
  destruct k as [|k]; [|apply IH].
  cbn [coerceFrom].
  destruct (utf8.DecodeRune (b :: t)) as [c size] eqn:Ed.
  destruct ((c =? utf8.RuneError) && (size =? 1)%nat) eqn:Einv.
  { rewrite validFrom_replacement. apply IH. }
  destruct (b2z b <? 128) eqn:E.
  - rewrite (DecodeRune_ascii b t E) in Ed. injection Ed as <- <-.
    cbn [firstn app utf8.validFrom Nat.sub].
    rewrite (DecodeRune_ascii b _ E), Einv. apply IH.
  - assert (W : wellFormedAt (b :: t) c size).
    { apply DecodeRune_multi; auto. exists b, t. split; [reflexivity | lia]. }
    rewrite (validFrom_rune _ _ _ _ Ed W Einv). apply IH.
Qed.

Lemma unquoteBytes_appendString_any (src : bytes) :
  json.unquoteBytes (json.appendString [] src) = Some (coerce src).
Proof.
  unfold json.appendString. cbn [app].
  unfold json.unquoteBytes.
  replace (length (dq :: json.appendStringFrom 0 src ++ [dq]) <? 2)%nat
    with false.
  2: { symmetry. apply Nat.ltb_ge. cbn [length]. rewrite length_app.
       cbn [length]. lia. }
  change (dq :: json.appendStringFrom 0 src ++ [dq])
    with ((dq :: json.appendStringFrom 0 src) ++ [dq]).
  rewrite last_snoc, removelast_last, byte_eqb_refl. cbn [negb orb].
  exact (unquote_appendStringFrom_any src 0%nat).
Qed.

Lemma storeField_string_any (f : field) (src : bytes) (q : Product) :
  f <> fPrice ->
  json.storeField (literalOf (json.appendString [] src)) f q
  = Some (json.setString f (coerce src) q, None).
Proof.
  intros Hf. pose proof (unquoteBytes_appendString_any src) as Hu.
  unfold json.appendString in *. cbn [app] in *.
  unfold literalOf. cbn [hd tl json.storeField].
  unfold json.literalStore.
  change (byte_eqb dq "n") with false. change (byte_eqb dq "t") with false.
  change (byte_eqb dq "f") with false. rewrite byte_eqb_refl. cbn [orb].
  rewrite Hu. destruct f; try reflexivity. now elim Hf.
Qed.

(** Decoding the encoding of any Product gives the Product with its
    strings coerced to valid UTF-8. *)
Lemma object_structEncoder_any (p : Product) :
  isInt (Price p) ->
  json.object (map (memberOf p) fields) zeroProduct None
  = Some (coerced p, None).
Proof.
  intros H3.
  unfold fields, memberOf. cbn [map json.object].
  rewrite !unquoteBytes_fieldName, !lookupField_fieldName.
  cbn [json.encodeValue].
  rewrite (storeField_string_any fTitle _ _ ltac:(discriminate)).
  cbn [json.saveError].
  rewrite (storeField_string_any fDescription _ _ ltac:(discriminate)).
  cbn [json.saveError].
  rewrite (storeField_int _ _ H3). cbn [json.saveError].
  rewrite (storeField_string_any fBrand _ _ ltac:(discriminate)).
  cbn [json.saveError].
  rewrite (storeField_string_any fCategory _ _ ltac:(discriminate)).
  cbn [json.saveError]. reflexivity.
Qed.

Lemma Decode_structEncoder_any (p : Product) (rest : bytes)
      (rerr : option error) :
  isInt (Price p) ->
  json.Decode (json.mkReader (json.structEncoder p ++ rest) rerr) zeroProduct
  = Some (coerced p, None).
Proof.
  intros Hp.
  rewrite (Decode_object_prefix _ _ _ _ _ (valueOf_structEncoder p)).
  now apply object_structEncoder_any.
Qed.

Lemma coerce_valid (s : bytes) : utf8.ValidString s = true -> coerce s = s.
Proof. intros H. exact (coerceFrom_valid s 0%nat H). Qed.

Lemma coerce_is_valid (s : bytes) : utf8.ValidString (coerce s) = true.
Proof. exact (coerceFrom_is_valid s 0%nat). Qed.

Lemma coerced_valid (p : Product) : validProduct p -> coerced p = p.
Proof.
  intros (H1 & H2 & _ & H4 & H5). unfold coerced.
  rewrite !coerce_valid by assumption. now destruct p.
Qed.

Lemma coerced_is_valid (p : Product) :
  isInt (Price p) -> validProduct (coerced p).
Proof.
  intros H. unfold validProduct, coerced. cbn.
  repeat split; try apply coerce_is_valid; apply H.
Qed.

(** Decoding the encoding of a record whose price is no [int]: the
    strings are stored and the price is reported. *)
Lemma object_price_range (p : Product) :
  ~ isInt (Price p) ->
  json.object (map (memberOf p) fields) zeroProduct None
  = Some (mkProduct (coerce (Title p)) (coerce (Description p)) 0
                    (coerce (Brand p)) (coerce (Category p)),
          Some (json.fieldTypeError
                  (lit "number " ++ strconv.FormatInt (Price p)) fPrice)).
Proof.
  intros H3.
  unfold fields, memberOf. cbn [map json.object].
  rewrite !unquoteBytes_fieldName, !lookupField_fieldName.
  cbn [json.encodeValue].
  rewrite (storeField_string_any fTitle _ _ ltac:(discriminate)).
  cbn [json.saveError].
  rewrite (storeField_string_any fDescription _ _ ltac:(discriminate)).
  cbn [json.saveError].
  rewrite (storeField_int_range _ _ H3). cbn [json.saveError].
  rewrite (storeField_string_any fBrand _ _ ltac:(discriminate)).
  cbn [json.saveError].
  rewrite (storeField_string_any fCategory _ _ ltac:(discriminate)).
  cbn [json.saveError]. reflexivity.
Qed.

(** ** Keys in any case, and repeated keys *)

Lemma letter_byte_bool (c : byte) :
  implb (between "A" (toUpper c) "Z")
        (isLetter c
         && negb (byte_eqb c "\") && negb (byte_eqb c dq)
         && negb (b2z c <? 0x20) && (b2z c <? 0x80)
         && isInString (litStep json.stInString c)) = true.
Proof. revert c. apply forall_byte. vm_compute. reflexivity. Qed.

Lemma letter_byte (c : byte) :
  between "A" (toUpper c) "Z" = true ->
  isLetter c = true
  /\ byte_eqb c "\" = false /\ byte_eqb c dq = false
  /\ (b2z c <? 0x20) = false /\ (b2z c <? 0x80) = true
  /\ litStep json.stInString c = Some json.stInString.
Proof.
  intros H. pose proof (letter_byte_bool c) as B. rewrite H in B.
  cbn [implb] in B.
  repeat (apply andb_true_iff in B as [B ?]).
  repeat split; try (apply negb_true_iff; assumption); auto.
  now apply isInString_true.
Qed.

(** A key that is equal to the name of a field up to the case of its
    letters consists of letters. *)
Lemma folded_key_letters (f : field) (key : bytes) :
  map toUpper key = map toUpper (fieldName f) ->
  Forall (fun c => between "A" (toUpper c) "Z" = true) key.
Proof.
  intros H.
  assert (Hf : Forall (fun c => between "A" c "Z" = true)
                      (map toUpper (fieldName f))).
  { destruct f; repeat (apply Forall_cons; [reflexivity|]); apply Forall_nil. }
  rewrite <- H in Hf. apply Forall_map in Hf. exact Hf.
Qed.

Lemma letters_stringText (key : bytes) :
  Forall (fun c => between "A" (toUpper c) "Z" = true) key -> stringText key.
Proof.
  induction 1 as [|c t Hc _ IH]; [reflexivity|].
  change (c :: t) with ([c] ++ t). apply stringText_app; [|exact IH].
  apply stringText_one. now apply letter_byte.
Qed.

Lemma letters_unquoteFrom (key : bytes) :
  Forall (fun c => between "A" (toUpper c) "Z" = true) key ->
  json.unquoteFrom 0 key = Some key.
Proof.
  induction 1 as [|c t Hc _ IH]; [reflexivity|].
  cbn [json.unquoteFrom].
  destruct (letter_byte c Hc) as (_ & -> & -> & -> & E & _).
  unfold utf8.RuneSelf. rewrite E. cbn [orb]. now rewrite IH.
Qed.

Lemma letters_unquoteBytes (key : bytes) :
  Forall (fun c => between "A" (toUpper c) "Z" = true) key ->
  json.unquoteBytes (quoted key) = Some key.
Proof.
  intros H. unfold quoted, json.unquoteBytes.
  replace (length (dq :: key ++ [dq]) <? 2)%nat with false.
  2: { symmetry. apply Nat.ltb_ge. cbn [length]. rewrite length_app.
       cbn [length]. lia. }
  change (dq :: key ++ [dq]) with ((dq :: key) ++ [dq]).
  rewrite last_snoc, removelast_last, byte_eqb_refl. cbn [negb orb].
  now apply letters_unquoteFrom.
Qed.

Lemma letters_foldName (key : bytes) :
  Forall (fun c => between "A" (toUpper c) "Z" = true) key ->
  json.foldName key = map toUpper key.
Proof.
  unfold json.foldName.
  induction 1 as [|c t Hc _ IH]; [reflexivity|].
  cbn [json.foldNameFrom map].
  destruct (letter_byte c Hc) as (_ & _ & _ & _ & E & _).
  unfold utf8.RuneSelf. rewrite E. rewrite IH. reflexivity.
Qed.

(** The decoder finds the field of a key whatever the case of its
    letters. *)
Lemma lookupField_folded (f : field) (key : bytes) :
  map toUpper key = map toUpper (fieldName f) ->
  json.lookupField key = Some f.
Proof.
  intros H. pose proof (folded_key_letters f key H) as Hl.
  unfold json.lookupField.
  destruct (find (fun g => bytes_eqb (fieldName g) key) fields) as [g|] eqn:E.
  - apply find_some in E as [_ E]. apply bytes_eqb_eq in E. subst key.
    destruct g, f; try reflexivity; discriminate H.
  - rewrite (letters_foldName key Hl), H. destruct f; reflexivity.
Qed.

(** A key, the colon and the value of field [f], for any key that is
    the text of a string literal. *)
Lemma scanRun_member_key (key : bytes) (p : Product) (f : field)
      (stK : json.stepFn) :
  stringText key ->
  stK = json.stBeginString \/ stK = json.stBeginStringOrEmpty ->
  exists stV,
    afterValue stV
    /\ forall rest et ps er ms stk tp,
        scanRun (json.mkScanner stK et (json.parseObjectKey :: ps) er)
                (json.mkBuilder None (json.inObject ms None :: stk) tp)
                (dq :: key ++ dq :: ":" :: json.encodeValue p f ++ rest)
        = scanRun (json.mkScanner stV et (json.parseObjectValue :: ps) er)
                  (json.mkBuilder
                     (Some (hd "0" (json.encodeValue p f),
                            tl (json.encodeValue p f)))
                     (json.inObject ms (Some (quoted key)) :: stk) tp)
                  rest.
Proof.
  intros Hkey HK.
  destruct (encodeValue_scan p f) as (stV & HV & _ & Hrun).
  exists stV. split; [exact HV|].
  intros rest et ps er ms stk tp.
  rewrite scanRun_string;
    [| destruct HK as [->| ->]; [left | right; left]; reflexivity
     | exact Hkey].
  rewrite scanRun_cons, step_colon.
  cbn [json.feed json.closeItem json.item json.stack json.top json.deliver].
  apply Hrun.
Qed.

Lemma valueOf_singleMember (key : bytes) (p : Product) (f : field) :
  stringText key ->
  json.valueOf (singleMember key p f)
  = Some (json.Object [(quoted key, literalOf (json.encodeValue p f))]).
Proof.
  intros Hkey. unfold json.valueOf. rewrite build_run.
  unfold singleMember, json.reset, json.newBuilder.
  rewrite scanRun_cons, step_open_brace.
  cbn [json.feed json.closeItem json.item json.stack json.top json.push
         option_map].
  destruct (scanRun_member_key key p f json.stBeginStringOrEmpty Hkey
              (or_intror eq_refl)) as (stV & HV & Hrun).
  unfold json.push. cbn [json.item json.stack json.top].
  rewrite Hrun.
  pose proof (scanRun_fields p [] stV) as Hf.
  cbn [json.encodeFields app map] in Hf.
  rewrite (Hf _ _ _ _ _ _ HV).
  cbn [json.closeItem json.item json.stack json.top rev app map].
  reflexivity.
Qed.

(** Storing the value that [Marshal] wrote for a field sets that field
    and no other. *)
Lemma storeField_encodeValue (p z : Product) (f : field) :
  isInt (Price p) ->
  exists r,
    json.storeField (literalOf (json.encodeValue p f)) f z = Some (r, None)
    /\ fieldValue f r = fieldValue f (coerced p)
    /\ forall g, g <> f -> fieldValue g r = fieldValue g z.
Proof.
  intros Hp. destruct f; cbn [json.encodeValue].
  1,2,4,5: eexists; split;
    [apply storeField_string_any; discriminate|];
    split; [reflexivity|]; intros g Hg; destruct g; try reflexivity; now elim Hg.
  eexists. split; [apply (storeField_int _ _ Hp)|].
  split; [reflexivity|]. intros g Hg; destruct g; try reflexivity; now elim Hg.
Qed.

Lemma object_app (ms1 ms2 : list (bytes * json.value)) :
  forall p saved,
    json.object (ms1 ++ ms2) p saved =
    match json.object ms1 p saved with
    | Some (p', saved') => json.object ms2 p' saved'
    | None => None
    end.
Proof.
  induction ms1 as [|[k v] t IH]; intros p saved; cbn [app json.object].
  - reflexivity.
  - destruct (json.unquoteBytes k) as [key|]; [|reflexivity].
    destruct (json.lookupField key) as [f|]; [|apply IH].
    destruct (json.storeField v f p) as [[p' e]|]; [apply IH | reflexivity].
Qed.

(** A string literal stored into a string field. *)
Lemma storeField_literal (r text : bytes) (f : field) (p : Product) :
  json.unquoteBytes (dq :: r) = Some text -> f <> fPrice ->
  json.storeField (json.Literal dq r) f p = Some (json.setString f text p, None).
Proof.
  intros Hu Hf. cbn [json.storeField]. unfold json.literalStore.
  change (byte_eqb dq "n") with false. change (byte_eqb dq "t") with false.
  change (byte_eqb dq "f") with false. rewrite byte_eqb_refl. cbn [orb].
  rewrite Hu. destruct f; try reflexivity. now elim Hf.
Qed.

Lemma fieldValue_setString (f : field) (text : bytes) (p : Product) :
  f <> fPrice -> fieldValue f (json.setString f text p) = inl text.
Proof. intros Hf. destruct f; try reflexivity. now elim Hf. Qed.

(** The last member that selects a string field decides its value, if it
    is a string. *)
Lemma object_last_member (ms1 ms2 : list (bytes * json.value))
      (k r text : bytes) (f : field) (p q : Product) (e : option error) :
  selects k = Some f -> f <> fPrice ->
  json.unquoteBytes (dq :: r) = Some text ->
  (forall m, In m ms2 -> selects (fst m) <> Some f) ->
  json.object (ms1 ++ (k, json.Literal dq r) :: ms2) p None = Some (q, e) ->
  fieldValue f q = inl text.
Proof.
  intros Hk Hf Hu Hms H. rewrite object_app in H.
  destruct (json.object ms1 p None) as [[p1 s1]|]; [|discriminate].
  cbn [json.object] in H. unfold selects in Hk.
  destruct (json.unquoteBytes k) as [key|]; [|discriminate].
  rewrite Hk in H. rewrite (storeField_literal r text f p1 Hu Hf) in H.
  rewrite (object_untouched f ms2 _ _ _ _ Hms H).
  now apply fieldValue_setString.
Qed.

(** ** The bytes of the encoding *)

Lemma encoder_bytes_bool (c : byte) :
  implb (json.htmlSafeSet c) (plainByte c && asciiByte c)
  && forallb plainByte (json.escapeByte c)
  && forallb asciiByte (json.escapeByte c)
  && implb (0x80 <=? b2z c) (plainByte c)
  && implb (strconv.isDigit c) (plainByte c && asciiByte c) = true.
Proof. revert c. apply forall_byte. vm_compute. reflexivity. Qed.

Lemma encoder_bytes (c : byte) :
  (json.htmlSafeSet c = true -> plainByte c = true /\ asciiByte c = true)
  /\ forallb plainByte (json.escapeByte c) = true
  /\ forallb asciiByte (json.escapeByte c) = true
  /\ (0x80 <= b2z c -> plainByte c = true)
  /\ (strconv.isDigit c = true -> plainByte c = true /\ asciiByte c = true).
Proof.
  pose proof (encoder_bytes_bool c) as B.
  apply andb_true_iff in B as [B B5]. apply andb_true_iff in B as [B B4].
  apply andb_true_iff in B as [B B3]. apply andb_true_iff in B as [B1 B2].
  split; [|split; [exact B2|split; [exact B3|split]]].
  - intros E. rewrite E in B1. now apply andb_true_iff in B1.
  - intros E. apply Z.leb_le in E. rewrite E in B4. exact B4.
  - intros E. rewrite E in B5. now apply andb_true_iff in B5.
Qed.

Lemma forallb_Forall_plain (l : bytes) :
  Forall (fun b => 0x80 <= b2z b) l -> forallb plainByte l = true.
Proof.
  induction 1 as [|c t Hc _ IH]; [reflexivity|]. cbn [forallb].
  rewrite IH, andb_true_r.
  destruct (encoder_bytes c) as (_ & _ & _ & Hh & _). now apply Hh.
Qed.

(** The text that [appendString] writes has no control characters and
    none of the characters that are escaped for HTML. *)
Lemma appendStringFrom_plain (src : bytes) :
  forall k, forallb plainByte (json.appendStringFrom k src) = true.
Proof.
  induction src as [|b t IH]; intros k; cbn [json.appendStringFrom].
  { reflexivity. }
  destruct k as [|k]; [|apply IH].
  unfold utf8.RuneSelf.
  destruct (b2z b <? 128) eqn:E.
  - rewrite forallb_app, IH, andb_true_r.
    destruct (json.htmlSafeSet b) eqn:Es.
    + cbn [forallb]. rewrite andb_true_r.
      destruct (encoder_bytes b) as (Hs & _). now apply Hs.
    + now destruct (encoder_bytes b) as (_ & He & _).
  - rewrite DecodeRune_firstn4.
    destruct (utf8.DecodeRune (b :: t)) as [c size] eqn:Ed.
    destruct ((c =? utf8.RuneError) && (size =? 1)%nat) eqn:Einv.
    { rewrite forallb_app, IH. reflexivity. }
    assert (W : wellFormedAt (b :: t) c size).
    { apply DecodeRune_multi; auto. exists b, t. split; [reflexivity | lia]. }
    destruct ((c =? 8232) || (c =? 8233)) eqn:E2.
    + change (?a ++ ?h :: ?r) with (a ++ [h] ++ r).
      rewrite !forallb_app, IH, andb_true_r.
      apply orb_true_iff in E2 as [E2|E2]; apply Z.eqb_eq in E2; subst c;
        reflexivity.
    + rewrite forallb_app, IH, andb_true_r.
      apply forallb_Forall_plain. apply W.
Qed.

Lemma isDecimal_digits (u : Z) (l : bytes) :
  isDecimal u l -> forallb strconv.isDigit l = true.
Proof.
  induction 1 as [u Hu|u l Hu Hl IH].
  - cbn. now destruct (digit_spec u ltac:(lia)) as [-> _].
  - rewrite forallb_app, IH. cbn.
    now destruct (digit_spec (u mod 10) ltac:(lia)) as [-> _].
Qed.

Lemma digits_plain (l : bytes) :
  forallb strconv.isDigit l = true ->
  forallb plainByte l = true /\ forallb asciiByte l = true.
Proof.
  induction l as [|c t IH]; [now split|]. cbn [forallb].
  intros H. apply andb_true_iff in H as [Hc Ht].
  destruct (IH Ht) as [-> ->].
  destruct (encoder_bytes c) as (_ & _ & _ & _ & Hd).
  destruct (Hd Hc) as [-> ->]. now split.
Qed.

Lemma FormatInt_plain (i : Z) :
  forallb plainByte (strconv.FormatInt i) = true
  /\ forallb asciiByte (strconv.FormatInt i) = true.
Proof.
  unfold strconv.FormatInt. destruct (i <? 0) eqn:E.
  - destruct (digits_plain _ (isDecimal_digits _ _
                (formatUint_decimal (- i) ltac:(lia)))) as [H1 H2].
    cbn [forallb]. rewrite H1, H2. now split.
  - apply digits_plain. apply (isDecimal_digits i).
    apply formatUint_decimal. lia.
Qed.

Lemma encodeValue_plain (p : Product) (f : field) :
  forallb plainByte (json.encodeValue p f) = true.
Proof.
  destruct f; cbn [json.encodeValue]; unfold json.appendString;
    cbn [app forallb];
    try (rewrite forallb_app, appendStringFrom_plain; reflexivity).
  apply FormatInt_plain.
Qed.

(** The encoding of a Product has no control characters and none of the
    characters [<], [>] and [&]. *)
Lemma structEncoder_plain (p : Product) :
  forallb plainByte (json.structEncoder p) = true.
Proof.
  unfold json.structEncoder, fields. cbn [json.encodeFields].
  cbn [forallb app].
  repeat (rewrite ?forallb_app; cbn [forallb app fieldName];
          rewrite ?encodeValue_plain).
  reflexivity.
Qed.

Lemma validFrom_ascii (l Y : bytes) :
  forallb asciiByte l = true ->
  utf8.validFrom 0 (l ++ Y) = utf8.validFrom 0 Y.
Proof.
  induction l as [|c t IH]; [reflexivity|]. cbn [forallb].
  intros H. apply andb_true_iff in H as [Hc Ht]. unfold asciiByte in Hc.
  cbn [app utf8.validFrom]. rewrite (DecodeRune_ascii c _ Hc).
  destruct (b2z c =? utf8.RuneError) eqn:Er.
  { apply Z.eqb_eq in Er. unfold utf8.RuneError in Er.
    apply Z.ltb_lt in Hc. lia. }
  cbn [andb Nat.sub]. now apply IH.
Qed.

(** The text that [appendString] writes is valid UTF-8. *)
Lemma appendStringFrom_valid (src : bytes) :
  forall k Y,
    utf8.validFrom 0 (json.appendStringFrom k src ++ Y) = utf8.validFrom 0 Y.
Proof.
  induction src as [|b t IH]; intros k Y; cbn [json.appendStringFrom].
  { reflexivity. }
  destruct k as [|k]; [|apply IH].
  unfold utf8.RuneSelf.
  destruct (b2z b <? 128) eqn:E.
  - rewrite <- app_assoc.
    destruct (json.htmlSafeSet b) eqn:Es.
    + rewrite validFrom_ascii; [apply IH|]. cbn [forallb]. unfold asciiByte.
      now rewrite E.
    + rewrite validFrom_ascii; [apply IH|].
      now destruct (encoder_bytes b) as (_ & _ & He & _).
  - rewrite DecodeRune_firstn4.
    destruct (utf8.DecodeRune (b :: t)) as [c size] eqn:Ed.
    destruct ((c =? utf8.RuneError) && (size =? 1)%nat) eqn:Einv.
    { rewrite <- app_assoc. rewrite validFrom_ascii; [apply IH|reflexivity]. }
    assert (W : wellFormedAt (b :: t) c size).
    { apply DecodeRune_multi; auto. exists b, t. split; [reflexivity | lia]. }
    destruct ((c =? 8232) || (c =? 8233)) eqn:E2.
    + change (?a ++ ?h :: ?r) with (a ++ [h] ++ r).
      rewrite <- !app_assoc.
      rewrite validFrom_ascii by reflexivity.
      rewrite validFrom_ascii; [apply IH|].
      apply orb_true_iff in E2 as [E2|E2]; apply Z.eqb_eq in E2; subst c;
        reflexivity.
    + rewrite <- app_assoc.
      rewrite (validFrom_rune _ _ _ _ Ed W Einv). apply IH.
Qed.

Lemma encodeValue_valid (p : Product) (f : field) (Y : bytes) :
  utf8.validFrom 0 (json.encodeValue p f ++ Y) = utf8.validFrom 0 Y.
Proof.
  destruct f; cbn [json.encodeValue]; unfold json.appendString;
    cbn [app];
    try (change (dq :: ?a ++ ?Z) with ([dq] ++ a ++ Z);
         rewrite validFrom_ascii by reflexivity;
         rewrite <- app_assoc, appendStringFrom_valid;
         apply (validFrom_ascii [dq]); reflexivity).
  apply validFrom_ascii. apply FormatInt_plain.
Qed.

Lemma validFrom_ascii_cons (c : byte) (Y : bytes) :
  asciiByte c = true -> utf8.validFrom 0 (c :: Y) = utf8.validFrom 0 Y.
Proof.
  intros H. apply (validFrom_ascii [c] Y). cbn [forallb]. now rewrite H.
Qed.

(** The encoding of a Product is valid UTF-8. *)
Lemma structEncoder_valid (p : Product) :
  utf8.ValidString (json.structEncoder p) = true.
Proof.
  unfold utf8.ValidString, json.structEncoder, fields.
  cbn [json.encodeFields].
  norm_app. unfold fieldName, lit. cbn [list_ascii_of_string app].
  repeat first [ rewrite encodeValue_valid
               | rewrite validFrom_ascii_cons by reflexivity ].
  reflexivity.
Qed.

(** ** Nesting *)

Lemma scan_bracket (st : json.stepFn) et ps er :
  st = json.stBeginValue \/ st = json.stBeginValueOrEmpty ->
  json.scan (json.mkScanner st et ps er) "["
  = json.pushParseState (json.mkScanner json.stBeginValueOrEmpty et ps er) "["
                        json.parseArrayValue json.scanBeginArray.
Proof. intros [-> | ->]; reflexivity. Qed.

(** Opening brackets are scanned up to the depth of 10000; one more is an
    error. *)
Lemma readValueFrom_brackets (n : nat) :
  forall st et ps er buf rerr rest k,
    st = json.stBeginValue \/ st = json.stBeginValueOrEmpty ->
    Z.of_nat (length ps) <= json.maxNestingDepth ->
    json.maxNestingDepth < Z.of_nat (length ps + n) ->
    json.readValueFrom buf rerr (json.mkScanner st et ps er)
                       (brackets n ++ rest) k
    = (0%nat, Some (SyntaxError "[" (lit "exceeded max depth"))).
Proof.
  unfold json.maxNestingDepth.
  induction n as [|n IH]; intros st et ps er buf rerr rest k Hst Hps Hn.
  - lia.
  - cbn [brackets repeat app json.readValueFrom].
    rewrite (scan_bracket st et ps er Hst).
    unfold json.pushParseState, json.maxNestingDepth, json.setParseState,
      json.scanner_error.
    cbn [json.step json.endTop json.parseState json.err].
    destruct (Z.of_nat (length (json.parseArrayValue :: ps)) <=? 10000) eqn:E.
    + apply Z.leb_le in E. cbn [length] in E.
      apply (IH json.stBeginValueOrEmpty et (json.parseArrayValue :: ps) er
                buf rerr rest (S k)); [now right| |]; cbn [length]; lia.
    + reflexivity.
Qed.

Lemma Decode_too_deep (n : nat) (rest : bytes) (rerr : option error)
      (v : Product) :
  json.maxNestingDepth < Z.of_nat n ->
  json.Decode (json.mkReader (brackets n ++ rest) rerr) v
  = Some (v, Some (SyntaxError "[" (lit "exceeded max depth"))).
Proof.
  intros Hn. unfold json.Decode, json.readValue, json.reset.
  cbn [json.content json.readErr].
  rewrite (readValueFrom_brackets n json.stBeginValue false [] None);
    [reflexivity | now left | cbn; unfold json.maxNestingDepth; lia
     | exact Hn].
Qed.

(** ** The decoder does not panic *)

Ltac scan_unfold H :=
  unfold json.scan in H; cbn [json.step] in H;
  unfold json.stateBeginValue, json.stateBeginValueOrEmpty,
    json.stateBeginStringOrEmpty, json.stateBeginString,
    json.stateInString, json.stateInStringEsc, json.stateInStringEscHex,
    json.stateNeg, json.state1, json.state0, json.stateDot, json.stateDot0,
    json.stateE, json.stateESign, json.stateE0, json.stateInWord,
    json.stateBeginValue, json.stateEndValue, json.stateEndTop,
    json.pushParseState, json.popParseState, json.scanner_error,
    json.setStep, json.setParseState in H;
  cbn [json.step json.parseState json.endTop json.err fst snd tl] in H.

Ltac use_conds :=
  repeat match goal with
         | H : ?b = true |- context [?b] => rewrite H
         | H : ?b = false |- context [?b] => rewrite H
         end.

Ltac subst_byte :=
  repeat match goal with
         | H : byte_eqb ?c _ = true |- _ =>
           is_var c; apply byte_eqb_eq in H; subst c
         end.

Ltac goal_unfold :=
  unfold litStep, beginStep, json.scan; cbn [json.step];
  unfold json.stateBeginValue, json.stateBeginValueOrEmpty,
    json.stateBeginStringOrEmpty, json.stateBeginString,
    json.stateInString, json.stateInStringEsc, json.stateInStringEscHex,
    json.stateNeg, json.state1, json.state0, json.stateDot, json.stateDot0,
    json.stateE, json.stateESign, json.stateE0, json.stateInWord,
    json.stateBeginValue, json.stateEndValue, json.stateEndTop,
    json.pushParseState, json.popParseState, json.scanner_error,
    json.setStep, json.setParseState;
  cbn [json.step json.parseState json.endTop json.err fst snd tl].

Ltac facts_leaf :=
  first
    [ reflexivity
    | discriminate
    | solve [subst_byte; reflexivity]
    | solve [goal_unfold; use_conds; reflexivity]
    | solve [intros; subst_byte; reflexivity]
    | solve [intros Hk;
             match goal with
             | ps : list json.parseKind |- _ =>
               destruct ps as [|[] ?]; cbn in *; try discriminate;
               subst_byte; try reflexivity
             end ] ].

Lemma scan_facts (st : json.stepFn) et ps er (c : byte)
      (s' : json.scanner) (op : json.opcode) :
  headFits st ps = true ->
  json.scan (json.mkScanner st et ps er) c = (s', op) ->
  scanFacts st et ps er c s' op.
Proof.
  intros Hfit H.
  destruct st; try discriminate Hfit; scan_unfold H.
  all: scan_cases H;
    cbn [json.step json.parseState json.endTop json.err fst snd tl] in H;
    scan_cases H.
  all: injection H as <- <-.
  all: cbn [scanFacts json.err popped].
  all: try discriminate.
  all: try discriminate Hfit.
  all: try solve [exfalso; byte_contra].
  all: try solve [repeat match goal with
                         | |- _ /\ _ => split
                         | |- exists _, _ => eexists
                         end; facts_leaf].
  all: try solve [left; split; reflexivity].
  all: try solve [right; repeat split; try reflexivity; discriminate].
  all: try solve [eexists; split; [left; split; reflexivity | reflexivity]].
  all: try solve [eexists; split; [right; split; reflexivity | reflexivity]].
  all: try solve [eexists; split; [split; [left|]; reflexivity | reflexivity]].
  all: try solve [eexists; split; [split; [right|]; reflexivity | reflexivity]].
  all: try solve [split; [left; reflexivity | reflexivity]].
  all: try solve [split; [right; reflexivity | reflexivity]].
  all: match goal with
       | p : json.parseKind |- _ =>
         destruct p; try discriminate Hfit;
         eexists; split; [right; split; reflexivity | reflexivity]
       end.
Qed.

Lemma litState_headFits (st : json.stepFn) (ps : list json.parseKind) :
  litState st = true -> headFits st ps = true.
Proof. destruct st; try discriminate; reflexivity. Qed.

Lemma inLit_litState (st : json.stepFn) : inLit st = true -> litState st = true.
Proof. destruct st; try discriminate; reflexivity. Qed.

Lemma litDone_litState (st : json.stepFn) :
  litDone st = true -> litState st = true.
Proof. destruct st; try discriminate; reflexivity. Qed.

Lemma litDone_not_inLit (st : json.stepFn) :
  litDone st = true -> inLit st = false -> st = json.stEndValue.
Proof. destruct st; try discriminate; reflexivity. Qed.

Lemma isBegin_facts (st : json.stepFn) :
  isBegin st = true ->
  litState st = false /\ inLit st = false /\ st <> json.stEndValue.
Proof. destruct st; try discriminate; repeat split; discriminate. Qed.

Lemma delivered_some (st : json.stepFn) (i : byte * bytes) :
  delivered st (Some i) = false.
Proof. reflexivity. Qed.

Lemma expected_open (st : json.stepFn) (it : option (byte * bytes))
      (ps : list json.parseKind) :
  delivered st it = false -> expected st it ps = map expects ps.
Proof. intros H. unfold expected. rewrite H. now destruct ps. Qed.

Lemma litStep_string (st st' : json.stepFn) (c : byte) :
  inStringLit st = true -> litStep st c = Some st' ->
  inStringLit st' = true
  \/ (st = json.stInString /\ c = dq /\ st' = json.stEndValue).
Proof.
  intros Hs H. unfold litStep in H.
  destruct (json.scan (json.mkScanner st false [] None) c) as [s1 op] eqn:E.
  destruct op; try discriminate. injection H as <-.
  destruct st; try discriminate Hs; scan_unfold E; scan_cases E;
    try discriminate E;
    injection E as <-; cbn [json.step inStringLit]; auto.
  right. subst_byte. auto.
Qed.

Lemma litStep_endValue (c : byte) : litStep json.stEndValue c = None.
Proof.
  unfold litStep, json.scan. cbn [json.step]. unfold json.stateEndValue.
  cbn [json.parseState]. unfold json.stateEndTop.
  destruct (negb (json.isSpace c)); reflexivity.
Qed.

(** A run of the scanner from inside a string that ends with the string
    complete consists of text and the closing quote. *)
Lemma litRun_string (r : bytes) :
  forall st,
    inStringLit st = true ->
    litRun st r = Some json.stEndValue ->
    exists text, r = text ++ [dq] /\ litRun st text = Some json.stInString.
Proof.
  induction r as [|c t IH]; intros st Hs H.
  - cbn in H. injection H as ->. discriminate.
  - cbn [litRun] in H. destruct (litStep st c) as [st1|] eqn:E; [|discriminate].
    destruct (litStep_string st st1 c Hs E) as [Hs1|(-> & -> & ->)].
    + destruct (IH st1 Hs1 H) as (text & -> & Ht).
      exists (c :: text). split; [reflexivity|]. cbn [litRun]. now rewrite E.
    + destruct t as [|c2 t2].
      * exists []. split; reflexivity.
      * cbn [litRun] in H. now rewrite litStep_endValue in H.
Qed.

Lemma litRun_string_done (r : bytes) :
  forall st sb,
    inStringLit st = true -> litRun st r = Some sb -> litDone sb = true ->
    sb = json.stEndValue.
Proof.
  induction r as [|c t IH]; intros st sb Hs H Hd.
  - cbn in H. injection H as <-. destruct st; discriminate.
  - cbn [litRun] in H. destruct (litStep st c) as [st1|] eqn:E; [|discriminate].
    destruct (litStep_string st st1 c Hs E) as [Hs1|(-> & -> & ->)].
    + exact (IH st1 sb Hs1 H Hd).
    + destruct t as [|c2 t2].
      * cbn in H. now injection H.
      * cbn [litRun] in H. now rewrite litStep_endValue in H.
Qed.

Lemma wfLiteral_key (r : bytes) : wfLiteral dq r -> wfKey (dq :: r).
Proof.
  intros (sa & sb & Hb & Hr & Hd).
  change (beginStep dq) with (Some json.stInString) in Hb. injection Hb as <-.
  pose proof (litRun_string_done r json.stInString sb eq_refl Hr Hd) as ->.
  destruct (litRun_string r json.stInString eq_refl Hr) as (text & -> & Ht).
  exists text. split; [reflexivity | exact Ht].
Qed.

Lemma Sync_intro st et ps er it stk tp :
  headFits st ps = true ->
  forallb notKey (tl ps) = true ->
  map framePhase stk = expected st it ps ->
  tracks st ps it ->
  Forall frameWf stk ->
  tp = None ->
  Sync (json.mkScanner st et ps er) (json.mkBuilder it stk tp).
Proof. intros. repeat split; assumption. Qed.

(** Handing a literal over to the innermost container. *)
Lemma deliver_literal (c0 : byte) (r : bytes) (pk : json.parseKind)
      (fr : json.frame) (stk : list json.frame) (tp : option json.value) :
  framePhase fr = expects pk ->
  frameWf fr -> wfLiteral c0 r -> (pk = json.parseObjectKey -> c0 = dq) ->
  exists fr',
    json.deliver (json.Literal c0 r) (json.mkBuilder None (fr :: stk) tp)
    = Some (json.mkBuilder None (fr' :: stk) tp)
    /\ framePhase fr' = settled pk /\ frameWf fr'.
Proof.
  intros Hph Hwf Hl Hk.
  destruct fr as [vs|ms [k|]]; destruct pk; try discriminate Hph;
    cbn [json.deliver json.stack json.item json.top];
    eexists; (split; [reflexivity|]); (split; [reflexivity|]);
    cbn [frameWf] in *.
  - exact I.
  - destruct Hwf as [Hms Hkey]. split; [|exact I].
    apply Forall_cons; [|exact Hms]. split; [exact Hkey | exact Hl].
  - destruct Hwf as [Hms _]. split; [exact Hms|].
    rewrite (Hk eq_refl) in *. now apply wfLiteral_key.
Qed.

(** Handing an array or an object over to the container around it. *)
Lemma deliver_container (v : json.value) (pk : json.parseKind)
      (fr : json.frame) (stk : list json.frame) (tp : option json.value) :
  framePhase fr = expects pk -> notKey pk = true ->
  frameWf fr -> shallowWf v ->
  exists fr',
    json.deliver v (json.mkBuilder None (fr :: stk) tp)
    = Some (json.mkBuilder None (fr' :: stk) tp)
    /\ framePhase fr' = settled pk /\ frameWf fr'.
Proof.
  intros Hph Hn Hwf Hv.
  destruct fr as [vs|ms [k|]]; destruct pk; try discriminate Hph;
    try discriminate Hn;
    cbn [json.deliver json.stack json.item json.top];
    eexists; (split; [reflexivity|]); (split; [reflexivity|]);
    cbn [frameWf] in *.
  - exact I.
  - destruct Hwf as [Hms Hkey]. split; [|exact I].
    apply Forall_cons; [|exact Hms]. split; [exact Hkey | exact Hv].
Qed.

(** The end of the literal under construction, when the scanner meets
    a delimiter inside a container. *)
Lemma closeItem_sync st pk rest it stk tp :
  litDone st = true ->
  map framePhase stk = expected st it (pk :: rest) ->
  tracks st (pk :: rest) it ->
  Forall frameWf stk ->
  exists fr stk',
    json.closeItem (json.mkBuilder it stk tp)
    = Some (json.mkBuilder None (fr :: stk') tp)
    /\ framePhase fr = settled pk
    /\ map framePhase stk' = map expects rest
    /\ Forall frameWf (fr :: stk').
Proof.
  intros Hd Hph Htr Hwf. unfold json.closeItem. cbn [json.item json.stack json.top].
  destruct it as [[c0 r]|].
  - cbn [expected delivered] in Hph.
    destruct stk as [|fr stk']; [discriminate Hph|].
    cbn [map] in Hph. injection Hph as Hfr Hrest.
    destruct Htr as (_ & (sa & Hb & Hr) & Hk).
    inversion Hwf as [|? ? Hwf1 Hwf2]; subst.
    destruct (deliver_literal c0 r pk fr stk' tp Hfr Hwf1) as (fr' & -> & H1 & H2).
    { exists sa, st. auto. }
    { exact Hk. }
    exists fr', stk'. auto.
  - destruct Htr as (Hi & _).
    pose proof (litDone_not_inLit st Hd Hi) as ->.
    cbn [expected delivered] in Hph.
    destruct stk as [|fr stk']; [discriminate Hph|].
    cbn [map] in Hph. injection Hph as Hfr Hrest.
    exists fr, stk'. auto.
Qed.

(** Closing the innermost container: it goes to the container around it,
    or it is the value at the top. *)
Lemma close_container (v : json.value) et rest er stk' :
  forallb notKey rest = true ->
  map framePhase stk' = map expects rest ->
  Forall frameWf stk' -> shallowWf v -> wfTop v ->
  exists b',
    json.deliver v (json.mkBuilder None stk' None) = Some b'
    /\ ((json.parseState (popped et rest er) <> []
         /\ json.step (popped et rest er) = json.stEndValue
         /\ Sync (popped et rest er) b')
        \/ (json.parseState (popped et rest er) = [] /\ json.stack b' = []
            /\ json.item b' = None
            /\ exists v', json.top b' = Some v' /\ wfTop v')).
Proof.
  intros Hpar Hph Hwf Hv Ht.
  destruct rest as [|pk rest'].
  - destruct stk' as [|fr stk'']; [|discriminate Hph].
    eexists. split; [reflexivity|]. right. cbn. repeat split. eauto.
  - destruct stk' as [|fr stk'']; [discriminate Hph|].
    cbn [map] in Hph. injection Hph as Hfr Hrest.
    cbn [forallb] in Hpar. apply andb_true_iff in Hpar as [Hpk Hpar].
    inversion Hwf as [|? ? Hwf1 Hwf2]; subst.
    destruct (deliver_container v pk fr stk'' None Hfr Hpk Hwf1 Hv)
      as (fr' & -> & H1 & H2).
    eexists. split; [reflexivity|]. left. cbn [popped json.parseState json.step].
    split; [discriminate|]. split; [reflexivity|].
    apply Sync_intro; auto.
    + cbn [expected delivered map]. now rewrite H1, Hrest.
    + cbn. split; [reflexivity | discriminate].
Qed.

Lemma sync_step (s s' : json.scanner) (b : json.builder) (c : byte)
      (op : json.opcode) :
  Sync s b -> json.scan s c = (s', op) -> stepResult s' b c op.
Proof.
  destruct s as [st et ps er]. destruct b as [it stk tp].
  intros (Hfit & Hpar & Hph & Htr & Hwf & Htop) Hs.
  cbn [json.step json.parseState json.item json.stack json.top] in *.
  subst tp.
  pose proof (scan_facts st et ps er c s' op Hfit Hs) as F.
  assert (Hopen : forall st0, isBegin st0 = true ->
                    forall i, delivered st0 i = false).
  { intros st0 H i. destruct st0; try discriminate H; now destruct i. }
  assert (Hnone : tracks json.stEndValue ps None -> ps <> []).
  { intros [_ H]. now apply H. }
  destruct op; cbn [scanFacts stepResult] in *.
  - (* scanContinue *)
    destruct F as (Hin & st' & -> & Hl & Hls).
    destruct it as [[c0 r]|].
    2: { destruct Htr as [Hi _]. congruence. }
    destruct Htr as (_ & (sa & Hb & Hr) & Hk).
    eexists. split; [reflexivity|].
    apply Sync_intro;
      [now apply litState_headFits | exact Hpar | exact Hph | | exact Hwf
       | reflexivity].
    split; [exact Hls|]. split; [|exact Hk].
    exists sa. split; [exact Hb|]. rewrite litRun_app, Hr. cbn [litRun].
    now rewrite Hl.
  - (* scanBeginLiteral *)
    destruct F as (Hbg & st' & -> & Hb & Hin & Hk).
    destruct (isBegin_facts st Hbg) as (Hls & Hil & Hne).
    destruct it as [[c0 r]|].
    { destruct Htr as [Hi _]. congruence. }
    eexists. split; [reflexivity|].
    apply Sync_intro;
      [apply litState_headFits; now apply inLit_litState | exact Hpar | |
       | exact Hwf | reflexivity].
    + cbn [json.item json.stack]. rewrite Hph.
      rewrite !expected_open; auto.
    + split; [now apply inLit_litState|]. split; [|exact Hk].
      exists st'. split; [exact Hb | reflexivity].
  - (* scanBeginObject *)
    destruct F as (Hst & ->).
    assert (Hbg : isBegin st = true) by (destruct Hst as [-> | ->]; reflexivity).
    destruct (isBegin_facts st Hbg) as (Hls & Hil & Hne).
    destruct it as [[c0 r]|].
    { destruct Htr as [Hi _]. congruence. }
    eexists. split; [reflexivity|].
    apply Sync_intro; [reflexivity | | | | | reflexivity].
    + cbn [tl]. destruct ps as [|pk ps']; [reflexivity|].
      cbn [forallb tl] in *. rewrite Hpar, andb_true_r.
      destruct Hst as [-> | ->]; destruct pk; try discriminate Hfit; reflexivity.
    + cbn [json.stack json.push json.item map framePhase expected delivered].
      f_equal. rewrite Hph. apply expected_open. auto.
    + cbn. split; [reflexivity | discriminate].
    + apply Forall_cons; [|exact Hwf]. cbn. split; [apply Forall_nil | exact I].
  - (* scanObjectKey *)
    destruct F as (Hd & rest & -> & ->).
    destruct (closeItem_sync st _ rest it stk None Hd Hph Htr Hwf)
      as (fr & stk' & Hc & H1 & H2 & H3).
    cbn [json.feed]. rewrite Hc. eexists. split; [reflexivity|].
    apply Sync_intro; [reflexivity | exact Hpar | | | exact H3 | reflexivity].
    + cbn [expected delivered map]. now rewrite H1, H2.
    + cbn. split; [reflexivity | discriminate].
  - (* scanObjectValue *)
    destruct F as (Hd & rest & -> & ->).
    destruct (closeItem_sync st _ rest it stk None Hd Hph Htr Hwf)
      as (fr & stk' & Hc & H1 & H2 & H3).
    cbn [json.feed]. rewrite Hc. eexists. split; [reflexivity|].
    apply Sync_intro; [reflexivity | exact Hpar | | | exact H3 | reflexivity].
    + cbn [expected delivered map]. now rewrite H1, H2.
    + cbn. split; [reflexivity | discriminate].
  - (* scanEndObject *)
    destruct F as (rest & [(Hd & ->)|(-> & ->)] & ->).
    + destruct (closeItem_sync st _ rest it stk None Hd Hph Htr Hwf)
        as (fr & stk' & Hc & H1 & H2 & H3).
      cbn [json.feed]. rewrite Hc. cbn [json.stack json.top].
      destruct fr as [vs|ms [k|]]; try discriminate H1.
      apply Forall_cons_iff in H3 as [Hf Hwf2].
      cbn [frameWf] in Hf. destruct Hf as [Hms _].
      apply close_container; auto; try exact I.
      cbn. apply Forall_rev. exact Hms.
    + destruct it as [[c0 r]|].
      { destruct Htr as [Hi _]. discriminate Hi. }
      cbn [expected delivered] in Hph.
      destruct stk as [|fr stk']; [discriminate Hph|].
      cbn [map] in Hph. injection Hph as Hfr Hrest.
      destruct fr as [vs|ms [k|]]; try discriminate Hfr.
      apply Forall_cons_iff in Hwf as [Hf Hwf2].
      cbn [frameWf] in Hf. destruct Hf as [Hms _].
      cbn [json.feed json.closeItem json.item json.stack json.top].
      apply close_container; auto; try exact I.
      cbn. apply Forall_rev. exact Hms.
  - (* scanBeginArray *)
    destruct F as (Hst & ->).
    assert (Hbg : isBegin st = true) by (destruct Hst as [-> | ->]; reflexivity).
    destruct (isBegin_facts st Hbg) as (Hls & Hil & Hne).
    destruct it as [[c0 r]|].
    { destruct Htr as [Hi _]. congruence. }
    eexists. split; [reflexivity|].
    apply Sync_intro; [reflexivity | | | | | reflexivity].
    + cbn [tl]. destruct ps as [|pk ps']; [reflexivity|].
      cbn [forallb tl] in *. rewrite Hpar, andb_true_r.
      destruct Hst as [-> | ->]; destruct pk; try discriminate Hfit; reflexivity.
    + cbn [json.stack json.push json.item map framePhase expected delivered].
      f_equal. rewrite Hph. apply expected_open. auto.
    + cbn. split; [reflexivity | discriminate].
    + apply Forall_cons; [exact I | exact Hwf].
  - (* scanArrayValue *)
    destruct F as (Hd & rest & -> & ->).
    destruct (closeItem_sync st _ rest it stk None Hd Hph Htr Hwf)
      as (fr & stk' & Hc & H1 & H2 & H3).
    cbn [json.feed]. rewrite Hc. eexists. split; [reflexivity|].
    apply Sync_intro; [reflexivity | exact Hpar | | | exact H3 | reflexivity].
    + cbn [expected delivered map]. now rewrite H1, H2.
    + cbn. split; [reflexivity | discriminate].
  - (* scanEndArray *)
    destruct F as (rest & ([Hd | ->] & ->) & ->).
    + destruct (closeItem_sync st _ rest it stk None Hd Hph Htr Hwf)
        as (fr & stk' & Hc & H1 & H2 & H3).
      cbn [json.feed]. rewrite Hc. cbn [json.stack json.top].
      destruct fr as [vs|ms [k|]]; try discriminate H1.
      apply Forall_cons_iff in H3 as [_ Hwf2].
      apply close_container; auto; exact I.
    + destruct it as [[c0 r]|].
      { destruct Htr as [Hi _]. discriminate Hi. }
      cbn [expected delivered] in Hph.
      destruct stk as [|fr stk']; [discriminate Hph|].
      cbn [map] in Hph. injection Hph as Hfr Hrest.
      destruct fr as [vs|ms [k|]]; try discriminate Hfr.
      apply Forall_cons_iff in Hwf as [_ Hwf2].
      cbn [json.feed json.closeItem json.item json.stack json.top].
      apply close_container; auto; exact I.
  - (* scanSkipSpace *)
    destruct F as [(Hbg & ->)|(Hd & Hne & ->)].
    + destruct (isBegin_facts st Hbg) as (Hls & Hil & Hne).
      destruct it as [[c0 r]|].
      { destruct Htr as [Hi _]. congruence. }
      eexists. split; [reflexivity|]. now apply Sync_intro.
    + destruct ps as [|pk rest]; [now elim Hne|].
      destruct (closeItem_sync st _ rest it stk None Hd Hph Htr Hwf)
        as (fr & stk' & Hc & H1 & H2 & H3).
      cbn [json.feed]. rewrite Hc. eexists. split; [reflexivity|].
      apply Sync_intro; [reflexivity | exact Hpar | | | exact H3 | reflexivity].
      * cbn [expected delivered map]. now rewrite H1, H2.
      * cbn. split; [reflexivity | discriminate].
  - (* scanEnd *)
    destruct F as (Hd & ->).
    cbn [expected] in Hph. destruct stk; [|discriminate Hph].
    split; [reflexivity|].
    destruct it as [[c0 r]|].
    + destruct Htr as (_ & (sa & Hb & Hr) & _).
      exists c0, r. split; [reflexivity|]. exists sa, st. auto.
    + destruct Htr as (Hi & Hn).
      pose proof (litDone_not_inLit st Hd Hi) as ->. now elim (Hn eq_refl).
  - (* scanError *)
    exact F.
Qed.

Lemma Sync_reset : Sync json.reset json.newBuilder.
Proof.
  repeat split; try reflexivity. discriminate. apply Forall_nil.
Qed.

Lemma Sync_alive (s : json.scanner) (b : json.builder) :
  Sync s b -> json.step s <> json.stError.
Proof. intros (H & _) E. rewrite E in H. discriminate H. Qed.

Lemma shift_success (d n : nat) (r : nat * option error) :
  shift d r = (n, None) -> exists n', r = (n', None) /\ n = (n' + d)%nat.
Proof.
  destruct r as [k [e|]]; unfold shift; cbn [snd fst]; intros H.
  - discriminate.
  - injection H as <-. eauto.
Qed.

(** The end of a literal at the top level. *)
Lemma close_top_literal (s : json.scanner) (b : json.builder) (c0 : byte)
      (r : bytes) :
  Sync s b -> json.stack b = [] -> json.item b = Some (c0, r) ->
  wfLiteral c0 r ->
  exists bf v,
    json.closeItem b = Some bf
    /\ json.stack bf = [] /\ json.top bf = Some v /\ wfTop v.
Proof.
  intros _ Hs Hi Hw. unfold json.closeItem. rewrite Hi.
  unfold json.deliver. cbn [json.stack]. rewrite Hs.
  do 2 eexists. split; [reflexivity|]. cbn. auto.
Qed.

(** When [readValue] has delimited a value, the decoder finds one in
    these bytes, and it is made of what the scanner accepted. *)
Lemma build_complete (rest : bytes) :
  forall s b buf rerr n,
    Sync s b ->
    json.readValueFrom buf rerr s rest 0 = (n, None) ->
    exists bf v,
      json.build s b (firstn n rest) = Some bf
      /\ json.stack bf = [] /\ json.top bf = Some v /\ wfTop v.
Proof.
  induction rest as [|c t IH]; intros s b buf rerr n Hsync Hr.
  - cbn [json.readValueFrom] in Hr. destruct rerr; [discriminate|].
    destruct (json.opcode_eqb (snd (json.scan s " ")) json.scanEnd) eqn:E.
    2: { destruct (json.nonSpace buf); discriminate. }
    apply opcode_eqb_eq in E.
    destruct (json.scan s " ") as [s1 op] eqn:Hs. cbn [snd] in E. subst op.
    pose proof (sync_step _ _ _ _ _ Hsync Hs) as (Hst & c0 & r & Hi & Hw).
    rewrite firstn_nil. cbn [json.build].
    now apply (close_top_literal s b c0 r).
  - cbn [json.readValueFrom] in Hr.
    destruct (json.scan s c) as [s' op] eqn:Hs.
    pose proof (sync_step _ _ _ _ _ Hsync Hs) as R.
    assert (Hgo : forall b', json.feed b c op = Some b' -> Sync s' b' ->
              json.readValueFrom buf rerr s' t 1 = (n, None) ->
              exists bf v,
                json.build s b (firstn n (c :: t)) = Some bf
                /\ json.stack bf = [] /\ json.top bf = Some v /\ wfTop v).
    { intros b' Hf Hs' Hr'.
      change 1%nat with (0 + 1)%nat in Hr'.
      rewrite (readValueFrom_shift t buf buf rerr s' 0 1 eq_refl
                 (Sync_alive _ _ Hs')) in Hr'.
      apply shift_success in Hr' as (n' & Hr' & ->).
      destruct (IH s' b' buf rerr n' Hs' Hr') as (bf & v & Hb & H1 & H2 & H3).
      exists bf, v. rewrite Nat.add_1_r. cbn [firstn json.build].
      rewrite Hs, Hf. auto. }
    destruct op; cbn [stepResult] in R;
      try (destruct R as (b' & Hf & Hs'); now apply (Hgo b')).
    + (* scanEndObject *)
      destruct R as (b' & Hf & [(Hne & Hst & Hs')|(Hps & Hstk & Hit & v & Hv & Hw)]).
      * rewrite stateEndValue_space in Hr.
        destruct (json.parseState s') eqn:E; [now elim Hne|].
        cbn [json.opcode_eqb] in Hr.
        apply (Hgo b' Hf Hs').
        destruct s' as [st' et' ps' er']. cbn in Hst. subst st'. exact Hr.
      * rewrite stateEndValue_space, Hps in Hr. cbn [json.opcode_eqb] in Hr.
        injection Hr as <-. cbn [firstn json.build]. rewrite Hs, Hf.
        cbn [json.build]. unfold json.closeItem. rewrite Hit.
        exists b', v. auto.
    + (* scanEndArray *)
      destruct R as (b' & Hf & [(Hne & Hst & Hs')|(Hps & Hstk & Hit & v & Hv & Hw)]).
      * rewrite stateEndValue_space in Hr.
        destruct (json.parseState s') eqn:E; [now elim Hne|].
        cbn [json.opcode_eqb] in Hr.
        apply (Hgo b' Hf Hs').
        destruct s' as [st' et' ps' er']. cbn in Hst. subst st'. exact Hr.
      * rewrite stateEndValue_space, Hps in Hr. cbn [json.opcode_eqb] in Hr.
        injection Hr as <-. cbn [firstn json.build]. rewrite Hs, Hf.
        cbn [json.build]. unfold json.closeItem. rewrite Hit.
        exists b', v. auto.
    + (* scanEnd *)
      destruct R as (Hst & c0 & r & Hi & Hw). injection Hr as <-.
      cbn [firstn json.build]. now apply (close_top_literal s b c0 r).
    + (* scanError *)
      injection Hr as _ Hr. congruence.
Qed.

(** The bytes that [readValue] delimits hold a value. *)
Lemma valueOf_delimited (r : json.Reader) (n : nat) :
  json.readValue r = (n, None) ->
  exists v, json.valueOf (firstn n (json.content r)) = Some v /\ wfTop v.
Proof.
  unfold json.readValue. intros H.
  destruct (build_complete _ _ _ _ _ _ Sync_reset H)
    as (bf & v & Hb & H1 & H2 & H3).
  exists v. unfold json.valueOf. rewrite Hb, H1. auto.
Qed.

(** *** Unquoting what the scanner accepted *)

Lemma unquoteFrom_skipn (s : bytes) :
  forall k, json.unquoteFrom k s = json.unquoteFrom 0 (skipn k s).
Proof.
  induction s as [|c t IH]; intros k.
  - now destruct k.
  - destruct k as [|k]; [reflexivity|]. cbn [json.unquoteFrom skipn]. apply IH.
Qed.

Lemma string_byte_bool (c : byte) :
  match litStep json.stInString c with
  | Some json.stInString =>
    negb (byte_eqb c "\") && negb (byte_eqb c dq) && negb (b2z c <? 0x20)
  | Some json.stInStringEsc => byte_eqb c "\"
  | Some json.stEndValue => byte_eqb c dq
  | Some _ => false
  | None => true
  end = true.
Proof. revert c. apply forall_byte. vm_compute. reflexivity. Qed.

Lemma esc_byte_bool (e : byte) :
  match litStep json.stInStringEsc e with
  | Some json.stInString =>
    byte_eqb e dq || byte_eqb e "\" || byte_eqb e "/" || byte_eqb e "b"
    || byte_eqb e "f" || byte_eqb e "n" || byte_eqb e "r" || byte_eqb e "t"
  | Some json.stInStringEscU => byte_eqb e "u"
  | Some _ => false
  | None => true
  end = true.
Proof. revert e. apply forall_byte. vm_compute. reflexivity. Qed.

Lemma hex_byte_bool (h : byte) :
  (match litStep json.stInStringEscU h with
   | Some json.stInStringEscU1 => json.isHex h | Some _ => false | None => true
   end)
  && (match litStep json.stInStringEscU1 h with
      | Some json.stInStringEscU12 => json.isHex h | Some _ => false | None => true
      end)
  && (match litStep json.stInStringEscU12 h with
      | Some json.stInStringEscU123 => json.isHex h | Some _ => false | None => true
      end)
  && (match litStep json.stInStringEscU123 h with
      | Some json.stInString => json.isHex h | Some _ => false | None => true
      end)
  && implb (json.isHex h)
           (match json.hexVal h with
            | Some d => (0 <=? d) && (d <? 16)
            | None => false
            end
            && isSome (litStep json.stInStringEscU h)
            && isSome (litStep json.stInStringEscU1 h)
            && isSome (litStep json.stInStringEscU12 h)
            && isSome (litStep json.stInStringEscU123 h))
  && implb (isSome (json.hexVal h)) (json.isHex h) = true.
Proof. revert h. apply forall_byte. vm_compute. reflexivity. Qed.

(** The four hexadecimal digits of an escape, as the scanner sees them. *)
Lemma litRun_hex4 (t : bytes) :
  litRun json.stInStringEscU t = Some json.stInString ->
  exists h1 h2 h3 h4 t',
    t = h1 :: h2 :: h3 :: h4 :: t'
    /\ json.isHex h1 = true /\ json.isHex h2 = true
    /\ json.isHex h3 = true /\ json.isHex h4 = true
    /\ litRun json.stInString t' = Some json.stInString.
Proof.
  intros H.
  destruct t as [|h1 t]; [discriminate H|]. cbn [litRun] in H.
  pose proof (hex_byte_bool h1) as B1.
  destruct (litStep json.stInStringEscU h1) as [[]|]; try discriminate H;
    try (cbn in B1; discriminate B1).
  destruct t as [|h2 t]; [discriminate H|]. cbn [litRun] in H.
  pose proof (hex_byte_bool h2) as B2.
  destruct (litStep json.stInStringEscU1 h2) as [[]|]; try discriminate H;
    try (rewrite ?andb_false_r in B2; cbn in B2; rewrite ?andb_false_r in B2;
         discriminate B2).
  destruct t as [|h3 t]; [discriminate H|]. cbn [litRun] in H.
  pose proof (hex_byte_bool h3) as B3.
  destruct (litStep json.stInStringEscU12 h3) as [[]|]; try discriminate H;
    try (rewrite ?andb_false_r in B3; cbn in B3; rewrite ?andb_false_r in B3;
         discriminate B3).
  destruct t as [|h4 t]; [discriminate H|]. cbn [litRun] in H.
  pose proof (hex_byte_bool h4) as B4.
  destruct (litStep json.stInStringEscU123 h4) as [[]|]; try discriminate H;
    try (rewrite ?andb_false_r in B4; cbn in B4; rewrite ?andb_false_r in B4;
         discriminate B4).
  exists h1, h2, h3, h4, t.
  repeat (apply andb_true_iff in B1 as [B1 ?]).
  repeat (apply andb_true_iff in B2 as [B2 ?]).
  repeat (apply andb_true_iff in B3 as [B3 ?]).
  repeat (apply andb_true_iff in B4 as [B4 ?]).
  repeat split; auto.
Qed.

Lemma hexVal_isHex (h : byte) :
  json.isHex h = true -> exists d, json.hexVal h = Some d /\ 0 <= d < 16.
Proof.
  intros H. pose proof (hex_byte_bool h) as B.
  apply andb_true_iff in B as [B _]. apply andb_true_iff in B as [_ B].
  rewrite H in B. cbn [implb] in B.
  repeat (apply andb_true_iff in B as [B _]).
  destruct (json.hexVal h) as [d|]; [|discriminate].
  exists d. split; [reflexivity|]. lia.
Qed.

Lemma isHex_hexVal (h : byte) (d : Z) :
  json.hexVal h = Some d ->
  json.isHex h = true
  /\ exists a b c e,
      litStep json.stInStringEscU h = Some a
      /\ litStep json.stInStringEscU1 h = Some b
      /\ litStep json.stInStringEscU12 h = Some c
      /\ litStep json.stInStringEscU123 h = Some e.
Proof.
  intros H. pose proof (hex_byte_bool h) as B.
  apply andb_true_iff in B as [B B2]. apply andb_true_iff in B as [_ B1].
  rewrite H in B2. cbn [isSome implb] in B2. rewrite B2 in B1.
  cbn [implb] in B1. split; [exact B2|].
  repeat (apply andb_true_iff in B1 as [B1 ?]).
  destruct (litStep json.stInStringEscU h); [|discriminate].
  destruct (litStep json.stInStringEscU1 h); [|discriminate].
  destruct (litStep json.stInStringEscU12 h); [|discriminate].
  destruct (litStep json.stInStringEscU123 h); [|discriminate].
  eauto 10.
Qed.

(** If the bytes at the start of [s] are a [\u] escape for [getu4], the
    scanner reads them as one. *)
(** The steps of the scanner over a hexadecimal digit of an escape. *)
Lemma hex_steps (h : byte) (d : Z) :
  json.hexVal h = Some d ->
  litStep json.stInStringEscU h = Some json.stInStringEscU1
  /\ litStep json.stInStringEscU1 h = Some json.stInStringEscU12
  /\ litStep json.stInStringEscU12 h = Some json.stInStringEscU123
  /\ litStep json.stInStringEscU123 h = Some json.stInString.
Proof.
  intros H. pose proof (hex_byte_bool h) as B.
  destruct (isHex_hexVal h d H) as (_ & a & b & c & e & Ha & Hb & Hc & He).
  rewrite Ha, Hb, Hc, He in *.
  apply andb_true_iff in B as [B _]. apply andb_true_iff in B as [B _].
  apply andb_true_iff in B as [B B4]. apply andb_true_iff in B as [B B3].
  apply andb_true_iff in B as [B1 B2].
  destruct a; try discriminate B1. destruct b; try discriminate B2.
  destruct c; try discriminate B3. destruct e; try discriminate B4.
  auto.
Qed.

(** If the bytes at the start of [s] are a [\u] escape for [getu4], the
    scanner reads them as one. *)
Lemma getu4_scanned (s : bytes) :
  0 <= json.getu4 s ->
  exists l rem,
    s = l ++ rem /\ length l = 6%nat
    /\ forall st, litRun json.stInString (l ++ st) = litRun json.stInString st.
Proof.
  intros H. unfold json.getu4 in H.
  destruct s as [|b0 [|b1 [|h1 [|h2 [|h3 [|h4 rem]]]]]]; try (cbn in H; lia).
  destruct (byte_eqb b0 "\") eqn:E0; [|cbn in H; lia].
  destruct (byte_eqb b1 "u") eqn:E1; [|cbn in H; lia].
  cbn [andb] in H.
  destruct (json.hexVal h1) as [d1|] eqn:V1; [|lia].
  destruct (json.hexVal h2) as [d2|] eqn:V2; [|lia].
  destruct (json.hexVal h3) as [d3|] eqn:V3; [|lia].
  destruct (json.hexVal h4) as [d4|] eqn:V4; [|lia].
  apply byte_eqb_eq in E0, E1. subst b0 b1.
  exists ["\"; "u"; h1; h2; h3; h4], rem. split; [reflexivity|].
  split; [reflexivity|]. intros st. cbn [app].
  destruct (hex_steps h1 d1 V1) as (S1 & _).
  destruct (hex_steps h2 d2 V2) as (_ & S2 & _).
  destruct (hex_steps h3 d3 V3) as (_ & _ & S3 & _).
  destruct (hex_steps h4 d4 V4) as (_ & _ & _ & S4).
  change (litRun json.stInString ("\" :: "u" :: h1 :: h2 :: h3 :: h4 :: st))
    with (litRun json.stInStringEscU (h1 :: h2 :: h3 :: h4 :: st)).
  cbn [litRun]. rewrite S1. cbn [litRun]. rewrite S2. cbn [litRun].
  rewrite S3. cbn [litRun]. rewrite S4. reflexivity.
Qed.

Lemma litRun_skip_high (t : bytes) (k : nat) :
  Forall (fun b => 0x80 <= b2z b) (firstn k t) ->
  litRun json.stInString t = Some json.stInString ->
  litRun json.stInString (skipn k t) = Some json.stInString.
Proof.
  intros Hh Ht. rewrite <- (firstn_skipn k t) in Ht.
  rewrite litRun_app in Ht.
  now rewrite (high_bytes_stringText _ Hh) in Ht.
Qed.

Lemma skipn_length_le {A : Type} (k : nat) (l : list A) :
  (length (skipn k l) <= length l)%nat.
Proof. rewrite length_skipn. lia. Qed.

(** Every text that the scanner accepts inside a string literal can be
    unquoted. *)
Lemma unquoteFrom_total (n : nat) :
  forall text,
    (length text <= n)%nat -> stringText text ->
    exists u, json.unquoteFrom 0 text = Some u.
Proof.
  induction n as [|n IH]; intros text Hlen Ht.
  { destruct text; [exists []; reflexivity | cbn in Hlen; lia]. }
  destruct text as [|c t]; [exists []; reflexivity|].
  cbn [length] in Hlen.
  assert (IHt : forall t', (length t' <= length t)%nat -> stringText t' ->
                           exists u, json.unquoteFrom 0 t' = Some u).
  { intros t' Hl Hs. apply IH; [lia | exact Hs]. }
  unfold stringText in Ht. cbn [litRun] in Ht.
  pose proof (string_byte_bool c) as B.
  destruct (litStep json.stInString c) as [st1|] eqn:E; [|discriminate].
  destruct st1; try discriminate B.
  - (* the closing quote *)
    destruct t; [discriminate Ht|]. cbn [litRun] in Ht.
    now rewrite litStep_endValue in Ht.
  - (* a plain byte *)
    apply andb_true_iff in B as [B B3]. apply andb_true_iff in B as [B1 B2].
    apply negb_true_iff in B1, B2, B3.
    cbn [json.unquoteFrom]. rewrite B1, B2, B3. cbn [orb].
    destruct (b2z c <? utf8.RuneSelf) eqn:Ea.
    + destruct (IHt t (le_n _) Ht) as (u & ->). eexists. reflexivity.
    + destruct (utf8.DecodeRune (c :: t)) as [rr size] eqn:Ed.
      rewrite unquoteFrom_skipn.
      assert (Hs : stringText (skipn (size - 1) t)).
      { destruct ((rr =? utf8.RuneError) && (size =? 1)%nat) eqn:Einv.
        - apply andb_true_iff in Einv as [_ E1]. apply Nat.eqb_eq in E1.
          subst size. exact Ht.
        - assert (W : wellFormedAt (c :: t) rr size).
          { apply DecodeRune_multi; auto. exists c, t.
            split; [reflexivity|]. unfold utf8.RuneSelf in Ea. lia. }
          destruct (wellFormedAt_cons _ _ _ W) as (c1 & t1 & Heq & _ & Hf & _).
          injection Heq as <- <-.
          destruct W as (_ & _ & _ & Hall & _). rewrite Hf in Hall.
          apply Forall_cons_iff in Hall as [_ Hall].
          now apply litRun_skip_high. }
      destruct (IHt _ (skipn_length_le _ _) Hs) as (u & ->).
      eexists. reflexivity.
  - (* an escape *)
    apply byte_eqb_eq in B. subst c.
    destruct t as [|e t']; [discriminate Ht|]. cbn [litRun] in Ht.
    pose proof (esc_byte_bool e) as Be.
    destruct (litStep json.stInStringEsc e) as [st2|] eqn:Ee; [|discriminate].
    destruct st2; try discriminate Be.
    + (* one character *)
      assert (Hl : (length t' <= length (e :: t'))%nat) by (cbn; lia).
      destruct (IHt t' Hl Ht) as (u & Hu).
      cbn [json.unquoteFrom]. change (byte_eqb "\" "\") with true. cbn iota.
      rewrite Hu.
      repeat match goal with
             | |- context [byte_eqb e ?x] =>
               destruct (byte_eqb e x) eqn:?; cbn [orb]
             end;
        try (eexists; reflexivity).
      all: exfalso;
        repeat match goal with
               | H : byte_eqb _ _ = false |- _ => rewrite H in Be; clear H
               end;
        discriminate Be.
    + (* four hexadecimal digits *)
      apply byte_eqb_eq in Be. subst e.
      destruct (litRun_hex4 t' Ht)
        as (h1 & h2 & h3 & h4 & t'' & -> & H1 & H2 & H3 & H4 & Ht'').
      destruct (hexVal_isHex h1 H1) as (d1 & V1 & R1).
      destruct (hexVal_isHex h2 H2) as (d2 & V2 & R2).
      destruct (hexVal_isHex h3 H3) as (d3 & V3 & R3).
      destruct (hexVal_isHex h4 H4) as (d4 & V4 & R4).
      cbn [json.unquoteFrom]. change (byte_eqb "\" "\") with true. cbn iota.
      change (byte_eqb "u" dq || byte_eqb "u" "\" || byte_eqb "u" "/"
              || byte_eqb "u" "'") with false.
      change (byte_eqb "u" "b") with false. change (byte_eqb "u" "f") with false.
      change (byte_eqb "u" "n") with false. change (byte_eqb "u" "r") with false.
      change (byte_eqb "u" "t") with false. change (byte_eqb "u" "u") with true.
      cbn iota. cbv zeta.
      match goal with
      | |- context [json.getu4 ?x <? 0] => set (s := x)
      end.
      assert (Hg : json.getu4 s = ((d1 * 16 + d2) * 16 + d3) * 16 + d4).
      { unfold s, json.getu4.
        change (byte_eqb "\" "\" && byte_eqb "u" "u") with true.
        cbn iota. now rewrite V1, V2, V3, V4. }
      assert (Hnn : (json.getu4 s <? 0) = false).
      { apply Z.ltb_ge. rewrite Hg. lia. }
      rewrite Hnn.
      destruct (IHt t'') as (u5 & Hu5); [cbn; lia | exact Ht'' |].
      destruct (json.IsSurrogate (json.getu4 s)).
      2: { rewrite Hu5. eexists. reflexivity. }
      destruct (negb (json.utf16_DecodeRune (json.getu4 s)
                        (json.getu4 (skipn 6 s)) =? utf8.RuneError)) eqn:Edec.
      2: { rewrite Hu5. eexists. reflexivity. }
      assert (Hr2 : 0 <= json.getu4 (skipn 6 s)).
      { apply negb_true_iff in Edec. apply Z.eqb_neq in Edec.
        unfold json.utf16_DecodeRune in Edec.
        destruct ((55296 <=? json.getu4 s) && (json.getu4 s <? 56320)
                  && (56320 <=? json.getu4 (skipn 6 s))
                  && (json.getu4 (skipn 6 s) <? 57344)) eqn:Er;
          [|now elim Edec].
        repeat (apply andb_true_iff in Er as [Er ?]). lia. }
      change (skipn 6 s) with t'' in Hr2.
      destruct (getu4_scanned t'' Hr2) as (l & rem & Heq & Hl & Hrun).
      rewrite Heq, Hrun in Ht''.
      assert (H6 : json.unquoteFrom 6 t'' = json.unquoteFrom 0 rem).
      { rewrite Heq, <- Hl. apply unquoteFrom_skip. }
      rewrite H6.
      destruct (IHt rem) as (u & ->); [|exact Ht''|eexists; reflexivity].
      rewrite Heq. cbn [length]. rewrite length_app. lia.
Qed.

Lemma unquoteBytes_total (k : bytes) :
  wfKey k -> exists key, json.unquoteBytes k = Some key.
Proof.
  intros (text & -> & Ht). unfold json.unquoteBytes.
  replace (length (dq :: text ++ [dq]) <? 2)%nat with false.
  2: { symmetry. apply Nat.ltb_ge. cbn [length]. rewrite length_app.
       cbn [length]. lia. }
  change (dq :: text ++ [dq]) with ((dq :: text) ++ [dq]).
  rewrite last_snoc, removelast_last, byte_eqb_refl. cbn [negb orb].
  exact (unquoteFrom_total (length text) text (le_n _) Ht).
Qed.

(** *** Storing what the scanner accepted *)

Lemma begin_byte_bool (c : byte) :
  implb (isSome (beginStep c))
        (byte_eqb c "n" || byte_eqb c "t" || byte_eqb c "f" || byte_eqb c dq
         || byte_eqb c "-" || between "0" c "9") = true.
Proof. revert c. apply forall_byte. vm_compute. reflexivity. Qed.

(** Storing a literal that the scanner accepted does not panic. *)
Lemma literalStore_total (c : byte) (r : bytes) (f : field) (p : Product) :
  wfLiteral c r -> exists res, json.literalStore c r f p = Some res.
Proof.
  intros Hw. pose proof Hw as (sa & sb & Hb & Hr & Hd).
  pose proof (begin_byte_bool c) as B. rewrite Hb in B. cbn [isSome implb] in B.
  unfold json.literalStore.
  destruct (byte_eqb c "n"); [eexists; reflexivity|].
  destruct (byte_eqb c "t"); [eexists; reflexivity|].
  destruct (byte_eqb c "f"); [eexists; reflexivity|].
  cbn [orb] in *.
  destruct (byte_eqb c dq) eqn:Eq.
  - apply byte_eqb_eq in Eq. subst c.
    destruct (unquoteBytes_total _ (wfLiteral_key r Hw)) as (key & ->).
    destruct f; eexists; reflexivity.
  - cbn [orb] in B. destruct (byte_eqb c "-").
    + cbn [negb andb]. destruct f; try (eexists; reflexivity).
      destruct (strconv.ParseInt (c :: r)); eexists; reflexivity.
    + cbn [orb] in B. rewrite B. cbn [negb andb].
      destruct f; try (eexists; reflexivity).
      destruct (strconv.ParseInt (c :: r)); eexists; reflexivity.
Qed.

Lemma storeField_total (v : json.value) (f : field) (p : Product) :
  shallowWf v -> exists res, json.storeField v f p = Some res.
Proof.
  destruct v as [c r|vs|ms]; cbn [shallowWf json.storeField]; intros H.
  - now apply literalStore_total.
  - eexists; reflexivity.
  - eexists; reflexivity.
Qed.

Lemma object_total (ms : list (bytes * json.value)) :
  Forall memberWf ms ->
  forall p saved, exists res, json.object ms p saved = Some res.
Proof.
  induction 1 as [|[k v] ms [Hk Hv] _ IH]; intros p saved; cbn [json.object].
  - eexists; reflexivity.
  - cbn [fst snd] in *.
    destruct (unquoteBytes_total k Hk) as (key & ->).
    destruct (json.lookupField key) as [f|]; [|apply IH].
    destruct (storeField_total v f p Hv) as ([p' e] & ->). apply IH.
Qed.

Lemma unmarshal_total (v : json.value) (p : Product) :
  wfTop v -> exists res, json.unmarshal v p = Some res.
Proof.
  destruct v as [c r|vs|ms]; cbn [wfTop json.unmarshal]; intros Hw.
  - pose proof Hw as (sa & sb & Hb & Hr & Hd).
    pose proof (begin_byte_bool c) as B. rewrite Hb in B.
    cbn [isSome implb] in B.
    destruct (byte_eqb c "n"); [eexists; reflexivity|].
    destruct (byte_eqb c "t"); [eexists; reflexivity|].
    destruct (byte_eqb c "f"); [eexists; reflexivity|].
    cbn [orb] in *.
    destruct (byte_eqb c dq) eqn:Eq.
    + apply byte_eqb_eq in Eq. subst c.
      destruct (unquoteBytes_total _ (wfLiteral_key r Hw)) as (key & ->).
      eexists; reflexivity.
    + cbn [orb] in B. destruct (byte_eqb c "-").
      * eexists; reflexivity.
      * cbn [orb] in B. rewrite B. eexists; reflexivity.
  - eexists; reflexivity.
  - now apply object_total.
Qed.

(** [Decode] does not panic: for every stream it returns, with an error
    or without. *)
Lemma Decode_total (r : json.Reader) (v : Product) :
  exists res, json.Decode r v = Some res.
Proof.
  unfold json.Decode.
  destruct (json.readValue r) as [n [e|]] eqn:Hr.
  - eexists; reflexivity.
  - destruct (valueOf_delimited r n Hr) as (val & -> & Hw).
    now apply unmarshal_total.
Qed.
(** The members of a complete object are made of what the scanner
    accepted. *)
Lemma build_object_wf (data : bytes) :
  forall s b bf ms,
    Sync s b -> json.build s b data = Some bf ->
    json.stack bf = [] -> json.top bf = Some (json.Object ms) ->
    Forall memberWf ms.
Proof.
  induction data as [|c t IH]; intros s b bf ms Hsync Hb Hst Hob.
  - exfalso. cbn in Hb. destruct Hsync as (_ & _ & _ & _ & _ & Htop).
    apply closeItem_spec in Hb as (H1 & H2 & H3 & H4 & H5).
    destruct (json.item b) as [i|] eqn:Ei.
    + destruct (json.stack b) as [|f st] eqn:Es.
      * destruct H5 as (c0 & r0 & H5); congruence.
      * rewrite Hst in H2. discriminate.
    + rewrite (H3 eq_refl) in Hob. congruence.
  - cbn [json.build] in Hb.
    destruct (json.scan s c) as [s' op] eqn:Hs.
    destruct (json.feed b c op) as [b'|] eqn:Hf; [|discriminate].
    pose proof (sync_step _ _ _ _ _ Hsync Hs) as R.
    pose proof (scan_effect _ _ _ _ Hs) as He.
    assert (Hend : json.parseState s' = [] -> json.stack b' = [] ->
                   json.item b' = None ->
                   (exists v, json.top b' = Some v /\ wfTop v) ->
                   json.step s' = json.stEndTop ->
                   Forall memberWf ms).
    { intros Hps Hstk Hit (v & Hv & Hw) Hstep.
      destruct t as [|c2 t2].
      - cbn in Hb. unfold json.closeItem in Hb. rewrite Hit in Hb.
        injection Hb as <-. rewrite Hv in Hob. injection Hob as ->. exact Hw.
      - exfalso. cbn [json.build] in Hb.
        pose proof (scan_endTop s' c2 Hstep) as Hend.
        destruct (json.scan s' c2) as [s2 op2]. cbn in Hend. subst op2.
        cbn in Hb. discriminate. }
    destruct op; cbn [stepResult] in R;
      try (destruct R as (b'' & Hf' & Hs'); rewrite Hf in Hf';
           injection Hf' as <-; now apply (IH s' b' bf ms));
      try (cbn in Hf; discriminate Hf).
    + destruct R as (b'' & Hf' & [(_ & _ & Hs')|(Hps & Hstk & Hit & Hv)]);
        rewrite Hf in Hf'; injection Hf' as <-.
      * now apply (IH s' b' bf ms).
      * apply Hend; auto. cbn [scanEffect] in He.
        destruct He as (_ & _ & ->). now rewrite Hps.
    + destruct R as (b'' & Hf' & [(_ & _ & Hs')|(Hps & Hstk & Hit & Hv)]);
        rewrite Hf in Hf'; injection Hf' as <-.
      * now apply (IH s' b' bf ms).
      * apply Hend; auto. cbn [scanEffect] in He.
        destruct He as (_ & _ & ->). now rewrite Hps.
Qed.

Lemma valueOf_object_wf (obj : bytes) (ms : list (bytes * json.value)) :
  json.valueOf obj = Some (json.Object ms) -> Forall memberWf ms.
Proof.
  unfold json.valueOf. intros H.
  destruct (json.build json.reset json.newBuilder obj) as [bf|] eqn:Hb;
    [|discriminate].
  destruct (json.stack bf) eqn:Hs; [|discriminate].
  exact (build_object_wf obj _ _ bf ms Sync_reset Hb Hs H).
Qed.

(** Once an error is saved, it is the error of the object. *)
Lemma object_saved (ms : list (bytes * json.value)) :
  Forall memberWf ms ->
  forall p e, exists q, json.object ms p (Some e) = Some (q, Some e).
Proof.
  induction 1 as [|[k v] ms [Hk Hv] _ IH]; intros p e; cbn [json.object].
  - eexists; reflexivity.
  - cbn [fst snd] in *.
    destruct (unquoteBytes_total k Hk) as (key & ->).
    destruct (json.lookupField key) as [f|]; [|apply IH].
    destruct (storeField_total v f p Hv) as ([p' e'] & ->).
    cbn [json.saveError]. apply IH.
Qed.

(** The first member that does not fit its field decides the error of
    the object. *)
Lemma object_first_error (ms1 ms2 : list (bytes * json.value))
      (k : bytes) (v : json.value) (f : field) (p p1 p2 : Product)
      (err : error) :
  Forall memberWf ms2 ->
  json.object ms1 p None = Some (p1, None) ->
  selects k = Some f ->
  json.storeField v f p1 = Some (p2, Some err) ->
  exists q, json.object (ms1 ++ (k, v) :: ms2) p None = Some (q, Some err).
Proof.
  intros Hwf H1 Hk Hv. rewrite object_app, H1. cbn [json.object].
  unfold selects in Hk. destruct (json.unquoteBytes k) as [key|]; [|discriminate].
  rewrite Hk, Hv. cbn [json.saveError]. now apply object_saved.
Qed.

(** ** The first byte of a value *)

Lemma last_default {A : Type} (l : list A) (d d' : A) :
  l <> [] -> last l d = last l d'.
Proof.
  induction l as [|x [|y l] IH]; intros H; [now elim H | reflexivity |].
  change (last (y :: l) d = last (y :: l) d'). apply IH. discriminate.
Qed.

Lemma last_cons {A : Type} (a : A) (l : list A) (d : A) :
  last (a :: l) d = last l a.
Proof.
  destruct l as [|y l]; [reflexivity|].
  change (last (y :: l) d = last (y :: l) a). apply last_default. discriminate.
Qed.

Ltac root_norm :=
  unfold root, json.push in *;
  cbn [json.top json.stack json.item map frameByte headByte option_map fst] in *;
  rewrite ?last_cons in *;
  cbn [frameByte last] in *.

Ltac feed_inv :=
  repeat match goal with
         | H : None = Some _ |- _ => discriminate H
         | H : Some _ = Some _ |- _ => injection H; clear H; intros <-
         | H : _ = Some _ |- _ =>
           progress cbn [json.feed json.closeItem json.deliver json.push
                         option_map json.item json.stack json.top] in H
         end.

(** The first byte of the value stays what it is while the value is
    built. *)
Lemma feed_root (c : byte) (b b' : json.builder) (x : byte) (op : json.opcode) :
  json.top b = None -> root b = Some c ->
  json.feed b x op = Some b' -> root b' = Some c.
Proof.
  destruct b as [it stk tp]. cbn [json.top]. intros -> Hr Hf.
  destruct it as [[c0 r]|]; destruct stk as [|[vs|ms [k|]] stk'];
    destruct op; feed_inv; root_norm; try assumption; try discriminate.
  all: destruct stk' as [|[vs'|ms' [k'|]] stk'']; feed_inv; root_norm;
    try assumption; try discriminate.
Qed.

Lemma build_root (c : byte) (data : bytes) :
  forall s b bf,
    Sync s b -> root b = Some c ->
    json.build s b data = Some bf -> root bf = Some c.
Proof.
  induction data as [|x t IH]; intros s b bf Hsync Hr Hb.
  - cbn [json.build] in Hb.
    apply (feed_root c b bf " " json.scanSkipSpace); auto.
    apply Hsync.
  - cbn [json.build] in Hb.
    destruct (json.scan s x) as [s' op] eqn:Hs.
    destruct (json.feed b x op) as [b'|] eqn:Hf; [|discriminate].
    assert (Hr' : root b' = Some c).
    { apply (feed_root c b b' x op); auto. apply Hsync. }
    pose proof (sync_step _ _ _ _ _ Hsync Hs) as R.
    assert (Hdone : json.parseState s' = [] -> json.item b' = None ->
                    (op = json.scanEndObject \/ op = json.scanEndArray) ->
                    root bf = Some c).
    { intros Hps Hit Hop.
      assert (Hst : json.step s' = json.stEndTop).
      { destruct s as [st et ps er].
        assert (Hh : headFits st ps = true) by apply Hsync.
        pose proof (scan_facts _ _ _ _ _ _ _ Hh Hs) as F.
        destruct Hop as [-> | ->]; cbn [scanFacts] in F;
          destruct F as (rest & _ & ->); destruct rest; cbn in Hps;
            try discriminate; reflexivity. }
      destruct t as [|y t'].
      - cbn [json.build] in Hb. unfold json.closeItem in Hb.
        rewrite Hit in Hb. injection Hb as <-. exact Hr'.
      - cbn [json.build] in Hb.
        pose proof (scan_endTop s' y Hst) as E.
        destruct (json.scan s' y) as [s2 op2]. cbn [snd] in E. subst op2.
        discriminate Hb. }
    destruct op; cbn [stepResult] in R;
      try (destruct R as (b2 & Hf2 & Hs2);
           rewrite Hf in Hf2; injection Hf2 as <-;
           now apply (IH s' b' bf)).
    + destruct R as (b2 & Hf2 & [(_ & _ & Hs2)|(Hps & _ & Hit & _)]);
        rewrite Hf in Hf2; injection Hf2 as <-.
      * now apply (IH s' b' bf).
      * apply Hdone; auto.
    + destruct R as (b2 & Hf2 & [(_ & _ & Hs2)|(Hps & _ & Hit & _)]);
        rewrite Hf in Hf2; injection Hf2 as <-.
      * now apply (IH s' b' bf).
      * apply Hdone; auto.
    + discriminate Hf.
    + discriminate Hf.
Qed.

Lemma firstByte_all (c : byte) : firstByte c = true.
Proof. apply forall_byte. vm_compute. reflexivity. Qed.

(** A value starts with its first byte. *)
Lemma valueOf_root (x : byte) (rest : bytes) (v : json.value) :
  json.isSpace x = false ->
  json.valueOf (x :: rest) = Some v -> headByte v = x.
Proof.
  intros Hx Hv. unfold json.valueOf in Hv.
  destruct (json.build json.reset json.newBuilder (x :: rest)) as [bf|] eqn:Hb;
    [|discriminate].
  destruct (json.stack bf) eqn:Hstk; [|discriminate].
  cbn [json.build] in Hb.
  destruct (json.scan json.reset x) as [s1 op] eqn:Hs.
  destruct (json.feed json.newBuilder x op) as [b1|] eqn:Hf; [|discriminate].
  pose proof (firstByte_all x) as F. unfold firstByte in F.
  rewrite Hs in F. cbn [snd] in F.
  pose proof (sync_step _ _ _ _ _ Sync_reset Hs) as R.
  assert (Hroot : Sync s1 b1 -> root b1 = Some x -> headByte v = x).
  { intros Hs1 Hr1.
    pose proof (build_root x rest s1 b1 bf Hs1 Hr1 Hb) as Hrf.
    unfold root in Hrf. rewrite Hv in Hrf. now injection Hrf. }
  destruct op; try discriminate F; cbn [stepResult] in R;
    try (destruct R as (b2 & Hf2 & Hs2); rewrite Hf in Hf2;
         injection Hf2 as <-).
  - (* scanBeginLiteral *)
    apply Hroot; auto. cbn in Hf. injection Hf as <-. reflexivity.
  - (* scanBeginObject *)
    apply byte_eqb_eq in F. subst x.
    apply Hroot; auto. cbn in Hf. injection Hf as <-. reflexivity.
  - (* scanBeginArray *)
    apply byte_eqb_eq in F. subst x.
    apply Hroot; auto. cbn in Hf. injection Hf as <-. reflexivity.
  - (* scanSkipSpace *)
    congruence.
  - (* scanError *)
    discriminate Hf.
Qed.

(** A literal at the top level is the bytes that were read for it. *)
Lemma build_top_literal (data : bytes) :
  forall s b bf c0 r,
    Sync s b -> json.stack b = [] -> json.item b = Some (c0, r) ->
    json.build s b data = Some bf ->
    json.top bf = Some (json.Literal c0 (r ++ data)).
Proof.
  induction data as [|x t IH]; intros s b bf c0 r Hsync Hstk Hit Hb;
    destruct b as [it stk tp]; cbn [json.stack json.item] in Hstk, Hit;
    subst it stk.
  - cbn in Hb. injection Hb as <-. now rewrite app_nil_r.
  - cbn [json.build] in Hb.
    destruct (json.scan s x) as [s' op] eqn:Hs.
    destruct (json.feed _ x op) as [b'|] eqn:Hf; [|discriminate].
    pose proof (sync_step _ _ _ _ _ Hsync Hs) as R.
    destruct op; cbn in Hf; try discriminate Hf; injection Hf as <-;
      cbn [stepResult] in R; destruct R as (b2 & Hf2 & Hs2);
      cbn in Hf2; injection Hf2 as <-;
      try (destruct Hs2 as (_ & _ & _ & _ & _ & Ht); discriminate Ht).
    rewrite (IH s' _ bf c0 (r ++ [x]) Hs2 eq_refl eq_refl Hb).
    now rewrite <- app_assoc.
Qed.

Lemma valueOf_null (rest : bytes) (v : json.value) :
  json.valueOf ("n" :: rest) = Some v -> v = json.Literal "n" rest.
Proof.
  intros Hv. unfold json.valueOf in Hv.
  destruct (json.build json.reset json.newBuilder ("n" :: rest)) as [bf|] eqn:Hb;
    [|discriminate].
  destruct (json.stack bf); [|discriminate].
  cbn [json.build] in Hb.
  destruct (json.scan json.reset "n") as [s1 op] eqn:Hs.
  pose proof (sync_step _ _ _ _ _ Sync_reset Hs) as R.
  vm_compute in Hs. injection Hs as <- <-.
  cbn [stepResult] in R. destruct R as (b1 & Hf & Hs1).
  rewrite Hf in Hb. cbn in Hf. injection Hf as <-.
  rewrite (build_top_literal rest _ _ bf "n" [] Hs1 eq_refl eq_refl Hb) in Hv.
  now injection Hv as <-.
Qed.

Lemma word_byte_bool (c : byte) :
  implb (isSome (litStep json.stN c)) (byte_eqb c "u")
  && implb (isSome (litStep json.stNu c)) (byte_eqb c "l")
  && implb (isSome (litStep json.stNul c)) (byte_eqb c "l") = true.
Proof. revert c. apply forall_byte. vm_compute. reflexivity. Qed.

(** The only literal that starts with n is null. *)
Lemma wfLiteral_null (r : bytes) : wfLiteral "n" r -> r = lit "ull".
Proof.
  intros (sa & sb & Hb & Hr & Hd).
  vm_compute in Hb. injection Hb as <-.
  assert (W : forall st c e st',
             litStep st c = Some st' ->
             implb (isSome (litStep st c)) (byte_eqb c e) = true -> c = e).
  { intros st c e st' H1 H2. rewrite H1 in H2. cbn in H2.
    now apply byte_eqb_eq. }
  destruct r as [|a r]; [cbn in Hr; injection Hr as <-; discriminate Hd|].
  cbn [litRun] in Hr.
  destruct (litStep json.stN a) as [s1|] eqn:E1; [|discriminate].
  pose proof (word_byte_bool a) as B.
  apply andb_true_iff in B as [B Bc]. apply andb_true_iff in B as [Ba Bb].
  apply (W _ _ _ _ E1) in Ba. subst a. vm_compute in E1. injection E1 as <-.
  clear Bb Bc.
  destruct r as [|a r]; [cbn in Hr; injection Hr as <-; discriminate Hd|].
  cbn [litRun] in Hr.
  destruct (litStep json.stNu a) as [s1|] eqn:E1; [|discriminate].
  pose proof (word_byte_bool a) as B.
  apply andb_true_iff in B as [B Bc]. apply andb_true_iff in B as [Ba Bb].
  apply (W _ _ _ _ E1) in Bb. subst a. vm_compute in E1. injection E1 as <-.
  clear Ba Bc.
  destruct r as [|a r]; [cbn in Hr; injection Hr as <-; discriminate Hd|].
  cbn [litRun] in Hr.
  destruct (litStep json.stNul a) as [s1|] eqn:E1; [|discriminate].
  pose proof (word_byte_bool a) as B.
  apply andb_true_iff in B as [B Bc]. apply andb_true_iff in B as [Ba Bb].
  apply (W _ _ _ _ E1) in Bc. subst a. vm_compute in E1. injection E1 as <-.
  clear Ba Bb.
  destruct r as [|a r]; [reflexivity|].
  cbn [litRun] in Hr. rewrite litStep_endValue in Hr. discriminate.
Qed.

Lemma span_space (l : bytes) :
  exists ws tl,
    l = ws ++ tl /\ forallb json.isSpace ws = true
    /\ match tl with [] => True | x :: _ => json.isSpace x = false end.
Proof.
  induction l as [|c l (ws & tl & E & Hw & Ht)].
  - exists [], []. auto.
  - destruct (json.isSpace c) eqn:Hc.
    + exists (c :: ws), tl. subst l. cbn [app forallb]. rewrite Hc. auto.
    + exists [], (c :: l). auto.
Qed.

(** The decoder succeeds only on a body that starts, after white space,
    with the opening brace of an object or with the literal null, which
    leaves the value as it was. *)
Lemma Decode_success_head (r : json.Reader) (v q : Product) :
  json.Decode r v = Some (q, None) ->
  exists ws rest,
    forallb json.isSpace ws = true
    /\ (json.content r = ws ++ "{" :: rest
        \/ (json.content r = ws ++ lit "null" ++ rest /\ q = v)).
Proof.
  destruct r as [body rerr]. cbn [json.content]. intros Hd.
  destruct (span_space body) as (ws & tl & -> & Hw & Ht).
  rewrite (Decode_leading_space ws tl rerr v Hw) in Hd.
  destruct tl as [|x rest].
  { rewrite (Decode_blank [] rerr v eq_refl) in Hd. discriminate. }
  unfold json.Decode in Hd. cbn [json.content] in Hd.
  destruct (json.readValue (json.mkReader (x :: rest) rerr)) as [n [e|]] eqn:Hr;
    [discriminate|].
  destruct (valueOf_delimited _ _ Hr) as (val & Hv & Hwf).
  cbn [json.content] in Hv. rewrite Hv in Hd.
  destruct n as [|n]; [discriminate Hv|].
  cbn [firstn] in Hv.
  pose proof (valueOf_root x _ val Ht Hv) as Hh.
  destruct val as [c0 r0|elems|ms]; cbn [headByte] in Hh; subst x.
  - unfold json.unmarshal in Hd.
    destruct (byte_eqb c0 "n") eqn:En.
    + apply byte_eqb_eq in En. subst c0. injection Hd as <-.
      apply valueOf_null in Hv. injection Hv as ->.
      apply wfLiteral_null in Hwf.
      exists ws, (skipn n rest). split; [exact Hw|]. right.
      split; [|reflexivity].
      rewrite <- (firstn_skipn n rest) at 1. now rewrite Hwf.
    + destruct (byte_eqb c0 "t" || byte_eqb c0 "f"); [discriminate|].
      destruct (byte_eqb c0 dq).
      * destruct (json.unquoteBytes (c0 :: r0)); discriminate.
      * destruct (negb (byte_eqb c0 "-") && negb (between "0" c0 "9"));
          discriminate.
  - discriminate Hd.
  - exists ws, rest. auto.
Qed.

(** ** Lemmas on the two implementations of AddProduct *)

Section ExtraLemmas.

Variable Quote : bytes -> bytes.
Variable parseRest : bytes -> option error.

(** The test double with the standard marshaler is the service. *)
Lemma testAddProduct_standard (url : bytes) (c : option http.Client)
      (m : option MarshalFunc) (p : Product) :
  testAddProduct Quote parseRest (mkTestService url c DefaultMarshal) p
  = out (AddProduct Quote parseRest (mkService url c m) p).
Proof.
  unfold testAddProduct, AddProduct, DefaultMarshal.
  cbn [marshaler t_apiURL t_client apiURL client json.Marshal].
  repeat match goal with
         | |- context [match ?x with _ => _ end] => destruct x
         | |- context [if ?x then _ else _] => destruct x
         end; reflexivity.
Qed.

Lemma testAddProduct_marshal_error (s : testProductService) (p : Product)
      (err : error) :
  marshaler s p = inr err ->
  testAddProduct Quote parseRest s p
  = Returns zeroProduct
      (Some (Errorf_w Quote (lit "failed to marshal product: ") err)).
Proof. intros H. unfold testAddProduct. now rewrite H. Qed.

(** The outcome of AddProduct, given the answer of the client to its
    request. *)
Lemma AddProduct_answer (s : productService) (p : Product)
      (c : http.Client) (req : http.Request) :
  client s = Some c ->
  In (evDo req) (trace (AddProduct Quote parseRest s p)) ->
  out (AddProduct Quote parseRest s p) =
  match http.Do c req with
  | inr err =>
    Returns zeroProduct
      (Some (Errorf_w Quote (lit "failed to send request: ") err))
  | inl resp =>
    if negb (http.StatusCode resp =? 200) && negb (http.StatusCode resp =? 201)
    then Returns zeroProduct
           (Some (Errorf_d (lit "unexpected status code: ")
                    (http.StatusCode resp)))
    else
      match json.Decode (http.Body resp) zeroProduct with
      | None => Panics
      | Some (_, Some err) =>
        Returns zeroProduct
          (Some (Errorf_w Quote (lit "failed to decode response: ") err))
      | Some (result, None) => Returns result None
      end
  end.
Proof.
  intros Hc Hin.
  destruct (AddProduct_path Quote parseRest s p) as
      [e Hu|Hu Hn|c' e Hu Hc' Hd|c' r Hu Hc' Hd H1 H2|c' r Hu Hc' Hd Hs Hj
       |c' r res e Hu Hc' Hd Hs Hj|c' r res Hu Hc' Hd Hs Hj];
    cbn [out after trace] in *; simpl in Hin;
    repeat match type of Hin with
           | _ \/ _ => destruct Hin as [Hin|Hin]
           | False => contradiction
           | evDo _ = evDo _ => injection Hin as <-
           | evClose = evDo _ => discriminate
           end;
    rewrite Hc in Hc'; injection Hc' as <-; rewrite Hd.
  - reflexivity.
  - destruct (Z.eqb_spec (http.StatusCode r) 200); [contradiction|].
    destruct (Z.eqb_spec (http.StatusCode r) 201); [contradiction|].
    reflexivity.
  - rewrite Hj. destruct Hs as [-> | ->]; reflexivity.
  - rewrite Hj. destruct Hs as [-> | ->]; reflexivity.
  - rewrite Hj. destruct Hs as [-> | ->]; reflexivity.
Qed.

(** The request that AddProduct hands to the client. *)
Lemma AddProduct_request (s : productService) (p : Product)
      (req : http.Request) :
  In (evDo req) (trace (AddProduct Quote parseRest s p)) ->
  http.Method req = http.MethodPost
  /\ http.URL req = apiURL s
  /\ http.header req = [(lit "Content-Type", [lit "application/json"])]
  /\ http.reqBody req = json.structEncoder p.
Proof.
  intros Hin.
  destruct (AddProduct_path Quote parseRest s p);
    cbn [out after trace] in *; simpl in Hin;
    repeat match type of Hin with
           | _ \/ _ => destruct Hin as [Hin|Hin]
           | False => contradiction
           | evDo _ = evDo _ => injection Hin as <-
           | evClose = evDo _ => discriminate
           end; repeat split.
Qed.

End ExtraLemmas.

(** ** The properties *)

Section Extras.

Variable Quote : bytes -> bytes.
Variable parseRest : bytes -> option error.

Local Abbreviation AddProduct := (AddProduct Quote parseRest).
Local Abbreviation testAddProduct := (testAddProduct Quote parseRest).
Local Abbreviation Error := (Error Quote).

Ltac paths s p :=
  destruct (AddProduct_path Quote parseRest s p); cbn [out after trace] in *.

Ltac the_request Hin :=
  simpl in Hin;
  repeat match type of Hin with
         | _ \/ _ => destruct Hin as [Hin|Hin]
         | False => contradiction
         | evDo _ = evDo _ => injection Hin as <-
         | evClose = evDo _ => discriminate
         end.

Ltac answer Hc Hin :=
  rewrite (AddProduct_answer Quote parseRest _ _ _ _ Hc Hin).

Ltac status_ok Hcode :=
  let H := fresh in
  match type of Hcode with
  | http.StatusCode ?r = 200 \/ _ =>
    assert (H : negb (http.StatusCode r =? 200)
                && negb (http.StatusCode r =? 201) = false)
      by (destruct Hcode as [-> | ->]; reflexivity);
    rewrite H; clear H
  end.

(** X1. When the client fails to deliver a response, AddProduct returns
    the zero Product and an error whose message is "failed to send
    request: " followed by the client's message and which wraps the
    client's error; the request is the only event: there is no body to
    close. *)
Theorem X1_send_failure (s : productService) (p : Product)
        (c : http.Client) (req : http.Request) (err : error) :
  client s = Some c ->
  In (evDo req) (trace (AddProduct s p)) ->
  http.Do c req = inr err ->
  exists e,
    out (AddProduct s p) = Returns zeroProduct (Some e)
    /\ Error e = lit "failed to send request: " ++ Error err
    /\ Unwrap e = Some err
    /\ trace (AddProduct s p) = [evDo req].
Proof.
  intros Hc Hin Hdo.
  paths s p; the_request Hin;
    match goal with
    | H : client s = Some ?c' |- _ =>
      rewrite Hc in H; injection H as <-
    end; try congruence.
  match goal with
  | H : http.Do c _ = inr ?e |- _ => rewrite Hdo in H; injection H as <-
  end.
  eexists. repeat split.
Qed.

(** X2. AddProduct sends at most one request, and it closes the body of
    the response exactly once, after the request, whenever the client
    delivered a response: on success, on a status error, on a decoding
    error.  Without a response nothing is closed. *)
Theorem X2_body_closed (s : productService) (p : Product) :
  (trace (AddProduct s p) = []
   \/ (exists req, trace (AddProduct s p) = [evDo req])
   \/ (exists req, trace (AddProduct s p) = [evDo req; evClose]))
  /\ (In evClose (trace (AddProduct s p)) <->
      exists c req resp,
        client s = Some c /\ In (evDo req) (trace (AddProduct s p))
        /\ http.Do c req = inl resp).
Proof.
  paths s p.
  all: split; [eauto|].
  all: split; [intros Hin | intros (c0 & req & resp0 & Hc & Hin & Hdo)].
  all: try solve [simpl in Hin; intuition discriminate].
  all: try solve [left; simpl; tauto].
  all: try solve [simpl; tauto].
  all: try solve [do 3 eexists; split; [eassumption|]; split;
                  [left; reflexivity|eassumption]].
  - the_request Hin. congruence.
Qed.

(** X3. A service without a client (as NewProductService gives for a nil
    client) never sends anything: AddProduct returns the request creation
    error if the URL is rejected, and otherwise panics at the use of the
    client. *)
Theorem X3_nil_client (s : productService) (p : Product) :
  client s = None ->
  trace (AddProduct s p) = []
  /\ (forall err,
         http.url_Parse parseRest (apiURL s) = Some err ->
         out (AddProduct s p)
         = Returns zeroProduct
             (Some (Errorf_w Quote (lit "failed to create request: ") err)))
  /\ (http.url_Parse parseRest (apiURL s) = None ->
      out (AddProduct s p) = Panics).
Proof.
  intros Hc. paths s p; try congruence.
  - split; [reflexivity|]. split; [|congruence].
    intros err' H'. congruence.
  - split; [reflexivity|]. split; [congruence|reflexivity].
Qed.

(** X4. The service that NewProductService builds and a service with the
    same URL and client and any other marshal function, or none as in the
    struct literals of the tests, behave alike: the outcome and the events
    of AddProduct are the same. *)
Theorem X4_marshal_field_unused (url : bytes) (c : option http.Client)
        (m : option MarshalFunc) (p : Product) :
  out (AddProduct (mkService url c m) p)
  = out (AddProduct (NewProductService url c) p)
  /\ trace (AddProduct (mkService url c m) p)
     = trace (AddProduct (NewProductService url c) p).
Proof.
  exact (AddProduct_ignores_marshal Quote parseRest
           (NewProductService url c) p m).
Qed.

(** X5. The start of the message of an error of AddProduct names the step
    that failed.  The message starts with exactly one of four phrases:
    "failed to create request: " (the URL was rejected, nothing was
    sent), "failed to send request: " (the client returned an error),
    "unexpected status code: " (a response with a status other than 200
    and 201) or "failed to decode response: " (status 200 or 201 and a
    body the decoder rejects).  It never starts with "failed to marshal
    product: ". *)
Theorem X5_error_names_step (s : productService) (p q : Product) (e : error) :
  out (AddProduct s p) = Returns q (Some e) ->
  HasPrefix (Error e) (lit "failed to marshal product: ") = false
  /\ (HasPrefix (Error e) (lit "failed to create request: ") = true
      \/ HasPrefix (Error e) (lit "failed to send request: ") = true
      \/ HasPrefix (Error e) (lit "unexpected status code: ") = true
      \/ HasPrefix (Error e) (lit "failed to decode response: ") = true)
  /\ (HasPrefix (Error e) (lit "failed to create request: ") = true ->
      exists err,
        http.url_Parse parseRest (apiURL s) = Some err
        /\ Unwrap e = Some err /\ trace (AddProduct s p) = [])
  /\ (HasPrefix (Error e) (lit "failed to send request: ") = true ->
      exists c req err,
        client s = Some c /\ trace (AddProduct s p) = [evDo req]
        /\ http.Do c req = inr err /\ Unwrap e = Some err)
  /\ (HasPrefix (Error e) (lit "unexpected status code: ") = true ->
      exists c req resp,
        client s = Some c /\ trace (AddProduct s p) = [evDo req; evClose]
        /\ http.Do c req = inl resp
        /\ http.StatusCode resp <> 200 /\ http.StatusCode resp <> 201
        /\ Unwrap e = None)
  /\ (HasPrefix (Error e) (lit "failed to decode response: ") = true ->
      exists c req resp partial err,
        client s = Some c /\ trace (AddProduct s p) = [evDo req; evClose]
        /\ http.Do c req = inl resp
        /\ (http.StatusCode resp = 200 \/ http.StatusCode resp = 201)
        /\ json.Decode (http.Body resp) zeroProduct = Some (partial, Some err)
        /\ Unwrap e = Some err).
Proof.
  intros Hout.
  paths s p; try discriminate; injection Hout as <- <-;
    (split; [reflexivity|]); (split; [auto|]);
    repeat split; intros Hp; try discriminate Hp; eauto 12.
Qed.

(** X6. The outcome of AddProduct depends on the input only through the
    answer of the client: two calls on the same service whose requests
    get the same answer have the same outcome, whatever the two
    Products are. *)
Theorem X6_outcome_from_answer (s : productService) (p1 p2 : Product)
        (c : http.Client) (req1 req2 : http.Request) :
  client s = Some c ->
  In (evDo req1) (trace (AddProduct s p1)) ->
  In (evDo req2) (trace (AddProduct s p2)) ->
  http.Do c req1 = http.Do c req2 ->
  out (AddProduct s p1) = out (AddProduct s p2).
Proof.
  intros Hc H1 H2 Hdo. answer Hc H1. answer Hc H2. now rewrite Hdo.
Qed.

(** X7. The test double testProductService.AddProduct, given a marshaler
    that is the standard json.Marshal, returns exactly what AddProduct of
    the service returns for the same URL, client and input. *)
Theorem X7_test_double_agrees (url : bytes) (c : option http.Client)
        (m : option MarshalFunc) (p : Product) :
  testAddProduct (mkTestService url c DefaultMarshal) p
  = out (AddProduct (mkService url c m) p).
Proof. apply testAddProduct_standard. Qed.

(** X8. When the marshaler of the test double fails, its AddProduct
    returns the zero Product and an error whose message is "failed to
    marshal product: " followed by the marshaler's message and which
    wraps the marshaler's error.  This comes before every other step: it
    holds for any URL, even one that the parser rejects, and any client,
    even nil. *)
Theorem X8_test_double_marshal_failure (s : testProductService) (p : Product)
        (err : error) :
  marshaler s p = inr err ->
  exists e,
    testAddProduct s p = Returns zeroProduct (Some e)
    /\ Error e = lit "failed to marshal product: " ++ Error err
    /\ Unwrap e = Some err.
Proof.
  intros H. rewrite (testAddProduct_marshal_error Quote parseRest s p err H).
  eexists. repeat split.
Qed.

(** X9. If the response has status 200 or 201 and its body starts with
    the encoding that json.Marshal gives for a Product q, AddProduct
    returns q with its strings coerced to valid UTF-8, and so q itself
    when its strings are valid UTF-8, and a nil error, whatever the input
    was and whatever follows the encoding: the server's Product wins. *)
Theorem X9_server_product (s : productService) (p q : Product)
        (c : http.Client) (req : http.Request) (resp : http.Response)
        (body rest : bytes) :
  isInt (Price q) ->
  client s = Some c ->
  In (evDo req) (trace (AddProduct s p)) ->
  http.Do c req = inl resp ->
  http.StatusCode resp = 200 \/ http.StatusCode resp = 201 ->
  json.Marshal q = inl body ->
  json.content (http.Body resp) = body ++ rest ->
  out (AddProduct s p) = Returns (coerced q) None
  /\ (validProduct q -> out (AddProduct s p) = Returns q None).
Proof.
  intros Hq Hc Hin Hdo Hcode Hm Hbody. answer Hc Hin. rewrite Hdo.
  status_ok Hcode. injection Hm as <-.
  destruct (http.Body resp) as [cont rerr]. cbn [json.content] in Hbody.
  subst cont. rewrite (Decode_structEncoder_any q rest rerr Hq).
  split; [reflexivity|]. intros Hv. now rewrite (coerced_valid q Hv).
Qed.

(** X10. If a response with status 200 or 201 has an empty body, or a
    body of white space only, AddProduct returns the zero Product and an
    error that wraps the error of the reader or, at the regular end of
    the body, io.EOF ("failed to decode response: EOF"). *)
Theorem X10_blank_body (s : productService) (p : Product)
        (c : http.Client) (req : http.Request) (resp : http.Response) :
  client s = Some c ->
  In (evDo req) (trace (AddProduct s p)) ->
  http.Do c req = inl resp ->
  http.StatusCode resp = 200 \/ http.StatusCode resp = 201 ->
  forallb json.isSpace (json.content (http.Body resp)) = true ->
  exists e err,
    out (AddProduct s p) = Returns zeroProduct (Some e)
    /\ err = match json.readErr (http.Body resp) with
             | Some e' => e'
             | None => io_EOF
             end
    /\ Error e = lit "failed to decode response: " ++ Error err
    /\ Unwrap e = Some err.
Proof.
  intros Hc Hin Hdo Hcode Hblank. answer Hc Hin. rewrite Hdo.
  status_ok Hcode. destruct (http.Body resp) as [cont rerr].
  cbn [json.content json.readErr] in *.
  rewrite (Decode_blank cont rerr zeroProduct Hblank).
  do 2 eexists. repeat split.
Qed.

(** X11. If the body of a response with status 200 or 201 is a JSON
    object that was cut short (some bytes are missing at its end),
    AddProduct returns the zero Product and an error with the prefix
    "failed to decode response: " that wraps the error of the reader or,
    when the body just ends, io.ErrUnexpectedEOF (io.EOF if only white
    space arrived). *)
Theorem X11_cut_object (s : productService) (p : Product)
        (c : http.Client) (req : http.Request) (resp : http.Response)
        (missing : bytes) (ms : list (bytes * json.value)) :
  client s = Some c ->
  In (evDo req) (trace (AddProduct s p)) ->
  http.Do c req = inl resp ->
  http.StatusCode resp = 200 \/ http.StatusCode resp = 201 ->
  json.valueOf (json.content (http.Body resp) ++ missing)
  = Some (json.Object ms) ->
  missing <> [] ->
  exists e err,
    out (AddProduct s p) = Returns zeroProduct (Some e)
    /\ err = endOfInput (json.content (http.Body resp))
                        (json.readErr (http.Body resp))
    /\ Error e = lit "failed to decode response: " ++ Error err
    /\ Unwrap e = Some err.
Proof.
  intros Hc Hin Hdo Hcode Hval Hmiss. answer Hc Hin. rewrite Hdo.
  status_ok Hcode. destruct (http.Body resp) as [cont rerr].
  cbn [json.content json.readErr] in *.
  rewrite (Decode_cut cont missing rerr ms zeroProduct Hval Hmiss).
  do 2 eexists. repeat split.
Qed.

(** X12. If the body of a response with status 200 or 201 starts with
    null, AddProduct returns the zero Product and a nil error, whatever
    follows (at the end of the body the reader must have ended
    regularly). *)
Theorem X12_null_body (s : productService) (p : Product)
        (c : http.Client) (req : http.Request) (resp : http.Response)
        (rest : bytes) :
  client s = Some c ->
  In (evDo req) (trace (AddProduct s p)) ->
  http.Do c req = inl resp ->
  http.StatusCode resp = 200 \/ http.StatusCode resp = 201 ->
  json.content (http.Body resp) = lit "null" ++ rest ->
  rest <> [] \/ json.readErr (http.Body resp) = None ->
  out (AddProduct s p) = Returns zeroProduct None.
Proof.
  intros Hc Hin Hdo Hcode Hbody Hrest. answer Hc Hin. rewrite Hdo.
  status_ok Hcode. destruct (http.Body resp) as [cont rerr].
  cbn [json.content json.readErr] in *. subst cont.
  now rewrite (Decode_null rest rerr zeroProduct Hrest).
Qed.

(** X13. White space before the value in the body of the response plays
    no part: two calls whose responses have the same status and differ
    only by white space at the start of the body have the same outcome. *)
Theorem X13_leading_space (s1 s2 : productService) (p1 p2 : Product)
        (c1 c2 : http.Client) (req1 req2 : http.Request)
        (resp1 resp2 : http.Response) (ws : bytes) :
  client s1 = Some c1 ->
  In (evDo req1) (trace (AddProduct s1 p1)) ->
  http.Do c1 req1 = inl resp1 ->
  client s2 = Some c2 ->
  In (evDo req2) (trace (AddProduct s2 p2)) ->
  http.Do c2 req2 = inl resp2 ->
  http.StatusCode resp1 = http.StatusCode resp2 ->
  forallb json.isSpace ws = true ->
  json.content (http.Body resp1) = ws ++ json.content (http.Body resp2) ->
  json.readErr (http.Body resp1) = json.readErr (http.Body resp2) ->
  out (AddProduct s1 p1) = out (AddProduct s2 p2).
Proof.
  intros Hc1 Hin1 Hdo1 Hc2 Hin2 Hdo2 Hcode Hws Hcont Herr.
  answer Hc1 Hin1. answer Hc2 Hin2. rewrite Hdo1, Hdo2, Hcode.
  destruct (http.Body resp1) as [cont1 rerr1].
  destruct (http.Body resp2) as [cont2 rerr2].
  cbn [json.content json.readErr] in *. subst cont1 rerr1.
  now rewrite (Decode_leading_space ws cont2 rerr2 zeroProduct Hws).
Qed.

(** X14. Against an endpoint that echoes the body of the request with
    status 200 or 201, AddProduct returns the input with its strings
    coerced to valid UTF-8: every byte that is not part of a well-formed
    encoding has become U+FFFD.  The result is valid UTF-8, and coercing
    it again changes nothing, so submitting the result returns it
    unchanged. *)
Theorem X14_echo_coerces (s : productService) (p : Product)
        (c : http.Client) (req : http.Request) (resp : http.Response)
        (rest : bytes) :
  isInt (Price p) ->
  client s = Some c ->
  In (evDo req) (trace (AddProduct s p)) ->
  http.Do c req = inl resp ->
  http.StatusCode resp = 200 \/ http.StatusCode resp = 201 ->
  json.content (http.Body resp) = http.reqBody req ++ rest ->
  out (AddProduct s p) = Returns (coerced p) None
  /\ validProduct (coerced p)
  /\ coerced (coerced p) = coerced p.
Proof.
  intros Hp Hc Hin Hdo Hcode Hbody.
  pose proof (coerced_is_valid p Hp) as Hv.
  split; [|split; [exact Hv | now apply coerced_valid]].
  answer Hc Hin. rewrite Hdo. status_ok Hcode.
  destruct (AddProduct_request Quote parseRest s p req Hin) as (_ & _ & _ & Hb).
  rewrite Hb in Hbody.
  destruct (http.Body resp) as [cont rerr]. cbn [json.content] in Hbody.
  subst cont. now rewrite (Decode_structEncoder_any p rest rerr Hp).
Qed.

(** X15. The price of the response must fit an int of 64 bits.  If the
    body of a response with status 200 or 201 starts with an object as
    json.Marshal writes it, but with a price numeral below -2^63 or above
    2^63-1, AddProduct returns the zero Product and the error "failed to
    decode response: json: cannot unmarshal number N into Go struct field
    Product.price of type int", N being the numeral. *)
Theorem X15_price_out_of_range (s : productService) (p q : Product)
        (c : http.Client) (req : http.Request) (resp : http.Response)
        (rest : bytes) :
  ~ isInt (Price q) ->
  client s = Some c ->
  In (evDo req) (trace (AddProduct s p)) ->
  http.Do c req = inl resp ->
  http.StatusCode resp = 200 \/ http.StatusCode resp = 201 ->
  json.content (http.Body resp) = json.structEncoder q ++ rest ->
  exists e,
    out (AddProduct s p) = Returns zeroProduct (Some e)
    /\ Error e
       = lit "failed to decode response: json: cannot unmarshal number "
           ++ strconv.FormatInt (Price q)
           ++ lit " into Go struct field Product.price of type int"
    /\ Unwrap e
       = Some (UnmarshalTypeError (lit "number " ++ strconv.FormatInt (Price q))
                                  (lit "int") (lit "Product") (lit "price")).
Proof.
  intros Hq Hc Hin Hdo Hcode Hbody. answer Hc Hin. rewrite Hdo.
  status_ok Hcode.
  destruct (http.Body resp) as [cont rerr]. cbn [json.content] in Hbody.
  subst cont.
  rewrite (Decode_object_prefix _ _ _ _ _ (valueOf_structEncoder q)).
  rewrite (object_price_range q Hq).
  eexists. split; [reflexivity|]. split; [|reflexivity].
  cbn. reflexivity.
Qed.

(** X16. If the body of a response with status 200 or 201 starts with a
    JSON array, AddProduct returns the zero Product and the error "failed
    to decode response: json: cannot unmarshal array into Go value of
    type product.Product", whatever follows the array. *)
Theorem X16_array_body (s : productService) (p : Product)
        (c : http.Client) (req : http.Request) (resp : http.Response)
        (arr rest : bytes) (elems : list json.value) :
  client s = Some c ->
  In (evDo req) (trace (AddProduct s p)) ->
  http.Do c req = inl resp ->
  http.StatusCode resp = 200 \/ http.StatusCode resp = 201 ->
  json.content (http.Body resp) = arr ++ rest ->
  json.valueOf arr = Some (json.Array elems) ->
  exists e,
    out (AddProduct s p) = Returns zeroProduct (Some e)
    /\ Error e
       = lit "failed to decode response: "
           ++ lit "json: cannot unmarshal array into Go value of type product.Product"
    /\ Unwrap e
       = Some (UnmarshalTypeError (lit "array") (lit "product.Product") [] []).
Proof.
  intros Hc Hin Hdo Hcode Hbody Hval. answer Hc Hin. rewrite Hdo.
  status_ok Hcode.
  destruct (http.Body resp) as [cont rerr]. cbn [json.content] in Hbody.
  subst cont. rewrite (Decode_array_prefix arr rest rerr elems _ Hval).
  eexists. repeat split.
Qed.

(** X17. When keys of the response object select the same field more
    than once, the last of them decides: if the body of a successful
    response starts with an object in which the last member that selects
    a string field f is a string, the returned Product has the text of
    that string in f, whatever the members before it are. *)
Theorem X17_last_member_wins (s : productService) (p q : Product)
        (c : http.Client) (req : http.Request) (resp : http.Response)
        (obj rest : bytes) (ms1 ms2 : list (bytes * json.value))
        (k r text : bytes) (f : field) :
  client s = Some c ->
  In (evDo req) (trace (AddProduct s p)) ->
  http.Do c req = inl resp ->
  json.content (http.Body resp) = obj ++ rest ->
  json.valueOf obj
  = Some (json.Object (ms1 ++ (k, json.Literal dq r) :: ms2)) ->
  selects k = Some f -> f <> fPrice ->
  json.unquoteBytes (dq :: r) = Some text ->
  (forall m, In m ms2 -> selects (fst m) <> Some f) ->
  out (AddProduct s p) = Returns q None ->
  fieldValue f q = inl text.
Proof.
  intros Hc Hin Hdo Hbody Hval Hk Hf Hu Hms Hout.
  rewrite (AddProduct_answer Quote parseRest _ _ _ _ Hc Hin) in Hout.
  rewrite Hdo in Hout.
  destruct (negb (http.StatusCode resp =? 200)
            && negb (http.StatusCode resp =? 201)); [discriminate|].
  destruct (http.Body resp) as [cont rerr]. cbn [json.content] in Hbody.
  subst cont. rewrite (Decode_object_prefix _ _ _ _ _ Hval) in Hout.
  destruct (json.object _ zeroProduct None) as [[q' [e|]]|] eqn:Ho;
    try discriminate.
  injection Hout as <-.
  exact (object_last_member ms1 ms2 k r text f _ _ _ Hk Hf Hu Hms Ho).
Qed.

(** X18. The keys of the response are matched without regard to the case
    of their letters.  If the body of a response with status 200 or 201
    starts with an object whose single member has a key that is equal to
    the key of a field f up to the case of its letters (TITLE, Title,
    tItLe), and the value that json.Marshal writes for the field f of a
    Product q, AddProduct returns a Product that has the (coerced) value
    of q in f and the zero value in every other field. *)
Theorem X18_key_in_any_case (s : productService) (p q : Product)
        (c : http.Client) (req : http.Request) (resp : http.Response)
        (key rest : bytes) (f : field) :
  isInt (Price q) ->
  client s = Some c ->
  In (evDo req) (trace (AddProduct s p)) ->
  http.Do c req = inl resp ->
  http.StatusCode resp = 200 \/ http.StatusCode resp = 201 ->
  map toUpper key = map toUpper (fieldName f) ->
  json.content (http.Body resp) = singleMember key q f ++ rest ->
  exists r,
    out (AddProduct s p) = Returns r None
    /\ fieldValue f r = fieldValue f (coerced q)
    /\ forall g, g <> f -> fieldValue g r = fieldValue g zeroProduct.
Proof.
  intros Hq Hc Hin Hdo Hcode Hkey Hbody. answer Hc Hin. rewrite Hdo.
  status_ok Hcode.
  pose proof (folded_key_letters f key Hkey) as Hl.
  destruct (http.Body resp) as [cont rerr]. cbn [json.content] in Hbody.
  subst cont.
  rewrite (Decode_object_prefix _ _ _ _ _
             (valueOf_singleMember key q f (letters_stringText key Hl))).
  cbn [json.object].
  rewrite (letters_unquoteBytes key Hl), (lookupField_folded f key Hkey).
  destruct (storeField_encodeValue q zeroProduct f Hq) as (r & -> & H1 & H2).
  exists r. cbn [json.saveError]. auto.
Qed.

(** X19. The body of every request that AddProduct sends is valid UTF-8
    and holds no control character (no byte below 0x20, so no line
    break) and none of the characters <, > and &, whatever bytes the
    strings of the input hold: json.Marshal escapes them. *)
Theorem X19_body_bytes (s : productService) (p : Product) (req : http.Request) :
  In (evDo req) (trace (AddProduct s p)) ->
  utf8.ValidString (http.reqBody req) = true
  /\ forallb plainByte (http.reqBody req) = true.
Proof.
  intros Hin.
  destruct (AddProduct_request Quote parseRest s p req Hin) as (_ & _ & _ & ->).
  split; [apply structEncoder_valid | apply structEncoder_plain].
Qed.

(** X20. Different Products give different requests: if two calls, on
    any services, send requests with the same body, their inputs are
    equal up to the coercion of their strings to valid UTF-8, and equal
    when their strings are valid UTF-8. *)
Theorem X20_body_determines_input (s1 s2 : productService) (p1 p2 : Product)
        (req1 req2 : http.Request) :
  isInt (Price p1) -> isInt (Price p2) ->
  In (evDo req1) (trace (AddProduct s1 p1)) ->
  In (evDo req2) (trace (AddProduct s2 p2)) ->
  http.reqBody req1 = http.reqBody req2 ->
  coerced p1 = coerced p2
  /\ (validProduct p1 -> validProduct p2 -> p1 = p2).
Proof.
  intros H1 H2 Hin1 Hin2 Hb.
  destruct (AddProduct_request Quote parseRest s1 p1 req1 Hin1)
    as (_ & _ & _ & Hb1).
  destruct (AddProduct_request Quote parseRest s2 p2 req2 Hin2)
    as (_ & _ & _ & Hb2).
  rewrite Hb1, Hb2 in Hb.
  pose proof (Decode_structEncoder_any p1 [] None H1) as D1.
  pose proof (Decode_structEncoder_any p2 [] None H2) as D2.
  rewrite Hb in D1. rewrite D1 in D2.
  assert (E : coerced p1 = coerced p2) by congruence.
  split; [exact E|]. intros V1 V2.
  now rewrite <- (coerced_valid p1 V1), <- (coerced_valid p2 V2).
Qed.

(** X21. The transport double mockRoundTripper never looks at the
    request; a configured error comes before a configured response; and
    with neither it answers with status 200 and the body {}, for which
    AddProduct, on a client that hands the answer on, returns the zero
    Product and a nil error whatever the input is. *)
Theorem X21_mock_round_tripper (m : mockRoundTripper) :
  (forall req1 req2, RoundTrip m req1 = RoundTrip m req2)
  /\ (forall e req, m_err m = Some e -> RoundTrip m req = inr e)
  /\ (forall resp req,
         m_err m = None -> m_resp m = Some resp -> RoundTrip m req = inl resp)
  /\ (m_err m = None -> m_resp m = None ->
      forall s p c req,
        client s = Some c ->
        In (evDo req) (trace (AddProduct s p)) ->
        http.Do c req = RoundTrip m req ->
        out (AddProduct s p) = Returns zeroProduct None).
Proof.
  split; [reflexivity|]. split.
  { intros e req H. unfold RoundTrip. now rewrite H. }
  split.
  { intros resp req H1 H2. unfold RoundTrip. now rewrite H1, H2. }
  intros H1 H2 s p c req Hc Hin Hdo. answer Hc Hin. rewrite Hdo.
  unfold RoundTrip. rewrite H1, H2. reflexivity.
Qed.

(** X22. A response nested too deeply is refused: if the body of a
    response with status 200 or 201 starts with more than 10000 opening
    brackets, AddProduct returns the zero Product and an error with the
    prefix "failed to decode response: " that wraps the syntax error
    "exceeded max depth" of the decoder. *)
Theorem X22_nesting_limit (s : productService) (p : Product)
        (c : http.Client) (req : http.Request) (resp : http.Response)
        (n : nat) (rest : bytes) :
  client s = Some c ->
  In (evDo req) (trace (AddProduct s p)) ->
  http.Do c req = inl resp ->
  http.StatusCode resp = 200 \/ http.StatusCode resp = 201 ->
  json.maxNestingDepth < Z.of_nat n ->
  json.content (http.Body resp) = brackets n ++ rest ->
  exists e,
    out (AddProduct s p) = Returns zeroProduct (Some e)
    /\ Error e
       = lit "failed to decode response: "
           ++ Error (SyntaxError "[" (lit "exceeded max depth"))
    /\ Unwrap e = Some (SyntaxError "[" (lit "exceeded max depth")).
Proof.
  intros Hc Hin Hdo Hcode Hn Hbody. answer Hc Hin. rewrite Hdo.
  status_ok Hcode.
  destruct (http.Body resp) as [cont rerr]. cbn [json.content] in Hbody.
  subst cont. rewrite (Decode_too_deep n rest rerr zeroProduct Hn).
  eexists. repeat split.
Qed.

(** X23. AddProduct panics in one situation only: the service has no
    client and the URL is accepted, so that the nil client is used.
    With a client it always returns, whatever the client answers and
    whatever bytes the body of the response holds: the decoder reports an
    error for every body that it cannot use. *)
Theorem X23_panics_only_without_client (s : productService) (p : Product) :
  out (AddProduct s p) = Panics
  <-> client s = None /\ http.url_Parse parseRest (apiURL s) = None.
Proof.
  paths s p; (split; [intros Hp | intros [Hn Hu]]);
    try discriminate; try congruence; auto.
  exfalso.
  match goal with
  | H : json.Decode ?r ?v = None |- _ =>
    destruct (Decode_total r v) as (res & Hres); congruence
  end.
Qed.

(** X24. The first member of the response object that does not fit its
    field decides the error.  If the body of a response with status 200
    or 201 starts with an object in which the members before the member
    k are stored without an error and the value of k does not fit the
    field that k selects, AddProduct returns the zero Product and an
    error that wraps the error for k, whatever the members after it
    are. *)
Theorem X24_first_error_wins (s : productService) (p p1 p2 : Product)
        (c : http.Client) (req : http.Request) (resp : http.Response)
        (obj rest : bytes) (ms1 ms2 : list (bytes * json.value))
        (k : bytes) (v : json.value) (f : field) (err : error) :
  client s = Some c ->
  In (evDo req) (trace (AddProduct s p)) ->
  http.Do c req = inl resp ->
  http.StatusCode resp = 200 \/ http.StatusCode resp = 201 ->
  json.content (http.Body resp) = obj ++ rest ->
  json.valueOf obj = Some (json.Object (ms1 ++ (k, v) :: ms2)) ->
  json.object ms1 zeroProduct None = Some (p1, None) ->
  selects k = Some f ->
  json.storeField v f p1 = Some (p2, Some err) ->
  exists e,
    out (AddProduct s p) = Returns zeroProduct (Some e)
    /\ Error e = lit "failed to decode response: " ++ Error err
    /\ Unwrap e = Some err.
Proof.
  intros Hc Hin Hdo Hcode Hbody Hval H1 Hk Hv. answer Hc Hin. rewrite Hdo.
  status_ok Hcode.
  destruct (http.Body resp) as [cont rerr]. cbn [json.content] in Hbody.
  subst cont. rewrite (Decode_object_prefix _ _ _ _ _ Hval).
  pose proof (valueOf_object_wf _ _ Hval) as Hwf.
  apply Forall_app in Hwf as [_ Hwf]. apply Forall_cons_iff in Hwf as [_ Hwf].
  destruct (object_first_error ms1 ms2 k v f zeroProduct p1 p2 err Hwf H1 Hk Hv)
    as (q & ->).
  eexists. repeat split.
Qed.

(** X25. AddProduct returns a nil error only for a response whose body
    starts, after white space, with the opening brace of an object or
    with the literal null; in the second case the result is the zero
    Product.  A body that starts with anything else (an array, a string,
    a number, true, false, or no JSON at all) gives an error. *)
Theorem X25_success_needs_object (s : productService) (p q : Product) :
  out (AddProduct s p) = Returns q None ->
  exists c req resp ws rest,
    client s = Some c
    /\ trace (AddProduct s p) = [evDo req; evClose]
    /\ http.Do c req = inl resp
    /\ forallb json.isSpace ws = true
    /\ (json.content (http.Body resp) = ws ++ "{" :: rest
        \/ (json.content (http.Body resp) = ws ++ lit "null" ++ rest
            /\ q = zeroProduct)).
Proof.
  intros Hout.
  paths s p; try discriminate. injection Hout as <-.
  match goal with
  | H : json.Decode _ _ = Some _ |- _ =>
    destruct (Decode_success_head _ _ _ H) as (ws & rest & Hw & Hb)
  end.
  eauto 12.
Qed.

End Extras.

(** ** Closed instances of the further properties *)

(** An instance of X1: the transport fails with "network error". *)
Lemma X1_send_failure_witness :
  exists e,
    out (AddProduct sampleQuote acceptURL failingService sampleProduct)
    = Returns zeroProduct (Some e)
    /\ Error sampleQuote e
       = lit "failed to send request: " ++ Error sampleQuote networkError
    /\ Unwrap e = Some networkError
    /\ trace (AddProduct sampleQuote acceptURL failingService sampleProduct)
       = [evDo (requestOf failingService sampleProduct)].
Proof.
  apply (X1_send_failure sampleQuote acceptURL failingService sampleProduct
           failingClient (requestOf failingService sampleProduct) networkError).
  - reflexivity.
  - vm_compute. left. reflexivity.
  - reflexivity.
Defined.

(** An instance of X3: the constructor with a nil client. *)
Lemma X3_nil_client_witness :
  trace (AddProduct sampleQuote acceptURL clientless sampleProduct) = []
  /\ (forall err,
         http.url_Parse acceptURL (apiURL clientless) = Some err ->
         out (AddProduct sampleQuote acceptURL clientless sampleProduct)
         = Returns zeroProduct
             (Some (Errorf_w sampleQuote (lit "failed to create request: ") err)))
  /\ (http.url_Parse acceptURL (apiURL clientless) = None ->
      out (AddProduct sampleQuote acceptURL clientless sampleProduct) = Panics).
Proof.
  apply (X3_nil_client sampleQuote acceptURL clientless sampleProduct).
  reflexivity.
Defined.

(** An instance of X5: the status error of the rejecting endpoint. *)
Lemma X5_error_names_step_witness :
  HasPrefix (Error sampleQuote (errorString (lit "unexpected status code: 400")))
            (lit "unexpected status code: ") = true
  /\ exists c req resp,
      client rejecting = Some c
      /\ trace (AddProduct sampleQuote acceptURL rejecting sampleProduct)
         = [evDo req; evClose]
      /\ http.Do c req = inl resp
      /\ http.StatusCode resp <> 200 /\ http.StatusCode resp <> 201
      /\ Unwrap (errorString (lit "unexpected status code: 400")) = None.
Proof.
  split; [reflexivity|].
  apply (X5_error_names_step sampleQuote acceptURL rejecting sampleProduct
           zeroProduct (errorString (lit "unexpected status code: 400"))).
  - vm_compute. reflexivity.
  - reflexivity.
Defined.

(** An instance of X6: two inputs, one answer. *)
Lemma X6_outcome_from_answer_witness :
  out (AddProduct sampleQuote acceptURL titling sampleProduct)
  = out (AddProduct sampleQuote acceptURL titling latin1Product).
Proof.
  apply (X6_outcome_from_answer sampleQuote acceptURL titling
           sampleProduct latin1Product (cannedClient 200 titleObject)
           (requestOf titling sampleProduct) (requestOf titling latin1Product)).
  - reflexivity.
  - vm_compute. left. reflexivity.
  - vm_compute. left. reflexivity.
  - reflexivity.
Defined.

(** An instance of X8: the failing marshaler, with a URL that would be
    rejected and without a client. *)
Lemma X8_test_double_marshal_failure_witness :
  exists e,
    testAddProduct sampleQuote acceptURL brokenDouble sampleProduct
    = Returns zeroProduct (Some e)
    /\ Error sampleQuote e
       = lit "failed to marshal product: "
           ++ Error sampleQuote (errorString (lit "marshal error"))
    /\ Unwrap e = Some (errorString (lit "marshal error")).
Proof.
  apply (X8_test_double_marshal_failure sampleQuote acceptURL brokenDouble
           sampleProduct (errorString (lit "marshal error"))).
  reflexivity.
Defined.

(** An instance of X9: the scenario of the tests, where the server sets
    the price to 2099. *)
Lemma X9_server_product_witness :
  out (AddProduct sampleQuote acceptURL repricing sampleProduct)
  = Returns (coerced repriced) None
  /\ (validProduct repriced ->
      out (AddProduct sampleQuote acceptURL repricing sampleProduct)
      = Returns repriced None).
Proof.
  apply (X9_server_product sampleQuote acceptURL repricing sampleProduct
           repriced (cannedClient 201 (json.structEncoder repriced))
           (requestOf repricing sampleProduct)
           (http.mkResponse 201
              (json.mkReader (json.structEncoder repriced) None))
           (json.structEncoder repriced) []).
  - unfold isInt. cbn. lia.
  - reflexivity.
  - vm_compute. left. reflexivity.
  - reflexivity.
  - right. reflexivity.
  - reflexivity.
  - vm_compute. reflexivity.
Defined.

(** An instance of X10: status 201 and no body. *)
Lemma X10_blank_body_witness :
  exists e err,
    out (AddProduct sampleQuote acceptURL silent sampleProduct)
    = Returns zeroProduct (Some e)
    /\ err = io_EOF
    /\ Error sampleQuote e
       = lit "failed to decode response: " ++ Error sampleQuote err
    /\ Unwrap e = Some err.
Proof.
  apply (X10_blank_body sampleQuote acceptURL silent sampleProduct
           (cannedClient 201 []) (requestOf silent sampleProduct)
           (http.mkResponse 201 (json.mkReader [] None))).
  - reflexivity.
  - vm_compute. left. reflexivity.
  - reflexivity.
  - right. reflexivity.
  - reflexivity.
Defined.

(** An instance of X11: the closing brace is missing. *)
Lemma X11_cut_object_witness :
  exists e err,
    out (AddProduct sampleQuote acceptURL cutting sampleProduct)
    = Returns zeroProduct (Some e)
    /\ err = endOfInput cutBody None
    /\ Error sampleQuote e
       = lit "failed to decode response: " ++ Error sampleQuote err
    /\ Unwrap e = Some err.
Proof.
  apply (X11_cut_object sampleQuote acceptURL cutting sampleProduct
           (cannedClient 200 cutBody) (requestOf cutting sampleProduct)
           (http.mkResponse 200 (json.mkReader cutBody None))
           ["}"] [(quoted (lit "title"), literalOf (quoted (lit "a")))]).
  - reflexivity.
  - vm_compute. left. reflexivity.
  - reflexivity.
  - left. reflexivity.
  - vm_compute. reflexivity.
  - discriminate.
Defined.

(** The message of that instance. *)
Example cut_object_message :
  out (AddProduct sampleQuote acceptURL cutting sampleProduct)
  = Returns zeroProduct
      (Some (wrapError (lit "failed to decode response: unexpected EOF")
                       io_ErrUnexpectedEOF)).
Proof. vm_compute. reflexivity. Qed.

(** An instance of X12: the body null. *)
Lemma X12_null_body_witness :
  out (AddProduct sampleQuote acceptURL nulling sampleProduct)
  = Returns zeroProduct None.
Proof.
  apply (X12_null_body sampleQuote acceptURL nulling sampleProduct
           (cannedClient 200 (lit "null")) (requestOf nulling sampleProduct)
           (http.mkResponse 200 (json.mkReader (lit "null") None)) []).
  - reflexivity.
  - vm_compute. left. reflexivity.
  - reflexivity.
  - left. reflexivity.
  - reflexivity.
  - right. reflexivity.
Defined.

(** An instance of X13: two blanks before the object. *)
Lemma X13_leading_space_witness :
  out (AddProduct sampleQuote acceptURL padding sampleProduct)
  = out (AddProduct sampleQuote acceptURL titling latin1Product).
Proof.
  apply (X13_leading_space sampleQuote acceptURL padding titling
           sampleProduct latin1Product
           (cannedClient 200 (lit "  " ++ titleObject))
           (cannedClient 200 titleObject)
           (requestOf padding sampleProduct) (requestOf titling latin1Product)
           (http.mkResponse 200 (json.mkReader (lit "  " ++ titleObject) None))
           (http.mkResponse 200 (json.mkReader titleObject None))
           (lit "  ")).
  - reflexivity.
  - vm_compute. left. reflexivity.
  - reflexivity.
  - reflexivity.
  - vm_compute. left. reflexivity.
  - reflexivity.
  - reflexivity.
  - reflexivity.
  - reflexivity.
  - reflexivity.
Defined.

(** An instance of X14: the title that is the byte 0xFF comes back as
    U+FFFD. *)
Lemma X14_echo_coerces_witness :
  out (AddProduct sampleQuote acceptURL echoing latin1Product)
  = Returns (coerced latin1Product) None
  /\ validProduct (coerced latin1Product)
  /\ coerced (coerced latin1Product) = coerced latin1Product.
Proof.
  apply (X14_echo_coerces sampleQuote acceptURL echoing latin1Product
           (echoClient 201) (requestOf echoing latin1Product)
           (http.mkResponse 201
              (json.mkReader (json.structEncoder latin1Product) None)) []).
  - unfold isInt. cbn. lia.
  - reflexivity.
  - vm_compute. left. reflexivity.
  - reflexivity.
  - right. reflexivity.
  - vm_compute. reflexivity.
Defined.

(** What the coercion makes of that title. *)
Example coerced_latin1 :
  coerced latin1Product = mkProduct [z2b 239; z2b 191; z2b 189] [] 0 [] [].
Proof. vm_compute. reflexivity. Qed.

(** An instance of X15: the price 2^63. *)
Lemma X15_price_out_of_range_witness :
  exists e,
    out (AddProduct sampleQuote acceptURL overflowed sampleProduct)
    = Returns zeroProduct (Some e)
    /\ Error sampleQuote e
       = lit "failed to decode response: json: cannot unmarshal number "
           ++ strconv.FormatInt (Price overflowing)
           ++ lit " into Go struct field Product.price of type int"
    /\ Unwrap e
       = Some (UnmarshalTypeError
                 (lit "number " ++ strconv.FormatInt (Price overflowing))
                 (lit "int") (lit "Product") (lit "price")).
Proof.
  apply (X15_price_out_of_range sampleQuote acceptURL overflowed sampleProduct
           overflowing (cannedClient 200 (json.structEncoder overflowing))
           (requestOf overflowed sampleProduct)
           (http.mkResponse 200
              (json.mkReader (json.structEncoder overflowing) None)) []).
  - unfold isInt. cbn. lia.
  - reflexivity.
  - vm_compute. left. reflexivity.
  - reflexivity.
  - left. reflexivity.
  - vm_compute. reflexivity.
Defined.

(** The numeral of that instance. *)
Example overflowing_numeral :
  strconv.FormatInt (Price overflowing) = lit "9223372036854775808".
Proof. vm_compute. reflexivity. Qed.

(** An instance of X16: the body [1,2]. *)
Lemma X16_array_body_witness :
  exists e,
    out (AddProduct sampleQuote acceptURL listing sampleProduct)
    = Returns zeroProduct (Some e)
    /\ Error sampleQuote e
       = lit "failed to decode response: "
           ++ lit "json: cannot unmarshal array into Go value of type product.Product"
    /\ Unwrap e
       = Some (UnmarshalTypeError (lit "array") (lit "product.Product") [] []).
Proof.
  apply (X16_array_body sampleQuote acceptURL listing sampleProduct
           (cannedClient 200 (lit "[1,2]")) (requestOf listing sampleProduct)
           (http.mkResponse 200 (json.mkReader (lit "[1,2]") None))
           (lit "[1,2]") [] [json.Literal "1" []; json.Literal "2" []]).
  - reflexivity.
  - vm_compute. left. reflexivity.
  - reflexivity.
  - left. reflexivity.
  - reflexivity.
  - vm_compute. reflexivity.
Defined.

(** An instance of X17: of two titles the second one is returned. *)
Lemma X17_last_member_wins_witness :
  fieldValue fTitle (mkProduct (lit "b") [] 0 [] []) = inl (lit "b").
Proof.
  apply (X17_last_member_wins sampleQuote acceptURL doubling sampleProduct
           (mkProduct (lit "b") [] 0 [] [])
           (cannedClient 200 twiceBody) (requestOf doubling sampleProduct)
           (http.mkResponse 200 (json.mkReader twiceBody None))
           twiceBody []
           [(quoted (lit "title"), literalOf (quoted (lit "a")))] []
           (quoted (lit "title")) (lit "b" ++ [dq]) (lit "b") fTitle).
  - reflexivity.
  - vm_compute. left. reflexivity.
  - reflexivity.
  - vm_compute. reflexivity.
  - vm_compute. reflexivity.
  - reflexivity.
  - discriminate.
  - reflexivity.
  - intros m [].
  - vm_compute. reflexivity.
Defined.

(** An instance of X18: the key TITLE. *)
Lemma X18_key_in_any_case_witness :
  exists r,
    out (AddProduct sampleQuote acceptURL shouting latin1Product)
    = Returns r None
    /\ fieldValue fTitle r = fieldValue fTitle (coerced sampleProduct)
    /\ forall g, g <> fTitle -> fieldValue g r = fieldValue g zeroProduct.
Proof.
  apply (X18_key_in_any_case sampleQuote acceptURL shouting latin1Product
           sampleProduct
           (cannedClient 200 (singleMember (lit "TITLE") sampleProduct fTitle))
           (requestOf shouting latin1Product)
           (http.mkResponse 200
              (json.mkReader (singleMember (lit "TITLE") sampleProduct fTitle)
                             None))
           (lit "TITLE") [] fTitle).
  - unfold isInt. cbn. lia.
  - reflexivity.
  - vm_compute. left. reflexivity.
  - reflexivity.
  - left. reflexivity.
  - reflexivity.
  - vm_compute. reflexivity.
Defined.

(** An instance of X19: the body of the request for the Product whose
    title is not valid UTF-8. *)
Lemma X19_body_bytes_witness :
  utf8.ValidString (http.reqBody (requestOf echoing latin1Product)) = true
  /\ forallb plainByte (http.reqBody (requestOf echoing latin1Product)) = true.
Proof.
  apply (X19_body_bytes sampleQuote acceptURL echoing latin1Product
           (requestOf echoing latin1Product)).
  vm_compute. left. reflexivity.
Defined.

(** An instance of X20: the same body on two services. *)
Lemma X20_body_determines_input_witness :
  coerced sampleProduct = coerced sampleProduct
  /\ (validProduct sampleProduct -> validProduct sampleProduct ->
      sampleProduct = sampleProduct).
Proof.
  apply (X20_body_determines_input sampleQuote acceptURL echoing rejecting
           sampleProduct sampleProduct
           (requestOf echoing sampleProduct) (requestOf rejecting sampleProduct)).
  - unfold isInt. cbn. lia.
  - unfold isInt. cbn. lia.
  - vm_compute. left. reflexivity.
  - vm_compute. left. reflexivity.
  - reflexivity.
Defined.

(** An instance of X22: 10001 opening brackets. *)
Lemma X22_nesting_limit_witness :
  exists e,
    out (AddProduct sampleQuote acceptURL nesting sampleProduct)
    = Returns zeroProduct (Some e)
    /\ Error sampleQuote e
       = lit "failed to decode response: "
           ++ Error sampleQuote (SyntaxError "[" (lit "exceeded max depth"))
    /\ Unwrap e = Some (SyntaxError "[" (lit "exceeded max depth")).
Proof.
  apply (X22_nesting_limit sampleQuote acceptURL nesting sampleProduct
           (cannedClient 200 (brackets (Z.to_nat 10001)))
           (requestOf nesting sampleProduct)
           (http.mkResponse 200
              (json.mkReader (brackets (Z.to_nat 10001)) None))
           (Z.to_nat 10001) []).
  - reflexivity.
  - vm_compute. left. reflexivity.
  - reflexivity.
  - left. reflexivity.
  - vm_compute. reflexivity.
  - vm_compute. reflexivity.
Defined.

(** An instance of X24: the price is a string; the brand after it plays
    no part. *)
Lemma X24_first_error_wins_witness :
  exists e,
    out (AddProduct sampleQuote acceptURL mixing sampleProduct)
    = Returns zeroProduct (Some e)
    /\ Error sampleQuote e
       = lit "failed to decode response: " ++ Error sampleQuote priceTypeError
    /\ Unwrap e = Some priceTypeError.
Proof.
  apply (X24_first_error_wins sampleQuote acceptURL mixing sampleProduct
           (mkProduct (lit "a") [] 0 [] []) (mkProduct (lit "a") [] 0 [] [])
           (cannedClient 200 mixedBody) (requestOf mixing sampleProduct)
           (http.mkResponse 200 (json.mkReader mixedBody None))
           mixedBody []
           [(quoted (lit "title"), literalOf (quoted (lit "a")))]
           [(quoted (lit "brand"), literalOf (quoted (lit "b")))]
           (quoted (lit "price")) (literalOf (quoted (lit "oops")))
           fPrice priceTypeError).
  - reflexivity.
  - vm_compute. left. reflexivity.
  - reflexivity.
  - left. reflexivity.
  - vm_compute. reflexivity.
  - vm_compute. reflexivity.
  - reflexivity.
  - reflexivity.
  - reflexivity.
Defined.

(** An instance of X25: the answer of the test server. *)
Lemma X25_success_needs_object_witness :
  exists c req resp ws rest,
    client repricing = Some c
    /\ trace (AddProduct sampleQuote acceptURL repricing sampleProduct)
       = [evDo req; evClose]
    /\ http.Do c req = inl resp
    /\ forallb json.isSpace ws = true
    /\ (json.content (http.Body resp) = ws ++ "{" :: rest
        \/ (json.content (http.Body resp) = ws ++ lit "null" ++ rest
            /\ repriced = zeroProduct)).
Proof.
  apply (X25_success_needs_object sampleQuote acceptURL repricing
           sampleProduct repriced).
  vm_compute. reflexivity.
Defined.
